(** * Detection fusion and spatial placement of powerpoint-ocr

    A shallow embedding of the geometric core of the repository
    (src/lib/detection-merger.ts, coordinate-validator.ts,
    layout-placement.ts, layout-detector.ts, hybrid-detector.ts and the
    primary-detector drivers) together with the properties the
    specification states about it.

    JavaScript [number]s are modelled as exact rationals [Q]: the
    constants of the code (10, 5.625, 0.1, 0.05, 1920, 1080) are all
    rational, [Math.max]/[Math.min] are [Qmax]/[Qmin], and the
    comparison operators are the boolean tests below.  NaN and the
    infinities are outside the model.

    The code computes in binary64, where every sum, difference, product
    and quotient is rounded.  The statements are therefore written with
    the expressions the code itself evaluates and with its comparisons,
    [Math.max] and [Math.min], which rounding leaves in place; what would
    hold only of exact sums is not stated.  Where a property of the
    specification fails through rounding, the function is also given in
    binary64 ([Binary64], on the kernel's floating-point numbers) and
    evaluated there. *)

From Stdlib Require Import QArith Qminmax Lqa ZArith Lia.
From Stdlib Require Floats.
From stdpp Require Import base option list strings gmap sets.

Local Open Scope Q_scope.

(** ** Numbers *)
Definition number := Q.

(** [a >= b], [a > b], [a <= b], [a < b] and [a === b] on numbers. *)
Definition geb (a b : number) : bool := Qle_bool b a.
Definition gtb (a b : number) : bool := negb (Qle_bool a b).
Definition leb (a b : number) : bool := Qle_bool a b.
Definition ltb (a b : number) : bool := negb (Qle_bool b a).
Definition eqb (a b : number) : bool := Qeq_bool a b.

(** [v || 0] on an optional number. *)
Definition orZero (v : option number) : number := default 0 v.

(** ** src/types/index.ts *)
Inductive TextAlign := AlignLeft | AlignCenter | AlignRight.
Inductive VerticalAlign := VTop | VMiddle | VBottom.
Inductive DetectionSource := SrcClaude | SrcCraft | SrcHybrid | SrcDBNet.
Record DetectedTextElement := mkElement {
  id : option string;
  slide_id : option string;
  content : string;
  position_x : number;
  position_y : number;
  width : number;
  height : number;
  font_family : option string;
  font_size : option number;
  font_color : option string;
  is_bold : option bool;
  is_italic : option bool;
  is_underline : option bool;
  align : option TextAlign;
  vertical_align : option VerticalAlign;
  confidence_score : option number;
  parent_shape_id : option string;
  detection_source : option DetectionSource;
  craft_detection_id : option string
}.

(** [{ ...e, position_x, position_y, width, height }] *)
Definition withGeometry (e : DetectedTextElement) (px py w h : number)
  : DetectedTextElement :=
  {| id := id e; slide_id := slide_id e; content := content e;
     position_x := px; position_y := py; width := w; height := h;
     font_family := font_family e; font_size := font_size e;
     font_color := font_color e; is_bold := is_bold e;
     is_italic := is_italic e; is_underline := is_underline e;
     align := align e; vertical_align := vertical_align e;
     confidence_score := confidence_score e;
     parent_shape_id := parent_shape_id e;
     detection_source := detection_source e;
     craft_detection_id := craft_detection_id e |}.

(** [{ ...e, confidence_score }] *)
Definition withConfidence (e : DetectedTextElement) (c : number)
  : DetectedTextElement :=
  {| id := id e; slide_id := slide_id e; content := content e;
     position_x := position_x e; position_y := position_y e;
     width := width e; height := height e;
     font_family := font_family e; font_size := font_size e;
     font_color := font_color e; is_bold := is_bold e;
     is_italic := is_italic e; is_underline := is_underline e;
     align := align e; vertical_align := vertical_align e;
     confidence_score := Some c;
     parent_shape_id := parent_shape_id e;
     detection_source := detection_source e;
     craft_detection_id := craft_detection_id e |}.

(** ** src/lib/detection-merger.ts *)

Module BoundingBox.
Record t := mk { x : number; y : number; width : number; height : number }.
End BoundingBox.

(** The object literal [{ x: e.position_x, y: e.position_y, width, height }]
    built at every call of [calculateIoU]. *)
Definition boxOf (e : DetectedTextElement) : BoundingBox.t :=
  BoundingBox.mk (position_x e) (position_y e) (width e) (height e).
Definition calculateIoU (box1 box2 : BoundingBox.t) : number :=
  let x1 := Qmax (BoundingBox.x box1) (BoundingBox.x box2) in
  let y1 := Qmax (BoundingBox.y box1) (BoundingBox.y box2) in
  let x2 := Qmin (BoundingBox.x box1 + BoundingBox.width box1)
                 (BoundingBox.x box2 + BoundingBox.width box2) in
  let y2 := Qmin (BoundingBox.y box1 + BoundingBox.height box1)
                 (BoundingBox.y box2 + BoundingBox.height box2) in
  if leb x2 x1 || leb y2 y1 then 0
  else
    let intersectionArea := (x2 - x1) * (y2 - y1) in
    let box1Area := BoundingBox.width box1 * BoundingBox.height box1 in
    let box2Area := BoundingBox.width box2 * BoundingBox.height box2 in
    let unionArea := box1Area + box2Area - intersectionArea in
    if eqb unionArea 0 then 0
    else intersectionArea / unionArea.

(** The two guards of [calculateIoU], named for the statements below. *)
Definition noOverlap (box1 box2 : BoundingBox.t) : Prop :=
  Qmin (BoundingBox.x box1 + BoundingBox.width box1)
       (BoundingBox.x box2 + BoundingBox.width box2)
    <= Qmax (BoundingBox.x box1) (BoundingBox.x box2)
  \/ Qmin (BoundingBox.y box1 + BoundingBox.height box1)
          (BoundingBox.y box2 + BoundingBox.height box2)
    <= Qmax (BoundingBox.y box1) (BoundingBox.y box2).
Definition unionArea (box1 box2 : BoundingBox.t) : number :=
  let x1 := Qmax (BoundingBox.x box1) (BoundingBox.x box2) in
  let y1 := Qmax (BoundingBox.y box1) (BoundingBox.y box2) in
  let x2 := Qmin (BoundingBox.x box1 + BoundingBox.width box1)
                 (BoundingBox.x box2 + BoundingBox.width box2) in
  let y2 := Qmin (BoundingBox.y box1 + BoundingBox.height box1)
                 (BoundingBox.y box2 + BoundingBox.height box2) in
  BoundingBox.width box1 * BoundingBox.height box1
  + BoundingBox.width box2 * BoundingBox.height box2
  - (x2 - x1) * (y2 - y1).

(** [calculateIoU] in binary64, the arithmetic the code runs in.
    [Math_max] and [Math_min] are [Math.max] and [Math.min]: NaN if an
    argument is NaN, and [-0] below [+0]. *)
Module Binary64.
Import PrimFloat.
#[local] Set Warnings "-inexact-float".
Local Open Scope float_scope.

Record Box := mk { x : float; y : float; width : float; height : float }.
Definition Math_max (a b : float) : float :=
  if (is_nan a || is_nan b)%bool then nan
  else if a <? b then b
  else if b <? a then a
  else if get_sign a then b else a.
Definition Math_min (a b : float) : float :=
  if (is_nan a || is_nan b)%bool then nan
  else if a <? b then a
  else if b <? a then b
  else if get_sign a then a else b.
Definition calculateIoU (box1 box2 : Box) : float :=
  let x1 := Math_max (x box1) (x box2) in
  let y1 := Math_max (y box1) (y box2) in
  let x2 := Math_min (x box1 + width box1) (x box2 + width box2) in
  let y2 := Math_min (y box1 + height box1) (y box2 + height box2) in
  if ((x2 <=? x1) || (y2 <=? y1))%bool then 0
  else
    let intersectionArea := (x2 - x1) * (y2 - y1) in
    let box1Area := width box1 * height box1 in
    let box2Area := width box2 * height box2 in
    let unionArea := box1Area + box2Area - intersectionArea in
    if unionArea =? 0 then 0
    else intersectionArea / unionArea.

(** The rectangle (0.1, 0.1, 0.2, 0.2), and a rectangle whose area is
    below half the smallest positive binary64 number. *)
Definition tenthBox : Box := mk 0.1 0.1 0.2 0.2.
Definition tinyBox : Box :=
  mk 0x1.3fc1ef17fd374p-53 0 0x1.c6a5377330bdbp-54 0x1.204b86b2515fdp-1022.

End Binary64.

#[global] Instance DetectedTextElement_inhabited : Inhabited DetectedTextElement :=
  populate (mkElement None None "" 0 0 0 0 None None None None None None
                      None None None None None None).
Record MergeResult := {
  mergedElements : list DetectedTextElement;
  claudeOnlyCount : Z;
  craftOnlyCount : Z;
  overlapCount : Z;
  mergedCount : Z
}.

(** [bestMatch: { index: number; iou: number } | null] *)
Record BestMatch := { index : nat; iou : number }.

(** The inner [for (let i = 0; i < craftElements.length; i++)] loop of
    [mergeDetections], resumed at index [i] on the elements from [i] on. *)
Fixpoint scanCraft (claudeElement : DetectedTextElement)
    (craftMatched : gset nat) (overlapThreshold : number)
    (i : nat) (rest : list DetectedTextElement)
    (bestMatch : option BestMatch) : option BestMatch :=
  match rest with
  | [] => bestMatch
  | craft_i :: rest' =>
      scanCraft claudeElement craftMatched overlapThreshold (S i) rest'
        (if decide (i ∈ craftMatched) then bestMatch
         else
           let v := calculateIoU (boxOf claudeElement) (boxOf craft_i) in
           if geb v overlapThreshold then
             match bestMatch with
             | None => Some {| index := i; iou := v |}
             | Some best =>
                 if gtb v (iou best) then Some {| index := i; iou := v |}
                 else bestMatch
             end
           else bestMatch)
  end.

(** The element pushed on a match: [{ ...claudeElement, position_x: avgX,
    position_y: avgY, width: avgWidth, height: avgHeight,
    confidence_score: Math.max(claude || 0, craft || 0) }]. *)
Definition fuse (claudeElement craftElement : DetectedTextElement)
  : DetectedTextElement :=
  let avgX := (position_x claudeElement + position_x craftElement) / 2 in
  let avgY := (position_y claudeElement + position_y craftElement) / 2 in
  let avgWidth := (width claudeElement + width craftElement) / 2 in
  let avgHeight := (height claudeElement + height craftElement) / 2 in
  withConfidence (withGeometry claudeElement avgX avgY avgWidth avgHeight)
    (Qmax (orZero (confidence_score claudeElement))
          (orZero (confidence_score craftElement))).

(** The mutable locals of [mergeDetections]. *)
Record MergeState := {
  st_merged : list DetectedTextElement;   (* mergedElements *)
  st_matched : gset nat;                  (* craftMatched   *)
  st_overlap : nat                        (* overlapCount   *)
}.

(** One iteration of [for (const claudeElement of claudeElements)].
    [craftElements !!! i] is [craftElements[i]]; the index of a best
    match is always in range (lemma [scanCraft_index]). *)
Definition mergeStep (craftElements : list DetectedTextElement)
    (overlapThreshold : number) (st : MergeState)
    (claudeElement : DetectedTextElement) : MergeState :=
  match scanCraft claudeElement (st_matched st) overlapThreshold
          0 craftElements None with
  | Some bestMatch =>
      let craftElement := craftElements !!! index bestMatch in
      {| st_merged := st_merged st ++ [fuse claudeElement craftElement];
         st_matched := {[ index bestMatch ]} ∪ st_matched st;
         st_overlap := S (st_overlap st) |}
  | None =>
      {| st_merged := st_merged st ++ [claudeElement];
         st_matched := st_matched st;
         st_overlap := st_overlap st |}
  end.
Definition mergeLoop (claudeElements craftElements : list DetectedTextElement)
    (overlapThreshold : number) (st : MergeState) : MergeState :=
  foldl (mergeStep craftElements overlapThreshold) st claudeElements.

(** The second loop: [for (i ...) if (!craftMatched.has(i)) push(craftElements[i])],
    resumed at index [i]. *)
Fixpoint unmatchedFrom (craftMatched : gset nat) (i : nat)
    (rest : list DetectedTextElement) : list DetectedTextElement :=
  match rest with
  | [] => []
  | craft_i :: rest' =>
      if decide (i ∈ craftMatched) then unmatchedFrom craftMatched (S i) rest'
      else craft_i :: unmatchedFrom craftMatched (S i) rest'
  end.
Definition initialMergeState : MergeState :=
  {| st_merged := []; st_matched := ∅; st_overlap := 0 |}.

(** State of [mergeDetections] when the loop over [claudeElements] ends. *)
Definition mergeMatched (claudeElements craftElements : list DetectedTextElement)
    (overlapThreshold : number) : MergeState :=
  mergeLoop claudeElements craftElements overlapThreshold initialMergeState.
Definition mergeDetections (claudeElements craftElements : list DetectedTextElement)
    (overlapThreshold : number) : MergeResult :=
  let st := mergeMatched claudeElements craftElements overlapThreshold in
  let overlapCount := Z.of_nat (st_overlap st) in
  let claudeOnlyCount := (Z.of_nat (length claudeElements) - overlapCount)%Z in
  let mergedElements :=
    st_merged st ++ unmatchedFrom (st_matched st) 0 craftElements in
  let craftOnlyCount := (Z.of_nat (length craftElements) - overlapCount)%Z in
  {| mergedElements := mergedElements;
     claudeOnlyCount := claudeOnlyCount;
     craftOnlyCount := craftOnlyCount;
     overlapCount := overlapCount;
     mergedCount := Z.of_nat (length mergedElements) |}.

(** [{ ...craftElement, content, font_family, font_size, font_color,
    is_bold, is_italic, is_underline, align }] taken from [claudeElement]. *)
Definition withContentOf (craftElement claudeElement : DetectedTextElement)
  : DetectedTextElement :=
  {| id := id craftElement; slide_id := slide_id craftElement;
     content := content claudeElement;
     position_x := position_x craftElement;
     position_y := position_y craftElement;
     width := width craftElement; height := height craftElement;
     font_family := font_family claudeElement;
     font_size := font_size claudeElement;
     font_color := font_color claudeElement;
     is_bold := is_bold claudeElement;
     is_italic := is_italic claudeElement;
     is_underline := is_underline claudeElement;
     align := align claudeElement;
     vertical_align := vertical_align craftElement;
     confidence_score := confidence_score craftElement;
     parent_shape_id := parent_shape_id craftElement;
     detection_source := detection_source craftElement;
     craft_detection_id := craft_detection_id craftElement |}.
Fixpoint enrichOne (craftElement : DetectedTextElement)
    (claudeElements : list DetectedTextElement) (overlapThreshold : number)
  : DetectedTextElement :=
  match claudeElements with
  | [] => craftElement
  | claudeElement :: rest =>
      if geb (calculateIoU (boxOf craftElement) (boxOf claudeElement))
             overlapThreshold
      then withContentOf craftElement claudeElement
      else enrichOne craftElement rest overlapThreshold
  end.
Definition enrichCraftElementsWithClaudeOCR
    (craftElements claudeElements : list DetectedTextElement)
    (overlapThreshold : number) : list DetectedTextElement :=
  map (fun craftElement => enrichOne craftElement claudeElements overlapThreshold)
      craftElements.

(** The inner [for (let j = i + 1; ...)] loop of [filterOverlappingDetections],
    resumed at index [j]; [element_i] is [elements[i]]. *)
Fixpoint filterInner (overlapThreshold : number) (i : nat)
    (element_i : DetectedTextElement) (j : nat)
    (rest : list DetectedTextElement) (toRemove : gset nat) : gset nat :=
  match rest with
  | [] => toRemove
  | element_j :: rest' =>
      filterInner overlapThreshold i element_i (S j) rest'
        (if decide (j ∈ toRemove) then toRemove
         else if geb (calculateIoU (boxOf element_i) (boxOf element_j))
                     overlapThreshold
         then
           let keepIndex :=
             if geb (orZero (confidence_score element_i))
                    (orZero (confidence_score element_j)) then i else j in
           let removeIndex := if Nat.eqb keepIndex i then j else i in
           {[ removeIndex ]} ∪ toRemove
         else toRemove)
  end.

(** The outer [for (let i = 0; ...)] loop, resumed at index [i]. *)
Fixpoint filterOuter (overlapThreshold : number) (i : nat)
    (rest : list DetectedTextElement) (toRemove : gset nat) : gset nat :=
  match rest with
  | [] => toRemove
  | element_i :: rest' =>
      filterOuter overlapThreshold (S i) rest'
        (if decide (i ∈ toRemove) then toRemove
         else filterInner overlapThreshold i element_i (S i) rest' toRemove)
  end.

(** The closing loop shared by both deduplicators:
    [for (i ...) if (!toRemove.has(i)) filtered.push(xs[i])]. *)
Fixpoint keepFrom {A : Type} (toRemove : gset nat) (i : nat) (rest : list A)
  : list A :=
  match rest with
  | [] => []
  | x :: rest' =>
      if decide (i ∈ toRemove) then keepFrom toRemove (S i) rest'
      else x :: keepFrom toRemove (S i) rest'
  end.

(** The final value of [toRemove] in [filterOverlappingDetections]. *)
Definition filterRemoved (elements : list DetectedTextElement)
    (overlapThreshold : number) : gset nat :=
  filterOuter overlapThreshold 0 elements ∅.
Definition filterOverlappingDetections (elements : list DetectedTextElement)
    (overlapThreshold : number) : list DetectedTextElement :=
  keepFrom (filterRemoved elements overlapThreshold) 0 elements.
Record DetectionStats := {
  ds_claudeCount : Z;
  ds_craftCount : Z;
  ds_mergedCount : Z;
  ds_overlapCount : Z;
  ds_claudeOnlyCount : Z;
  ds_craftOnlyCount : Z
}.

(** Inner loop of [calculateDetectionStats]: the first unmatched craft
    index with IoU at or above the threshold ([break] on the first hit). *)
Fixpoint firstOverlap (claudeElement : DetectedTextElement)
    (craftMatched : gset nat) (overlapThreshold : number)
    (i : nat) (rest : list DetectedTextElement) : option nat :=
  match rest with
  | [] => None
  | craft_i :: rest' =>
      if decide (i ∈ craftMatched)
      then firstOverlap claudeElement craftMatched overlapThreshold (S i) rest'
      else if geb (calculateIoU (boxOf claudeElement) (boxOf craft_i))
                  overlapThreshold
      then Some i
      else firstOverlap claudeElement craftMatched overlapThreshold (S i) rest'
  end.
Definition calculateDetectionStats
    (claudeElements craftElements mergedElements : list DetectedTextElement)
    (overlapThreshold : number) : DetectionStats :=
  let '(overlapCount, _) :=
    foldl (fun (acc : nat * gset nat) claudeElement =>
             let '(overlapCount, craftMatched) := acc in
             match firstOverlap claudeElement craftMatched overlapThreshold
                     0 craftElements with
             | Some i => (S overlapCount, {[ i ]} ∪ craftMatched)
             | None => acc
             end)
          (0%nat, ∅) claudeElements in
  {| ds_claudeCount := Z.of_nat (length claudeElements);
     ds_craftCount := Z.of_nat (length craftElements);
     ds_mergedCount := Z.of_nat (length mergedElements);
     ds_overlapCount := Z.of_nat overlapCount;
     ds_claudeOnlyCount :=
       (Z.of_nat (length claudeElements) - Z.of_nat overlapCount)%Z;
     ds_craftOnlyCount :=
       (Z.of_nat (length craftElements) - Z.of_nat overlapCount)%Z |}.

(** ** src/lib/coordinate-validator.ts *)

Module SlideDimensions.
Record t := mk { width : number; height : number }.
End SlideDimensions.
Definition STANDARD_SLIDE : SlideDimensions.t :=
  SlideDimensions.mk 10 5.625.

(** The messages of [validateInchCoordinates], by the test that pushes
    them (the rendered text only repeats the numbers). *)
Inductive InchWarning :=
  | XOutsideSlide (x : number)
  | YOutsideSlide (y : number)
  | WidthInvalid (w : number)
  | HeightInvalid (h : number)
  | BeyondRightEdge (x w : number)
  | BeyondBottomEdge (y h : number).
Record InchValidation := { isValid : bool; warnings : list InchWarning }.

(** [if (c) { warnings.push(w); isValid = false; }] *)
Definition flag (c : bool) (w : InchWarning) (v : InchValidation)
  : InchValidation :=
  if c then {| isValid := false; warnings := warnings v ++ [w] |} else v.
Definition validateInchCoordinates (x y width height : number)
  : InchValidation :=
  let sw := SlideDimensions.width STANDARD_SLIDE in
  let sh := SlideDimensions.height STANDARD_SLIDE in
  let v := {| isValid := true; warnings := [] |} in
  let v := flag (ltb x 0 || gtb x sw) (XOutsideSlide x) v in
  let v := flag (ltb y 0 || gtb y sh) (YOutsideSlide y) v in
  let v := flag (leb width 0 || gtb width sw) (WidthInvalid width) v in
  let v := flag (leb height 0 || gtb height sh) (HeightInvalid height) v in
  let v := flag (gtb (x + width) sw) (BeyondRightEdge x width) v in
  let v := flag (gtb (y + height) sh) (BeyondBottomEdge y height) v in
  v.
Definition clampToSlideBounds (x y width height : number) : BoundingBox.t :=
  let clampedX := Qmax 0 (Qmin x (SlideDimensions.width STANDARD_SLIDE)) in
  let clampedY := Qmax 0 (Qmin y (SlideDimensions.height STANDARD_SLIDE)) in
  let maxWidth := SlideDimensions.width STANDARD_SLIDE - clampedX in
  let maxHeight := SlideDimensions.height STANDARD_SLIDE - clampedY in
  let clampedWidth := Qmax 0.1 (Qmin width maxWidth) in
  let clampedHeight := Qmax 0.1 (Qmin height maxHeight) in
  BoundingBox.mk clampedX clampedY clampedWidth clampedHeight.

(** ** Coordinate conversion (coordinate-utils, claude-vision) *)
Definition pixelsToInches (pixels imageSize slideSize : number) : number :=
  if eqb imageSize 0 then 0
  else
    let ratio := pixels / imageSize in
    let inches := ratio * slideSize in
    inches.

(** [v || d] for a number, a string and a boolean read from parsed JSON:
    a missing field, [0] and the empty string are falsy. *)
Definition numOr (v : option number) (d : number) : number :=
  match v with
  | Some n => if eqb n 0 then d else n
  | None => d
  end.
Definition strOr (v : option string) (d : string) : string :=
  match v with
  | Some s => if String.eqb s "" then d else s
  | None => d
  end.
Definition boolOr (v : option bool) (d : bool) : bool :=
  match v with
  | Some true => true
  | _ => d
  end.

(** One entry of [parsed.textElements] in the detector's JSON answer. *)
Record RawText := {
  raw_content : option string;
  raw_x : option number;
  raw_y : option number;
  raw_width : option number;
  raw_height : option number;
  raw_fontFamily : option string;
  raw_fontSize : option number;
  raw_fontColor : option string;
  raw_isBold : option bool;
  raw_isItalic : option bool;
  raw_isUnderline : option bool;
  raw_confidence : option number
}.

(** The callback of [(parsed.textElements || []).map(...)] in
    [parseTextResponse]; the calls that only log are left out. *)
Definition parseTextElement (imageWidth imageHeight : number) (text : RawText)
  : DetectedTextElement :=
  let pixelX := Qmax 0 (Qmin (numOr (raw_x text) 0) imageWidth) in
  let pixelY := Qmax 0 (Qmin (numOr (raw_y text) 0) imageHeight) in
  let pixelWidth :=
    Qmax 10 (Qmin (numOr (raw_width text) 100) (imageWidth - pixelX)) in
  let pixelHeight :=
    Qmax 10 (Qmin (numOr (raw_height text) 20) (imageHeight - pixelY)) in
  let posX := pixelsToInches pixelX imageWidth 10 in
  let posY := pixelsToInches pixelY imageHeight 5.625 in
  let width := pixelsToInches pixelWidth imageWidth 10 in
  let height := pixelsToInches pixelHeight imageHeight 5.625 in
  let inchValidation := validateInchCoordinates posX posY width height in
  let clamped := clampToSlideBounds posX posY width height in
  let posX := if isValid inchValidation then posX else BoundingBox.x clamped in
  let posY := if isValid inchValidation then posY else BoundingBox.y clamped in
  let width :=
    if isValid inchValidation then width else BoundingBox.width clamped in
  let height :=
    if isValid inchValidation then height else BoundingBox.height clamped in
  let fontSize := Qmax 8 (Qmin 72 (numOr (raw_fontSize text) 14)) in
  {| id := None; slide_id := None;
     content := strOr (raw_content text) "";
     position_x := posX; position_y := posY;
     width := width; height := height;
     font_family := Some (strOr (raw_fontFamily text) "Arial");
     font_size := Some fontSize;
     font_color := Some (strOr (raw_fontColor text) "000000");
     is_bold := Some (boolOr (raw_isBold text) false);
     is_italic := Some (boolOr (raw_isItalic text) false);
     is_underline := Some (boolOr (raw_isUnderline text) false);
     align := Some AlignLeft; vertical_align := Some VTop;
     confidence_score := Some (numOr (raw_confidence text) 80);
     parent_shape_id := None; detection_source := None;
     craft_detection_id := None |}.

(** ** src/lib/layout-detector.ts *)
Inductive RegionType :=
  | text_box | shape | title | body | diagram | note | header | footer.
Inductive RegionShape :=
  | rectangle | rounded_rectangle | circle | ellipse | none.

Module LayoutRegion.
Record t := mk {
    type : RegionType;
    x : number;
    y : number;
    width : number;
    height : number;
    confidence : number;
    contains_text : bool;
    background_color : option string;
    border_color : option string;
    shape_type : option RegionShape
  }.
End LayoutRegion.
Definition calculateRegionIoU (region1 region2 : LayoutRegion.t) : number :=
  let x1 := Qmax (LayoutRegion.x region1) (LayoutRegion.x region2) in
  let y1 := Qmax (LayoutRegion.y region1) (LayoutRegion.y region2) in
  let x2 := Qmin (LayoutRegion.x region1 + LayoutRegion.width region1)
                 (LayoutRegion.x region2 + LayoutRegion.width region2) in
  let y2 := Qmin (LayoutRegion.y region1 + LayoutRegion.height region1)
                 (LayoutRegion.y region2 + LayoutRegion.height region2) in
  if leb x2 x1 || leb y2 y1 then 0
  else
    let intersectionArea := (x2 - x1) * (y2 - y1) in
    let region1Area := LayoutRegion.width region1 * LayoutRegion.height region1 in
    let region2Area := LayoutRegion.width region2 * LayoutRegion.height region2 in
    let unionArea := region1Area + region2Area - intersectionArea in
    if eqb unionArea 0 then 0
    else intersectionArea / unionArea.

(** Inner loop of [deduplicateRegions], resumed at index [j]. *)
Fixpoint dedupInner (i : nat) (region_i : LayoutRegion.t) (j : nat)
    (rest : list LayoutRegion.t) (toRemove : gset nat) : gset nat :=
  match rest with
  | [] => toRemove
  | region_j :: rest' =>
      dedupInner i region_i (S j) rest'
        (if decide (j ∈ toRemove) then toRemove
         else if gtb (calculateRegionIoU region_i region_j) 0.7 then
           let largerRegion :=
             if geb (LayoutRegion.width region_i * LayoutRegion.height region_i)
                    (LayoutRegion.width region_j * LayoutRegion.height region_j)
             then i else j in
           let smallerRegion := if Nat.eqb largerRegion i then j else i in
           {[ smallerRegion ]} ∪ toRemove
         else toRemove)
  end.
Fixpoint dedupOuter (i : nat) (rest : list LayoutRegion.t)
    (toRemove : gset nat) : gset nat :=
  match rest with
  | [] => toRemove
  | region_i :: rest' =>
      dedupOuter (S i) rest'
        (if decide (i ∈ toRemove) then toRemove
         else dedupInner i region_i (S i) rest' toRemove)
  end.
Definition dedupRemoved (regions : list LayoutRegion.t) : gset nat :=
  dedupOuter 0 regions ∅.
Definition deduplicateRegions (regions : list LayoutRegion.t)
  : list LayoutRegion.t :=
  match regions with
  | [] => []
  | _ => keepFrom (dedupRemoved regions) 0 regions
  end.

(** ** src/lib/layout-placement.ts *)
Definition SLIDE_WIDTH : number := 10.
Definition SLIDE_HEIGHT : number := 5.625.

(** The four locals [regionXInches] ... [regionHeightInches] that every
    function of the file computes from a region. *)
Definition regionXInches (region : LayoutRegion.t) : number :=
  (LayoutRegion.x region / 1920) * SLIDE_WIDTH.
Definition regionYInches (region : LayoutRegion.t) : number :=
  (LayoutRegion.y region / 1080) * SLIDE_HEIGHT.
Definition regionWidthInches (region : LayoutRegion.t) : number :=
  (LayoutRegion.width region / 1920) * SLIDE_WIDTH.
Definition regionHeightInches (region : LayoutRegion.t) : number :=
  (LayoutRegion.height region / 1080) * SLIDE_HEIGHT.

(** The test of the [if] inside the loop of [findContainingRegion]. *)
Definition centerInRegion (element : DetectedTextElement)
    (region : LayoutRegion.t) : bool :=
  let elementCenterX := position_x element + width element / 2 in
  let elementCenterY := position_y element + height element / 2 in
  let regionLeft := regionXInches region in
  let regionRight := regionXInches region + regionWidthInches region in
  let regionTop := regionYInches region in
  let regionBottom := regionYInches region + regionHeightInches region in
  geb elementCenterX regionLeft && leb elementCenterX regionRight
  && geb elementCenterY regionTop && leb elementCenterY regionBottom.
Fixpoint findContainingRegion (element : DetectedTextElement)
    (regions : list LayoutRegion.t) : option LayoutRegion.t :=
  match regions with
  | [] => None
  | region :: rest =>
      if centerInRegion element region then Some region
      else findContainingRegion element rest
  end.
Definition normalizeWithinRegion (element : DetectedTextElement)
    (region : LayoutRegion.t) : DetectedTextElement :=
  let clampedX :=
    Qmax (regionXInches region)
         (Qmin (position_x element)
               (regionXInches region + regionWidthInches region - width element)) in
  let clampedY :=
    Qmax (regionYInches region)
         (Qmin (position_y element)
               (regionYInches region + regionHeightInches region - height element)) in
  let clampedWidth :=
    Qmin (width element)
         (regionWidthInches region - (clampedX - regionXInches region)) in
  let clampedHeight :=
    Qmin (height element)
         (regionHeightInches region - (clampedY - regionYInches region)) in
  withGeometry element clampedX clampedY
    (Qmax 0.1 clampedWidth) (Qmax 0.1 clampedHeight).
Definition normalizeCoordinates (textElements : list DetectedTextElement)
    (regions : list LayoutRegion.t) : list DetectedTextElement :=
  map (fun element =>
         match findContainingRegion element regions with
         | Some containingRegion => normalizeWithinRegion element containingRegion
         | None => element
         end)
      textElements.

(** The messages of [validateLayoutPlacement]; [n] is the 1-based element
    number the message starts with. *)
Inductive PlacementWarning :=
  | XOutOfBounds (n : nat) (x : number)
  | YOutOfBounds (n : nat) (y : number)
  | WidthIsInvalid (n : nat) (w : number)
  | HeightIsInvalid (n : nat) (h : number)
  | ExtendsBeyondRight (n : nat)
  | ExtendsBeyondBottom (n : nat).
Definition warnIf (c : bool) (w : PlacementWarning) : list PlacementWarning :=
  if c then [w] else [].

(** The body of the loop of [validateLayoutPlacement] for [textElements[i]]. *)
Definition placementWarnings (i : nat) (element : DetectedTextElement)
  : list PlacementWarning :=
  warnIf (ltb (position_x element) 0 || gtb (position_x element) 10)
         (XOutOfBounds (i + 1) (position_x element))
  ++ warnIf (ltb (position_y element) 0 || gtb (position_y element) 5.625)
         (YOutOfBounds (i + 1) (position_y element))
  ++ warnIf (leb (width element) 0 || gtb (width element) 10)
         (WidthIsInvalid (i + 1) (width element))
  ++ warnIf (leb (height element) 0 || gtb (height element) 5.625)
         (HeightIsInvalid (i + 1) (height element))
  ++ warnIf (gtb (position_x element + width element) 10.1)
         (ExtendsBeyondRight (i + 1))
  ++ warnIf (gtb (position_y element + height element) 5.725)
         (ExtendsBeyondBottom (i + 1)).
Fixpoint placementWarningsFrom (i : nat) (rest : list DetectedTextElement)
  : list PlacementWarning :=
  match rest with
  | [] => []
  | element :: rest' =>
      placementWarnings i element ++ placementWarningsFrom (S i) rest'
  end.
Record PlacementValidation := {
  pv_isValid : bool;
  pv_warnings : list PlacementWarning
}.
Definition validateLayoutPlacement (textElements : list DetectedTextElement)
    (regions : list LayoutRegion.t) : PlacementValidation :=
  let warnings := placementWarningsFrom 0 textElements in
  {| pv_isValid := Nat.eqb (length warnings) 0; pv_warnings := warnings |}.
Definition setX (e : DetectedTextElement) (px : number) : DetectedTextElement :=
  withGeometry e px (position_y e) (width e) (height e).
Definition setY (e : DetectedTextElement) (py : number) : DetectedTextElement :=
  withGeometry e (position_x e) py (width e) (height e).

(** The callback of [textElements.map(...)] in [alignElementsWithinRegions]. *)
Definition alignElement (element : DetectedTextElement)
    (regions : list LayoutRegion.t) : DetectedTextElement :=
  match findContainingRegion element regions with
  | None => element
  | Some region =>
      let relativeX := position_x element - regionXInches region in
      let relativeY := position_y element - regionYInches region in
      let alignedElement := element in
      let alignedElement :=
        if ltb relativeX 0.05
        then setX alignedElement (regionXInches region + 0.05)
        else alignedElement in
      let alignedElement :=
        if ltb relativeY 0.05
        then setY alignedElement (regionYInches region + 0.05)
        else alignedElement in
      let rightEdgeDistance :=
        (regionXInches region + regionWidthInches region)
        - (position_x element + width element) in
      let alignedElement :=
        if ltb rightEdgeDistance 0.05 && gtb rightEdgeDistance 0
        then setX alignedElement
               (regionXInches region + regionWidthInches region
                - width element - 0.05)
        else alignedElement in
      let bottomEdgeDistance :=
        (regionYInches region + regionHeightInches region)
        - (position_y element + height element) in
      let alignedElement :=
        if ltb bottomEdgeDistance 0.05 && gtb bottomEdgeDistance 0
        then setY alignedElement
               (regionYInches region + regionHeightInches region
                - height element - 0.05)
        else alignedElement in
      alignedElement
  end.
Definition alignElementsWithinRegions (textElements : list DetectedTextElement)
    (regions : list LayoutRegion.t) : list DetectedTextElement :=
  map (fun element => alignElement element regions) textElements.

(** ** Detector adapters (craft-detector.ts, dbnet-detector.ts) *)

Module CraftBox.
Record t := mk {
    x : number; y : number; width : number; height : number;
    confidence : number; text : option string
  }.
End CraftBox.

Module CraftDetectionResult.
Record t := mk {
    boxes : list CraftBox.t;
    processingTimeMs : number;
    imageWidth : number;
    imageHeight : number;
    error : option string;
    message : option string
  }.
End CraftDetectionResult.

Module DBNetBox.
Record t := mk {
    x : number; y : number; width : number; height : number;
    confidence : number;
    polygon : option (list (list number));
    rotation_angle : option number
  }.
End DBNetBox.

Module DBNetPolygon.
Record t := mk { points : list (list number); confidence : number }.
End DBNetPolygon.

Module DBNetRotatedRect.
Record t := mk {
    center_x : number; center_y : number; width : number; height : number;
    angle : number; confidence : number
  }.
End DBNetRotatedRect.

Module DBNetDetectionResult.
Record t := mk {
    boxes : list DBNetBox.t;
    polygons : list DBNetPolygon.t;
    rotatedRects : list DBNetRotatedRect.t;
    processingTimeMs : number;
    imageWidth : number;
    imageHeight : number;
    error : option string;
    message : option string
  }.
End DBNetDetectionResult.

(** Truthiness of an optional string such as [result.error]. *)
Definition truthy (s : option string) : bool :=
  match s with
  | Some m => negb (String.eqb m "")
  | None => false
  end.

(** Tables are carried through the analysis result but never produced by
    the paths below; only their outline is kept. *)
Record DetectedTable := { row_count : nat; column_count : nat }.
Record AIAnalysisResult := {
  tables : list DetectedTable;
  textElements : list DetectedTextElement
}.
Record LayoutDetectionResult := {
  ld_regions : list LayoutRegion.t;
  ld_imageWidth : number;
  ld_imageHeight : number
}.

(** The collaborators the orchestrator awaits: network-bound detectors and
    OCR calls, and the box-grouping heuristics.  Each is a function of its
    arguments for the duration of one slide. *)
Class Services (Blob : Type) := {
  detectLayoutRegions : Blob -> number -> number -> LayoutDetectionResult;
  performRegionBasedOCR :
    Blob -> list LayoutRegion.t -> number -> number -> list DetectedTextElement;
  analyzeSlideImage : Blob -> number -> number -> AIAnalysisResult;
  detectTextWithCRAFT : Blob -> number -> number -> CraftDetectionResult.t;
  detectTextWithDBNet :
    Blob -> number -> number -> number -> number -> number ->
    DBNetDetectionResult.t;
  mergeCharacterBoxesToWords : list CraftBox.t -> list CraftBox.t;
  mergeBoxesToLines : list DBNetBox.t -> list DBNetBox.t;
  convertCraftBoxesToTextElements :
    list CraftBox.t -> number -> number -> list DetectedTextElement;
  convertDBNetBoxesToTextElements :
    list DBNetBox.t -> number -> number -> list DetectedTextElement;
  performOCROnCraftRegions :
    Blob -> list CraftBox.t -> number -> number -> list DetectedTextElement;
  performOCROnDBNetRegions :
    Blob -> list DBNetBox.t -> number -> number -> list DetectedTextElement
}.

(** [el.content && el.content.trim().length > 0], with the ASCII white
    space characters. *)
Definition isSpace (c : Ascii.ascii) : bool :=
  let n := Ascii.nat_of_ascii c in
  (Nat.leb 9 n && Nat.leb n 13)%bool || Nat.eqb n 32.
Fixpoint hasText (s : string) : bool :=
  match s with
  | EmptyString => false
  | String c rest => negb (isSpace c) || hasText rest
  end.
Definition ocrSuccesses (textElements : list DetectedTextElement) : nat :=
  length (filter (fun el => Is_true (hasText (content el))) textElements).
Record HybridDetectionResult := {
  analysis : AIAnalysisResult;
  regions : list LayoutRegion.t;
  detectionStats : DetectionStats
}.

Section Orchestrator.
Context {Blob : Type} {services : Services Blob}.

  (** *** claude-vision *)
Definition analyzeSlideImageWithLayoutDetection
      (imageBlob : Blob) (imageWidth imageHeight : number)
    : AIAnalysisResult * list LayoutRegion.t :=
    let layoutResult := detectLayoutRegions imageBlob imageWidth imageHeight in
    let textElements :=
      if Nat.ltb 0 (length (ld_regions layoutResult)) then
        let textElements :=
          performRegionBasedOCR imageBlob (ld_regions layoutResult)
                                imageWidth imageHeight in
        let textElements :=
          normalizeCoordinates textElements (ld_regions layoutResult) in
        let textElements :=
          alignElementsWithinRegions textElements (ld_regions layoutResult) in
        textElements
      else
        let fallbackResult := analyzeSlideImage imageBlob imageWidth imageHeight in
        textElements fallbackResult in
    ({| textElements := textElements; tables := [] |}, ld_regions layoutResult).

  (** *** craft-primary-detector, dbnet-primary-detector *)
Record PrimaryResult := {
    pr_analysis : AIAnalysisResult;
    pr_boxCount : Z;          (* craftBoxCount / dbnetBoxCount *)
    pr_ocrSuccessCount : Z
  }.
Definition performCraftPrimaryDetection
      (imageBlob : Blob) (imageWidth imageHeight : number) : PrimaryResult :=
    let craftResult := detectTextWithCRAFT imageBlob imageWidth imageHeight in
    if truthy (CraftDetectionResult.error craftResult)
       || Nat.eqb (length (CraftDetectionResult.boxes craftResult)) 0
    then
      {| pr_analysis := {| textElements := []; tables := [] |};
         pr_boxCount := 0; pr_ocrSuccessCount := 0 |}
    else
      let wordBoxes :=
        mergeCharacterBoxesToWords (CraftDetectionResult.boxes craftResult) in
      let textElements :=
        performOCROnCraftRegions imageBlob wordBoxes imageWidth imageHeight in
      let ocrSuccessCount := ocrSuccesses textElements in
      {| pr_analysis := {| textElements := textElements; tables := [] |};
         pr_boxCount := Z.of_nat (length wordBoxes);
         pr_ocrSuccessCount := Z.of_nat ocrSuccessCount |}.
Definition performDBNetPrimaryDetection
      (imageBlob : Blob) (imageWidth imageHeight : number)
      (detDbThresh detDbBoxThresh detDbUnclipRatio : number) : PrimaryResult :=
    let dbnetResult :=
      detectTextWithDBNet imageBlob imageWidth imageHeight
                          detDbThresh detDbBoxThresh detDbUnclipRatio in
    if truthy (DBNetDetectionResult.error dbnetResult)
       || Nat.eqb (length (DBNetDetectionResult.boxes dbnetResult)) 0
    then
      {| pr_analysis := {| textElements := []; tables := [] |};
         pr_boxCount := 0; pr_ocrSuccessCount := 0 |}
    else
      let lineBoxes := mergeBoxesToLines (DBNetDetectionResult.boxes dbnetResult) in
      let textElements :=
        performOCROnDBNetRegions imageBlob lineBoxes imageWidth imageHeight in
      let ocrSuccessCount := ocrSuccesses textElements in
      {| pr_analysis := {| textElements := textElements; tables := [] |};
         pr_boxCount := Z.of_nat (length lineBoxes);
         pr_ocrSuccessCount := Z.of_nat ocrSuccessCount |}.

  (** *** src/lib/hybrid-detector.ts

      The [timings] field of the result, read off the wall clock, is not
      modelled. *)

  (** The result both primary drivers build from [fallbackResult]. *)
Definition fallbackToClaude
      (fallbackResult : AIAnalysisResult * list LayoutRegion.t)
    : HybridDetectionResult :=
    let n := Z.of_nat (length (textElements (fst fallbackResult))) in
    {| analysis := fst fallbackResult;
       regions := snd fallbackResult;
       detectionStats :=
         {| ds_claudeCount := n; ds_craftCount := 0; ds_mergedCount := n;
            ds_overlapCount := 0; ds_claudeOnlyCount := n;
            ds_craftOnlyCount := 0 |} |}.

  (** The result both primary drivers build when the detector found boxes. *)
Definition primaryToHybrid (primaryResult : PrimaryResult)
    : HybridDetectionResult :=
    {| analysis := pr_analysis primaryResult;
       regions := [];
       detectionStats :=
         {| ds_claudeCount := 0;
            ds_craftCount := pr_boxCount primaryResult;
            ds_mergedCount :=
              Z.of_nat (length (textElements (pr_analysis primaryResult)));
            ds_overlapCount := pr_ocrSuccessCount primaryResult;
            ds_claudeOnlyCount := 0;
            ds_craftOnlyCount :=
              (pr_boxCount primaryResult - pr_ocrSuccessCount primaryResult)%Z
         |} |}.
Definition performCraftPrimaryHybridDetection
      (imageBlob : Blob) (imageWidth imageHeight : number)
    : HybridDetectionResult :=
    let craftPrimaryResult :=
      performCraftPrimaryDetection imageBlob imageWidth imageHeight in
    if Z.eqb (pr_boxCount craftPrimaryResult) 0 then
      let fallbackResult :=
        analyzeSlideImageWithLayoutDetection imageBlob imageWidth imageHeight in
      fallbackToClaude fallbackResult
    else primaryToHybrid craftPrimaryResult.
Definition performDBNetPrimaryHybridDetection
      (imageBlob : Blob) (imageWidth imageHeight : number)
    : HybridDetectionResult :=
    let dbnetPrimaryResult :=
      performDBNetPrimaryDetection imageBlob imageWidth imageHeight 0.3 0.5 1.8 in
    if Z.eqb (pr_boxCount dbnetPrimaryResult) 0 then
      let fallbackResult :=
        analyzeSlideImageWithLayoutDetection imageBlob imageWidth imageHeight in
      fallbackToClaude fallbackResult
    else primaryToHybrid dbnetPrimaryResult.

  (** Phase 3 of [performHybridDetection]: the geometry-only detector's
      elements, or [None] when [detectionSuccess] stays false. *)
Definition detectorElements (useDBNet : bool)
      (imageBlob : Blob) (imageWidth imageHeight : number)
    : option (list DetectedTextElement) :=
    if useDBNet then
      let dbnetResult :=
        detectTextWithDBNet imageBlob imageWidth imageHeight 0.3 0.5 1.8 in
      if Nat.ltb 0 (length (DBNetDetectionResult.boxes dbnetResult))
         && negb (truthy (DBNetDetectionResult.error dbnetResult))
      then
        let lineBoxes :=
          mergeBoxesToLines (DBNetDetectionResult.boxes dbnetResult) in
        Some (convertDBNetBoxesToTextElements lineBoxes imageWidth imageHeight)
      else None
    else
      let craftResult := detectTextWithCRAFT imageBlob imageWidth imageHeight in
      if Nat.ltb 0 (length (CraftDetectionResult.boxes craftResult))
         && negb (truthy (CraftDetectionResult.error craftResult))
      then
        let wordBoxes :=
          mergeCharacterBoxesToWords (CraftDetectionResult.boxes craftResult) in
        Some (convertCraftBoxesToTextElements wordBoxes imageWidth imageHeight)
      else None.
Definition performHybridDetection
      (imageBlob : Blob) (imageWidth imageHeight : number)
      (useHybrid useCraftPrimary useDBNet : bool) : HybridDetectionResult :=
    if useCraftPrimary && useHybrid && negb useDBNet then
      performCraftPrimaryHybridDetection imageBlob imageWidth imageHeight
    else if useDBNet && useHybrid && useCraftPrimary then
      performDBNetPrimaryHybridDetection imageBlob imageWidth imageHeight
    else
      let layoutResult := detectLayoutRegions imageBlob imageWidth imageHeight in
      let claudeElements :=
        if Nat.ltb 0 (length (ld_regions layoutResult)) then
          alignElementsWithinRegions
            (normalizeCoordinates
               (performRegionBasedOCR imageBlob (ld_regions layoutResult)
                                      imageWidth imageHeight)
               (ld_regions layoutResult))
            (ld_regions layoutResult)
        else [] in
      let claudeOnly :=
        {| analysis := {| textElements := claudeElements; tables := [] |};
           regions := ld_regions layoutResult;
           detectionStats :=
             {| ds_claudeCount := Z.of_nat (length claudeElements);
                ds_craftCount := 0;
                ds_mergedCount := Z.of_nat (length claudeElements);
                ds_overlapCount := 0;
                ds_claudeOnlyCount := Z.of_nat (length claudeElements);
                ds_craftOnlyCount := 0 |} |} in
      if useHybrid then
        match detectorElements useDBNet imageBlob imageWidth imageHeight with
        | Some detectorElements =>
            let detectorElements :=
              enrichCraftElementsWithClaudeOCR detectorElements claudeElements 0.3 in
            let mergeResult := mergeDetections claudeElements detectorElements 0.5 in
            let finalElements :=
              filterOverlappingDetections (mergedElements mergeResult) 0.8 in
            {| analysis := {| textElements := finalElements; tables := [] |};
               regions := ld_regions layoutResult;
               detectionStats :=
                 calculateDetectionStats claudeElements detectorElements
                                         finalElements 0.5 |}
        | None => claudeOnly
        end
      else claudeOnly.

End Orchestrator.

(** ** Predicates used in the statements *)

(** The element lies on the canvas, up to [tolerance] at the far edges. *)
Definition withinCanvas (tolerance : number) (e : DetectedTextElement) : Prop :=
  0 <= position_x e /\ position_x e + width e <= SLIDE_WIDTH + tolerance
  /\ 0 <= position_y e /\ position_y e + height e <= SLIDE_HEIGHT + tolerance.

(** The element raises no warning in [validateLayoutPlacement]. *)
Definition placementOk (e : DetectedTextElement) : Prop :=
  (0 <= position_x e <= 10) /\ (0 <= position_y e <= 5.625)
  /\ (0 < width e <= 10) /\ (0 < height e <= 5.625)
  /\ position_x e + width e <= 10.1
  /\ position_y e + height e <= 5.725.

(** Scenario 4 of the specification: the pixel rectangle (1920, 0, 10, 10)
    reported on a 1920 x 1080 image. *)
Definition scenario4 : RawText :=
  {| raw_content := Some "edge"; raw_x := Some 1920; raw_y := Some 0;
     raw_width := Some 10; raw_height := Some 10;
     raw_fontFamily := None; raw_fontSize := None; raw_fontColor := None;
     raw_isBold := None; raw_isItalic := None; raw_isUnderline := None;
     raw_confidence := None |}.

(** The center point of the element lies in the region's canvas-space
    rectangle, edges included. *)
Definition centerInside (e : DetectedTextElement) (r : LayoutRegion.t) : Prop :=
  (regionXInches r <= position_x e + width e / 2
     <= regionXInches r + regionWidthInches r)
  /\ (regionYInches r <= position_y e + height e / 2
       <= regionYInches r + regionHeightInches r).

(** The element's rectangle lies inside the region's canvas-space rectangle. *)
Definition insideRegion (e : DetectedTextElement) (r : LayoutRegion.t) : Prop :=
  regionXInches r <= position_x e
  /\ position_x e + width e <= regionXInches r + regionWidthInches r
  /\ regionYInches r <= position_y e
  /\ position_y e + height e <= regionYInches r + regionHeightInches r.
Definition plainElement (text : string) (px py w h : number)
    (confidence : option number) : DetectedTextElement :=
  mkElement None None text px py w h None None None None None None
            None None confidence None None None.
Definition plainRegion (px py w h : number) : LayoutRegion.t :=
  LayoutRegion.mk text_box px py w h 90 true None None None.

(** [best] is the choice the scan of [mergeDetections] must have made after
    looking at the craft indices below [upto]: nothing, if no unmatched
    candidate reaches the threshold; otherwise an unmatched candidate of
    highest IoU among those reaching it, the first one of them. *)
Definition bestSoFar (a : DetectedTextElement)
    (craftElements : list DetectedTextElement) (craftMatched : gset nat)
    (overlapThreshold : number) (upto : nat) (best : option BestMatch) : Prop :=
  match best with
  | None =>
      forall j b, (j < upto)%nat -> craftElements !! j = Some b ->
                  j ∉ craftMatched ->
                  calculateIoU (boxOf a) (boxOf b) < overlapThreshold
  | Some bm =>
      (index bm < upto)%nat /\ (index bm ∉ craftMatched)
      /\ (exists b, craftElements !! index bm = Some b
                    /\ iou bm = calculateIoU (boxOf a) (boxOf b))
      /\ overlapThreshold <= iou bm
      /\ forall j b', (j < upto)%nat -> craftElements !! j = Some b' ->
                      j ∉ craftMatched ->
                      overlapThreshold <= calculateIoU (boxOf a) (boxOf b') ->
                      calculateIoU (boxOf a) (boxOf b') <= iou bm
                      /\ ((j < index bm)%nat ->
                          calculateIoU (boxOf a) (boxOf b') < iou bm)
  end.

(** What the loop over [claudeElements] maintains: one output element per
    element processed, at most one match per element processed, as many
    matched indices as matches, and every match takes one more craft
    element out of the unmatched ones. *)
Definition mergeInv (craft : list DetectedTextElement) (n : nat)
    (st : MergeState) : Prop :=
  length (st_merged st) = n /\ (st_overlap st <= n)%nat
  /\ size (st_matched st) = st_overlap st
  /\ (length (unmatchedFrom (st_matched st) 0 craft) + st_overlap st
      = length craft)%nat.

(** Why index [r] was marked by [filterOverlappingDetections]: a pair
    [i < j] was compared, its IoU reached the threshold, and [r] is the
    one of lower confidence, the later one on a tie. *)
Definition removalJustified (elements : list DetectedTextElement)
    (t : number) (r : nat) : Prop :=
  exists i j ei ej,
    (i < j)%nat /\ elements !! i = Some ei /\ elements !! j = Some ej
    /\ t <= calculateIoU (boxOf ei) (boxOf ej)
    /\ ((r = j /\ orZero (confidence_score ej) <= orZero (confidence_score ei))
        \/ (r = i
            /\ orZero (confidence_score ei) < orZero (confidence_score ej))).
Definition regionArea (r : LayoutRegion.t) : number :=
  LayoutRegion.width r * LayoutRegion.height r.

(** Why index [r] was marked by [deduplicateRegions]: a pair [i < j] was
    compared, its IoU exceeded 0.7, and [r] is the one of smaller area,
    the later one on a tie. *)
Definition regionRemovalJustified (regions : list LayoutRegion.t)
    (r : nat) : Prop :=
  exists i j ri rj,
    (i < j)%nat /\ regions !! i = Some ri /\ regions !! j = Some rj
    /\ 0.7 < calculateRegionIoU ri rj
    /\ ((r = j /\ regionArea rj <= regionArea ri)
        \/ (r = i /\ regionArea ri < regionArea rj)).

(** Scenario 3 of the specification. *)
Definition scenario3_first : DetectedTextElement :=
  plainElement "first" 0 0 100 100 (Some 80).
Definition scenario3_second : DetectedTextElement :=
  plainElement "second" 5 5 95 95 (Some 90).

(** Scenario 5 of the specification: both geometry-only detectors time out
    (no boxes, an error string), the layout detector finds the whole slide
    as one region and the region OCR reads one element in it. *)
Definition scenario5 : Services unit :=
  {| detectLayoutRegions := fun _ w h =>
       {| ld_regions := [plainRegion 0 0 1920 1080];
          ld_imageWidth := w; ld_imageHeight := h |};
     performRegionBasedOCR := fun _ _ _ _ =>
       [plainElement "Hello" 1 1 2 0.5 (Some 90)];
     analyzeSlideImage := fun _ _ _ => {| tables := []; textElements := [] |};
     detectTextWithCRAFT := fun _ w h =>
       CraftDetectionResult.mk [] 0 w h (Some "CRAFT service timeout") None;
     detectTextWithDBNet := fun _ w h _ _ _ =>
       DBNetDetectionResult.mk [] [] [] 0 w h (Some "DBNet service timeout")
                               None;
     mergeCharacterBoxesToWords := fun boxes => boxes;
     mergeBoxesToLines := fun boxes => boxes;
     convertCraftBoxesToTextElements := fun _ _ _ => [];
     convertDBNetBoxesToTextElements := fun _ _ _ => [];
     performOCROnCraftRegions := fun _ _ _ _ => [];
     performOCROnDBNetRegions := fun _ _ _ _ => [] |}.

(** ** Proof automation *)

(** Replace every [Qmax]/[Qmin], innermost first, by a fresh variable that
    is known only through its specification; [lra] finishes. *)
Ltac no_minmax t :=
  lazymatch t with
  | context [Qmax _ _] => fail
  | context [Qmin _ _] => fail
  | _ => idtac
  end.

Ltac abstract_minmax :=
  repeat match goal with
  | |- context [Qmax ?a ?b] =>
      no_minmax a; no_minmax b;
      let H := fresh "Hmax" in let m := fresh "m" in
      pose proof (Q.max_spec a b) as H; set (m := Qmax a b) in *; clearbody m
  | |- context [Qmin ?a ?b] =>
      no_minmax a; no_minmax b;
      let H := fresh "Hmin" in let m := fresh "m" in
      pose proof (Q.min_spec a b) as H; set (m := Qmin a b) in *; clearbody m
  end.

Ltac minmax_lra := abstract_minmax; lra.

(** Unfold the slide constants and the projections of a clamped box. *)
Ltac slide_consts :=
  cbn [BoundingBox.x BoundingBox.y BoundingBox.width BoundingBox.height
       SlideDimensions.width SlideDimensions.height STANDARD_SLIDE] in *.


(** * Further functions of the same files *)

(** ** coordinate-utils *)

Definition inchesToPixels (inches slideSize imageSize : number) : number :=
  if eqb slideSize 0 then 0
  else
    let ratio := inches / slideSize in
    let pixels := ratio * imageSize in
    pixels.

(** [clampCoordinates(x, y, width, height, maxWidth = 10, maxHeight = 5.625)] *)
Definition clampCoordinates (x y width height maxWidth maxHeight : number)
  : BoundingBox.t :=
  let clampedX := Qmax 0 (Qmin x maxWidth) in
  let clampedY := Qmax 0 (Qmin y maxHeight) in
  let clampedWidth := Qmax 0.1 (Qmin width (maxWidth - clampedX)) in
  let clampedHeight := Qmax 0.1 (Qmin height (maxHeight - clampedY)) in
  BoundingBox.mk clampedX clampedY clampedWidth clampedHeight.

(** ** src/lib/coordinate-validator.ts, [validatePixelCoordinates] *)

Module ImageDimensions.
Record t := mk { width : number; height : number }.
End ImageDimensions.

(** The messages of [validatePixelCoordinates], by the test that pushes
    them. *)
Inductive PixelWarning :=
  | XOutsideImage (x : number)
  | YOutsideImage (y : number)
  | PixelWidthInvalid (w : number)
  | PixelHeightInvalid (h : number)
  | BeyondImageRight (x w : number)
  | BeyondImageBottom (y h : number)
  | VerySmall (w h : number)
  | VeryLarge (w h : number).

Module CoordinateValidation.
Record t := mk {
  isValid : bool;
  warnings : list PixelWarning;
  pixelCoords : BoundingBox.t;
  inchCoords : BoundingBox.t
}.
End CoordinateValidation.

(** The tests that set [isValid = false]. *)
Definition pixelErrors (x y width height : number) (imageDims : ImageDimensions.t)
  : list PixelWarning :=
  (if ltb x 0 || gtb x (ImageDimensions.width imageDims)
   then [XOutsideImage x] else [])
  ++ (if ltb y 0 || gtb y (ImageDimensions.height imageDims)
      then [YOutsideImage y] else [])
  ++ (if leb width 0 || gtb width (ImageDimensions.width imageDims)
      then [PixelWidthInvalid width] else [])
  ++ (if leb height 0 || gtb height (ImageDimensions.height imageDims)
      then [PixelHeightInvalid height] else [])
  ++ (if gtb (x + width) (ImageDimensions.width imageDims)
      then [BeyondImageRight x width] else [])
  ++ (if gtb (y + height) (ImageDimensions.height imageDims)
      then [BeyondImageBottom y height] else []).

(** The two size heuristics, which warn without invalidating. *)
Definition pixelHints (width height : number) (imageDims : ImageDimensions.t)
  : list PixelWarning :=
  let minSize := 5 in
  let maxSizeRatio := 0.9 in
  (if ltb width minSize || ltb height minSize
   then [VerySmall width height] else [])
  ++ (if gtb width (ImageDimensions.width imageDims * maxSizeRatio)
         || gtb height (ImageDimensions.height imageDims * maxSizeRatio)
      then [VeryLarge width height] else []).

(** The inch coordinates are computed by an unguarded division: with an
    image dimension of 0 the code yields NaN or an infinity, which the
    model does not have. *)
Definition validatePixelCoordinates (x y width height : number)
    (imageDims : ImageDimensions.t) : CoordinateValidation.t :=
  let errors := pixelErrors x y width height imageDims in
  let inchX :=
    (x / ImageDimensions.width imageDims)
    * SlideDimensions.width STANDARD_SLIDE in
  let inchY :=
    (y / ImageDimensions.height imageDims)
    * SlideDimensions.height STANDARD_SLIDE in
  let inchWidth :=
    (width / ImageDimensions.width imageDims)
    * SlideDimensions.width STANDARD_SLIDE in
  let inchHeight :=
    (height / ImageDimensions.height imageDims)
    * SlideDimensions.height STANDARD_SLIDE in
  CoordinateValidation.mk
    (Nat.eqb (length errors) 0)
    (errors ++ pixelHints width height imageDims)
    (BoundingBox.mk x y width height)
    (BoundingBox.mk inchX inchY inchWidth inchHeight).

(** ** src/lib/region-ocr.ts *)

(** The callback of [(parsed.textElements || []).map(...)] in
    [parseRegionOCRResponse]. *)
Definition parseRegionTextElement (region : LayoutRegion.t)
    (imageWidth imageHeight : number) (text : RawText) : DetectedTextElement :=
  let pixelX :=
    Qmax (LayoutRegion.x region)
         (Qmin (numOr (raw_x text) (LayoutRegion.x region))
               (LayoutRegion.x region + LayoutRegion.width region)) in
  let pixelY :=
    Qmax (LayoutRegion.y region)
         (Qmin (numOr (raw_y text) (LayoutRegion.y region))
               (LayoutRegion.y region + LayoutRegion.height region)) in
  let pixelWidth :=
    Qmax 10 (Qmin (numOr (raw_width text) 100)
                  ((LayoutRegion.x region + LayoutRegion.width region) - pixelX)) in
  let pixelHeight :=
    Qmax 10 (Qmin (numOr (raw_height text) 20)
                  ((LayoutRegion.y region + LayoutRegion.height region) - pixelY)) in
  let posX := pixelsToInches pixelX imageWidth 10 in
  let posY := pixelsToInches pixelY imageHeight 5.625 in
  let width := pixelsToInches pixelWidth imageWidth 10 in
  let height := pixelsToInches pixelHeight imageHeight 5.625 in
  let fontSize := Qmax 8 (Qmin 72 (numOr (raw_fontSize text) 14)) in
  {| id := None; slide_id := None;
     content := strOr (raw_content text) "";
     position_x := posX; position_y := posY;
     width := width; height := height;
     font_family := Some (strOr (raw_fontFamily text) "Arial");
     font_size := Some fontSize;
     font_color := Some (strOr (raw_fontColor text) "000000");
     is_bold := Some (boolOr (raw_isBold text) false);
     is_italic := Some (boolOr (raw_isItalic text) false);
     is_underline := Some (boolOr (raw_isUnderline text) false);
     align := Some AlignLeft; vertical_align := Some VTop;
     confidence_score := Some (numOr (raw_confidence text) 80);
     parent_shape_id := None; detection_source := None;
     craft_detection_id := None |}.

(** ** craft-primary-detector, dbnet-primary-detector: box conversion *)



(** ** src/lib/layout-placement.ts: placement quality *)

Inductive PlacementQuality := excellent | good | fair | poor.

Record LayoutAwarePlacement := {
  lap_element : DetectedTextElement;
  lap_region : LayoutRegion.t;
  placementQuality : PlacementQuality
}.

Definition assessPlacementQuality (element : DetectedTextElement)
    (region : LayoutRegion.t) : PlacementQuality :=
  let withinRegionX :=
    geb (position_x element) (regionXInches region)
    && leb (position_x element + width element)
           (regionXInches region + regionWidthInches region) in
  let withinRegionY :=
    geb (position_y element) (regionYInches region)
    && leb (position_y element + height element)
           (regionYInches region + regionHeightInches region) in
  let hasGoodMargins :=
    gtb (position_x element) (regionXInches region + 0.05)
    && gtb (position_y element) (regionYInches region + 0.05)
    && ltb (position_x element + width element)
           (regionXInches region + regionWidthInches region - 0.05)
    && ltb (position_y element + height element)
           (regionYInches region + regionHeightInches region - 0.05) in
  if withinRegionX && withinRegionY && hasGoodMargins
     && gtb (LayoutRegion.confidence region) 90
  then excellent
  else if withinRegionX && withinRegionY
          && gtb (LayoutRegion.confidence region) 75
  then good
  else if withinRegionX || withinRegionY then fair
  else poor.

(** The placeholder region of an element that no region contains. *)
Definition wholeSlideRegion : LayoutRegion.t :=
  LayoutRegion.mk text_box 0 0 1920 1080 0 true None None (Some none).

Definition computePlacementQuality (textElements : list DetectedTextElement)
    (regions : list LayoutRegion.t) : list LayoutAwarePlacement :=
  map (fun element =>
         match findContainingRegion element regions with
         | None =>
             {| lap_element := element; lap_region := wholeSlideRegion;
                placementQuality := poor |}
         | Some region =>
             {| lap_element := element; lap_region := region;
                placementQuality := assessPlacementQuality element region |}
         end)
      textElements.

(** ** craft-detector: grouping character boxes into words *)

Module CraftDetector.

(** The test [verticalOverlap > avgHeight * 0.5 && horizontalGap < avgHeight * 0.5]. *)
Definition joinsWord (currentWord box : CraftBox.t) : bool :=
  let verticalOverlap :=
    Qmin (CraftBox.y currentWord + CraftBox.height currentWord)
         (CraftBox.y box + CraftBox.height box)
    - Qmax (CraftBox.y currentWord) (CraftBox.y box) in
  let avgHeight := (CraftBox.height currentWord + CraftBox.height box) / 2 in
  let horizontalGap :=
    CraftBox.x box - (CraftBox.x currentWord + CraftBox.width currentWord) in
  gtb verticalOverlap (avgHeight * 0.5) && ltb horizontalGap (avgHeight * 0.5).

(** The in-place update of [currentWord] when [box] joins it. *)
Definition extendWord (currentWord box : CraftBox.t) : CraftBox.t :=
  let newRight :=
    Qmax (CraftBox.x currentWord + CraftBox.width currentWord)
         (CraftBox.x box + CraftBox.width box) in
  let newBottom :=
    Qmax (CraftBox.y currentWord + CraftBox.height currentWord)
         (CraftBox.y box + CraftBox.height box) in
  let x := Qmin (CraftBox.x currentWord) (CraftBox.x box) in
  let y := Qmin (CraftBox.y currentWord) (CraftBox.y box) in
  CraftBox.mk x y (newRight - x) (newBottom - y)
              (Qmax (CraftBox.confidence currentWord) (CraftBox.confidence box))
              (CraftBox.text currentWord).

(** One iteration of [for (const box of sortedBoxes)] on the pair
    [(words, currentWord)]. *)
Definition wordStep (st : list CraftBox.t * option CraftBox.t)
    (box : CraftBox.t) : list CraftBox.t * option CraftBox.t :=
  match snd st with
  | None => (fst st, Some box)
  | Some currentWord =>
      if joinsWord currentWord box
      then (fst st, Some (extendWord currentWord box))
      else (fst st ++ [currentWord], Some box)
  end.

(** The loop and the closing [if (currentWord) words.push(currentWord)]. *)
Definition groupSortedBoxes (sortedBoxes : list CraftBox.t) : list CraftBox.t :=
  let st := foldl wordStep ([], None) sortedBoxes in
  match snd st with
  | Some currentWord => fst st ++ [currentWord]
  | None => fst st
  end.

(** [mergeCharacterBoxesToWords] of craft-detector.  The order in which
    [[...boxes].sort(...)] leaves the boxes is passed in as [sortBoxes]:
    the comparator of the code (rows 10 pixels apart, then x) is not a
    consistent order, so the result of the sort is some rearrangement of
    the boxes that depends on the engine. *)
Definition mergeCharacterBoxesToWords
    (sortBoxes : list CraftBox.t -> list CraftBox.t)
    (boxes : list CraftBox.t) : list CraftBox.t :=
  if Nat.eqb (length boxes) 0 then []
  else groupSortedBoxes (sortBoxes boxes).

End CraftDetector.

(** ** src/lib/hybrid-detector.ts, continued *)

Section ClaudeOnly.
Context {Blob : Type} {services : Services Blob}.

Definition performClaudeOnlyDetection
    (imageBlob : Blob) (imageWidth imageHeight : number)
  : HybridDetectionResult :=
  performHybridDetection imageBlob imageWidth imageHeight false false false.

End ClaudeOnly.

(** ** Predicates used in the further statements *)



(** The two rectangles are the same up to the representation of their
    rational coordinates. *)
Definition sameBox (r1 r2 : BoundingBox.t) : Prop :=
  BoundingBox.x r1 == BoundingBox.x r2 /\ BoundingBox.y r1 == BoundingBox.y r2
  /\ BoundingBox.width r1 == BoundingBox.width r2
  /\ BoundingBox.height r1 == BoundingBox.height r2.

(** Everything of an element but its position and size. *)
Definition sameContent (e1 e2 : DetectedTextElement) : Prop :=
  withGeometry e1 0 0 0 0 = withGeometry e2 0 0 0 0.

(** The bounds [validateInchCoordinates] checks. *)
Definition inchBounds (x y w h : number) : Prop :=
  (0 <= x <= 10) /\ (0 <= y <= 5.625) /\ (0 < w <= 10) /\ (0 < h <= 5.625)
  /\ x + w <= 10 /\ y + h <= 5.625.

(** No A element and B element overlap by [t] or more. *)
Definition noPairReaches (claudeElements craftElements : list DetectedTextElement)
    (t : number) : Prop :=
  forall a b, a ∈ claudeElements -> b ∈ craftElements ->
              calculateIoU (boxOf a) (boxOf b) < t.

(** The region of a layout region as a bounding box. *)
Definition regionBox (r : LayoutRegion.t) : BoundingBox.t :=
  BoundingBox.mk (LayoutRegion.x r) (LayoutRegion.y r)
                 (LayoutRegion.width r) (LayoutRegion.height r).

(** Two elements have the same rectangle and the same confidence. *)
Definition sameGeometry (c c' : DetectedTextElement) : Prop :=
  boxOf c = boxOf c' /\ confidence_score c = confidence_score c'.

(** The loop of [calculateDetectionStats], as it is folded there, from an
    arbitrary state [(overlapCount, craftMatched)]. *)
Definition statsLoop (craftElements : list DetectedTextElement)
    (overlapThreshold : number) (acc : nat * gset nat)
    (claudeElements : list DetectedTextElement) : nat * gset nat :=
  foldl (fun (acc : nat * gset nat) claudeElement =>
           let '(overlapCount, craftMatched) := acc in
           match firstOverlap claudeElement craftMatched overlapThreshold
                   0 craftElements with
           | Some i => (S overlapCount, {[ i ]} ∪ craftMatched)
           | None => acc
           end)
        acc claudeElements.

(** The geometry-only detector finds one box where the region OCR reads
    one element: the layout detector returns the whole slide as one region,
    the region OCR reads one element in it, and CRAFT returns one box that
    the adapter places on nearly the same rectangle. *)
Definition dualSourceScenario : Services unit :=
  {| detectLayoutRegions := fun _ w h =>
       {| ld_regions := [plainRegion 0 0 1920 1080];
          ld_imageWidth := w; ld_imageHeight := h |};
     performRegionBasedOCR := fun _ _ _ _ =>
       [plainElement "Hello" 1 1 2 0.5 (Some 90)];
     analyzeSlideImage := fun _ _ _ => {| tables := []; textElements := [] |};
     detectTextWithCRAFT := fun _ w h =>
       CraftDetectionResult.mk [CraftBox.mk 192 192 384 96 0.95 None]
                               0 w h None None;
     detectTextWithDBNet := fun _ w h _ _ _ =>
       DBNetDetectionResult.mk [] [] [] 0 w h (Some "DBNet service timeout")
                               None;
     mergeCharacterBoxesToWords := fun boxes => boxes;
     mergeBoxesToLines := fun boxes => boxes;
     convertCraftBoxesToTextElements := fun boxes _ _ =>
       map (fun _ => plainElement "[Text 1]" 1 1 2 0.5 (Some 95)) boxes;
     convertDBNetBoxesToTextElements := fun _ _ _ => [];
     performOCROnCraftRegions := fun _ boxes _ _ =>
       map (fun _ => plainElement "Hello" 1 1 2 0.5 (Some 95)) boxes;
     performOCROnDBNetRegions := fun _ _ _ _ => [] |}.
(** * Properties *)

(** ** Comparisons *)

Lemma leb_spec (a b : number) : leb a b = true <-> a <= b.
Proof. apply Qle_bool_iff. Qed.

Lemma leb_false (a b : number) : leb a b = false <-> b < a.
Proof.
  unfold leb. rewrite <- not_true_iff_false, Qle_bool_iff.
  split; [apply Qnot_le_lt | apply Qlt_not_le].
Qed.

Lemma geb_spec (a b : number) : geb a b = true <-> b <= a.
Proof. apply Qle_bool_iff. Qed.

Lemma geb_false (a b : number) : geb a b = false <-> a < b.
Proof. apply leb_false. Qed.

Lemma gtb_spec (a b : number) : gtb a b = true <-> b < a.
Proof. unfold gtb. rewrite negb_true_iff. apply leb_false. Qed.

Lemma gtb_false (a b : number) : gtb a b = false <-> a <= b.
Proof. unfold gtb. rewrite negb_false_iff. apply Qle_bool_iff. Qed.

Lemma ltb_spec (a b : number) : ltb a b = true <-> a < b.
Proof. apply gtb_spec. Qed.

Lemma ltb_false (a b : number) : ltb a b = false <-> b <= a.
Proof. apply gtb_false. Qed.

Lemma eqb_spec (a b : number) : eqb a b = true <-> a == b.
Proof. apply Qeq_bool_iff. Qed.

(** ** Intersection over union *)

(** Scenario 1 of the specification: the two detections overlap by 0.9025. *)
Example iou_scenario1 :
  calculateIoU (BoundingBox.mk 100 100 200 40) (BoundingBox.mk 105 102 190 38)
  == 0.9025.
Proof. vm_compute. reflexivity. Qed.

(** When both overlap tests of [calculateIoU] fail, the intersection is a
    non-empty rectangle inside each box: both boxes have positive extents. *)
Lemma overlap_extents (ax aw bx bw : number) :
  Qmax ax bx < Qmin (ax + aw) (bx + bw) ->
  0 < aw /\ 0 < bw
  /\ 0 < Qmin (ax + aw) (bx + bw) - Qmax ax bx
  /\ Qmin (ax + aw) (bx + bw) - Qmax ax bx <= aw
  /\ Qmin (ax + aw) (bx + bw) - Qmax ax bx <= bw.
Proof.
  intros H.
  destruct (Q.max_spec ax bx) as [[? Hmax]|[? Hmax]];
  destruct (Q.min_spec (ax + aw) (bx + bw)) as [[? Hmin]|[? Hmin]];
  rewrite Hmax, Hmin in *; repeat split; lra.
Qed.

Lemma intersection_area_facts (iw ih aw ah bw bh : number) :
  0 < iw -> 0 < ih -> iw <= aw -> ih <= ah -> iw <= bw -> ih <= bh ->
  0 < iw * ih /\ iw * ih <= aw * ah /\ iw * ih <= bw * bh.
Proof. intros. repeat split; nra. Qed.

Lemma calculateIoU_overlap (a b : BoundingBox.t) :
  ~ noOverlap a b ->
  let iw := Qmin (BoundingBox.x a + BoundingBox.width a)
                 (BoundingBox.x b + BoundingBox.width b)
            - Qmax (BoundingBox.x a) (BoundingBox.x b) in
  let ih := Qmin (BoundingBox.y a + BoundingBox.height a)
                 (BoundingBox.y b + BoundingBox.height b)
            - Qmax (BoundingBox.y a) (BoundingBox.y b) in
  0 < iw * ih /\ iw * ih <= unionArea a b
  /\ calculateIoU a b = iw * ih / unionArea a b.
Proof.
  intros Hno iw ih.
  assert (Hx : Qmax (BoundingBox.x a) (BoundingBox.x b)
               < Qmin (BoundingBox.x a + BoundingBox.width a)
                      (BoundingBox.x b + BoundingBox.width b)).
  { apply Qnot_le_lt. intros H. apply Hno. left. exact H. }
  assert (Hy : Qmax (BoundingBox.y a) (BoundingBox.y b)
               < Qmin (BoundingBox.y a + BoundingBox.height a)
                      (BoundingBox.y b + BoundingBox.height b)).
  { apply Qnot_le_lt. intros H. apply Hno. right. exact H. }
  destruct (overlap_extents _ _ _ _ Hx) as (Haw & Hbw & Hiw & Hiwa & Hiwb).
  destruct (overlap_extents _ _ _ _ Hy) as (Hah & Hbh & Hih & Hiha & Hihb).
  fold iw in Hiw, Hiwa, Hiwb. fold ih in Hih, Hiha, Hihb.
  destruct (intersection_area_facts iw ih _ _ _ _ Hiw Hih Hiwa Hiha Hiwb Hihb)
    as (Hpos & Hia & Hb).
  assert (Hle : iw * ih <= unionArea a b).
  { unfold unionArea. cbv zeta. fold iw ih. lra. }
  split; [exact Hpos|]. split; [exact Hle|].
  unfold calculateIoU. cbv zeta.
  apply leb_false in Hx. apply leb_false in Hy. rewrite Hx, Hy. simpl.
  fold iw ih. change (BoundingBox.width a * BoundingBox.height a
    + BoundingBox.width b * BoundingBox.height b - iw * ih)
    with (unionArea a b).
  destruct (eqb (unionArea a b) 0) eqn:E; [|reflexivity].
  apply eqb_spec in E. lra.
Qed.

Lemma calculateIoU_noOverlap (a b : BoundingBox.t) :
  noOverlap a b -> calculateIoU a b = 0.
Proof.
  intros [H|H]; unfold calculateIoU; cbv zeta; apply leb_spec in H;
    rewrite H; [reflexivity | rewrite orb_true_r; reflexivity].
Qed.

Lemma noOverlap_dec (a b : BoundingBox.t) : noOverlap a b \/ ~ noOverlap a b.
Proof.
  unfold noOverlap.
  destruct (Qlt_le_dec (Qmax (BoundingBox.x a) (BoundingBox.x b))
              (Qmin (BoundingBox.x a + BoundingBox.width a)
                    (BoundingBox.x b + BoundingBox.width b))) as [Hx|Hx];
    [|left; left; exact Hx].
  destruct (Qlt_le_dec (Qmax (BoundingBox.y a) (BoundingBox.y b))
              (Qmin (BoundingBox.y a + BoundingBox.height a)
                    (BoundingBox.y b + BoundingBox.height b))) as [Hy|Hy];
    [|left; right; exact Hy].
  right. intros [H|H]; lra.
Qed.

Lemma noOverlap_sym (a b : BoundingBox.t) : noOverlap a b -> noOverlap b a.
Proof.
  unfold noOverlap.
  rewrite (Q.max_comm (BoundingBox.x b)), (Q.max_comm (BoundingBox.y b)),
    (Q.min_comm (BoundingBox.x b + _)), (Q.min_comm (BoundingBox.y b + _)).
  tauto.
Qed.

Lemma unionArea_sym (a b : BoundingBox.t) : unionArea a b == unionArea b a.
Proof.
  unfold unionArea. cbv zeta.
  rewrite (Q.max_comm (BoundingBox.x b)), (Q.max_comm (BoundingBox.y b)),
    (Q.min_comm (BoundingBox.x b + _)), (Q.min_comm (BoundingBox.y b + _)).
  ring.
Qed.

Lemma calculateIoU_sym (a b : BoundingBox.t) :
  calculateIoU a b == calculateIoU b a.
Proof.
  destruct (noOverlap_dec a b) as [H|H].
  - rewrite (calculateIoU_noOverlap _ _ H),
      (calculateIoU_noOverlap _ _ (noOverlap_sym _ _ H)). reflexivity.
  - assert (H' : ~ noOverlap b a) by (intros C; apply H, noOverlap_sym, C).
    destruct (calculateIoU_overlap _ _ H) as (_ & _ & ->).
    destruct (calculateIoU_overlap _ _ H') as (_ & _ & ->).
    rewrite (unionArea_sym b a).
    rewrite (Q.max_comm (BoundingBox.x b)), (Q.max_comm (BoundingBox.y b)),
      (Q.min_comm (BoundingBox.x b + _)), (Q.min_comm (BoundingBox.y b + _)).
    reflexivity.
Qed.

Lemma calculateIoU_unionArea_zero (a b : BoundingBox.t) :
  unionArea a b == 0 -> calculateIoU a b == 0.
Proof.
  intros Hu. destruct (noOverlap_dec a b) as [H|H].
  - rewrite (calculateIoU_noOverlap _ _ H). reflexivity.
  - destruct (calculateIoU_overlap _ _ H) as (Hpos & Hle & _). lra.
Qed.

(** C6 (as the code has it).  [calculateIoU] is 0 when the rectangles do
    not overlap, that is when the intersection corners the code computes
    give [x2 <= x1] or [y2 <= y1], and when the union area it computes is
    0; and it is symmetric.  Nothing is stated about identical rectangles
    or about the range: the quotient the code returns is rounded. *)
Theorem calculateIoU_correct (a b : BoundingBox.t) :
  (noOverlap a b -> calculateIoU a b == 0)
  /\ (unionArea a b == 0 -> calculateIoU a b == 0)
  /\ calculateIoU a b == calculateIoU b a.
Proof.
  split; [intros H; rewrite (calculateIoU_noOverlap _ _ H); reflexivity|].
  split; [apply calculateIoU_unionArea_zero|apply calculateIoU_sym].
Qed.

Lemma calculateIoU_correct_witness :
  let a := BoundingBox.mk 0 0 50 50 in
  let b := BoundingBox.mk 500 500 50 50 in
  calculateIoU a b == 0 /\ calculateIoU a b == calculateIoU b a.
Proof.
  intros a b.
  destruct (calculateIoU_correct a b) as (Hdisj & _ & Hsym).
  split; [|exact Hsym].
  apply Hdisj. left. vm_compute. discriminate.
Defined.

(** C6 fails as stated: in binary64 the code returns 1.0000000000000004,
    which is neither 1 nor at most 1, for the rectangle (0.1, 0.1, 0.2, 0.2)
    against itself (its intersection is computed from the rounded corner
    0.1 + 0.2, its area from 0.2 * 0.2); and it returns -1 for a rectangle
    whose area rounds to 0 while the intersection does not. *)
Section Rounding.
Import PrimFloat.
#[local] Set Warnings "-inexact-float".

Lemma calculateIoU_rounding_counterexample :
  Binary64.calculateIoU Binary64.tenthBox Binary64.tenthBox
  = 1.0000000000000004%float
  /\ PrimFloat.ltb 1%float
       (Binary64.calculateIoU Binary64.tenthBox Binary64.tenthBox) = true
  /\ Binary64.calculateIoU Binary64.tinyBox Binary64.tinyBox = (-1)%float.
Proof. repeat split; vm_compute; reflexivity. Qed.

End Rounding.

(** ** Clamping to the slide *)

Lemma Qcompare_diag (x : Q) : (x ?= x) = Eq.
Proof. apply Qeq_alt. reflexivity. Qed.

(** Clamping into [[lo, hi]] a value that has been clamped already returns
    the very same number, whatever [lo] and [hi] are. *)
Lemma clamp_again (lo hi x : number) :
  Qmax lo (Qmin (Qmax lo (Qmin x hi)) hi) = Qmax lo (Qmin x hi).
Proof.
  unfold Qmax, Qmin, GenericMinMax.gmax, GenericMinMax.gmin.
  destruct (x ?= hi) eqn:E1; destruct (lo ?= x) eqn:E2;
    destruct (lo ?= hi) eqn:E3;
    repeat first [rewrite E1 | rewrite E2 | rewrite E3 | rewrite Qcompare_diag];
    try reflexivity;
    exfalso; rewrite <- ?Qlt_alt, <- ?Qgt_alt, <- ?Qeq_alt in *; lra.
Qed.

(** C7.  Clamping is idempotent on every rectangle, whatever its origin
    and extents: clamping the clamped rectangle returns it unchanged. *)
Theorem clampToSlideBounds_idempotent (x y width height : number) :
  let r := clampToSlideBounds x y width height in
  clampToSlideBounds (BoundingBox.x r) (BoundingBox.y r)
                     (BoundingBox.width r) (BoundingBox.height r) = r.
Proof.
  unfold clampToSlideBounds. cbn [BoundingBox.x BoundingBox.y
    BoundingBox.width BoundingBox.height SlideDimensions.width
    SlideDimensions.height STANDARD_SLIDE].
  rewrite !clamp_again. reflexivity.
Qed.

Example clamp_scenario4 :
  clampToSlideBounds 10 0 (10 / 1920 * 10) (10 / 1080 * 5.625)
  = BoundingBox.mk 10 0 0.1 0.1.
Proof. vm_compute. reflexivity. Qed.

Lemma clampToSlideBounds_bounds (x y w h : number) :
  let r := clampToSlideBounds x y w h in
  (0 <= BoundingBox.x r <= 10) /\ (0 <= BoundingBox.y r <= 5.625)
  /\ (0.1 <= BoundingBox.width r <= 10) /\ (0.1 <= BoundingBox.height r <= 5.625)
  /\ BoundingBox.x r + BoundingBox.width r <= 10.1
  /\ BoundingBox.y r + BoundingBox.height r <= 5.725
  /\ (BoundingBox.x r + BoundingBox.width r <= 10 \/ BoundingBox.width r == 0.1)
  /\ (BoundingBox.y r + BoundingBox.height r <= 5.625
      \/ BoundingBox.height r == 0.1).
Proof.
  unfold clampToSlideBounds. slide_consts.
  repeat split; minmax_lra.
Qed.

Lemma flag_isValid (c : bool) (w : InchWarning) (v : InchValidation) :
  isValid (flag c w v) = negb c && isValid v.
Proof. destruct c; reflexivity. Qed.

Lemma validateInchCoordinates_valid (x y w h : number) :
  isValid (validateInchCoordinates x y w h) = true ->
  (0 <= x <= 10) /\ (0 <= y <= 5.625) /\ (0 < w <= 10) /\ (0 < h <= 5.625)
  /\ x + w <= 10 /\ y + h <= 5.625.
Proof.
  unfold validateInchCoordinates. slide_consts. cbv zeta.
  rewrite !flag_isValid. cbn [isValid].
  rewrite !andb_true_iff, !negb_true_iff, !orb_false_iff,
    !ltb_false, !gtb_false, !leb_false.
  tauto.
Qed.

Lemma warnIf_nil (c : bool) (w : PlacementWarning) :
  warnIf c w = [] <-> c = false.
Proof. destruct c; simpl; split; intros; congruence. Qed.

Lemma placementWarnings_nil (i : nat) (e : DetectedTextElement) :
  placementWarnings i e = [] <-> placementOk e.
Proof.
  unfold placementWarnings, placementOk.
  rewrite !app_nil, !warnIf_nil, !orb_false_iff,
    !ltb_false, !gtb_false, !leb_false.
  tauto.
Qed.

Lemma placementWarningsFrom_nil (es : list DetectedTextElement) (i : nat) :
  placementWarningsFrom i es = [] <-> Forall placementOk es.
Proof.
  revert i. induction es as [|e es IH]; intros i; simpl.
  - split; [constructor | reflexivity].
  - rewrite app_nil, placementWarnings_nil, IH, Forall_cons. reflexivity.
Qed.

Lemma validateLayoutPlacement_valid (es : list DetectedTextElement)
    (regions : list LayoutRegion.t) :
  pv_isValid (validateLayoutPlacement es regions) = true
  <-> Forall placementOk es.
Proof.
  unfold validateLayoutPlacement. cbn [pv_isValid].
  rewrite Nat.eqb_eq, length_zero_iff_nil. apply placementWarningsFrom_nil.
Qed.

(** The geometry [parseTextResponse] gives an element is either valid for
    [validateInchCoordinates] or the result of [clampToSlideBounds]. *)
Lemma parseTextElement_placementOk (imageWidth imageHeight : number)
    (text : RawText) :
  placementOk (parseTextElement imageWidth imageHeight text).
Proof.
  unfold parseTextElement, placementOk. cbv zeta.
  cbn [position_x position_y width height].
  match goal with
  | |- context [isValid (validateInchCoordinates ?a ?b ?c ?d)] =>
      generalize a b c d
  end.
  intros px py w h.
  destruct (isValid (validateInchCoordinates px py w h)) eqn:E.
  - apply validateInchCoordinates_valid in E. lra.
  - pose proof (clampToSlideBounds_bounds px py w h) as B. cbv zeta in B. lra.
Qed.

(** C1 (as the code has it).  A rectangle returned by [clampToSlideBounds]
    has its origin on the canvas and extents of at least 0.1, and ends at
    most 0.1 past the far edges (at 10.1 and 5.725): it ends on the canvas
    unless its extent is the 0.1 minimum.  Every element built by
    [parseTextResponse] is within these bounds, and
    [validateLayoutPlacement] reports no warning exactly for the lists
    whose elements are. *)
Theorem bounds_up_to_minimum_size :
  (forall x y w h : number,
     let r := clampToSlideBounds x y w h in
     (0 <= BoundingBox.x r <= 10) /\ (0 <= BoundingBox.y r <= 5.625)
     /\ (0.1 <= BoundingBox.width r <= 10)
     /\ (0.1 <= BoundingBox.height r <= 5.625)
     /\ BoundingBox.x r + BoundingBox.width r <= 10.1
     /\ BoundingBox.y r + BoundingBox.height r <= 5.725
     /\ (BoundingBox.x r + BoundingBox.width r <= 10
         \/ BoundingBox.width r == 0.1)
     /\ (BoundingBox.y r + BoundingBox.height r <= 5.625
         \/ BoundingBox.height r == 0.1))
  /\ (forall (imageWidth imageHeight : number) (text : RawText),
        placementOk (parseTextElement imageWidth imageHeight text)
        /\ withinCanvas 0.1 (parseTextElement imageWidth imageHeight text))
  /\ (forall (es : list DetectedTextElement) (regions : list LayoutRegion.t),
        pv_isValid (validateLayoutPlacement es regions) = true
        <-> Forall placementOk es).
Proof.
  split; [exact clampToSlideBounds_bounds|].
  split; [|exact validateLayoutPlacement_valid].
  intros iw ih text.
  pose proof (parseTextElement_placementOk iw ih text) as Hok.
  split; [exact Hok|].
  unfold placementOk in Hok. unfold withinCanvas, SLIDE_WIDTH, SLIDE_HEIGHT.
  lra.
Qed.

Lemma bounds_up_to_minimum_size_witness :
  let e := parseTextElement 1920 1080 scenario4 in
  placementOk e
  /\ pv_isValid (validateLayoutPlacement [e] []) = true.
Proof.
  intros e.
  destruct bounds_up_to_minimum_size as (_ & Hparse & Hvalid).
  destruct (Hparse 1920 1080 scenario4) as [Hok _]. fold e in Hok.
  split; [exact Hok|].
  apply Hvalid. constructor; [exact Hok | constructor].
Defined.

(** C1 fails as stated: on scenario 4 the element handed on by
    [parseTextResponse] starts at the right edge of the canvas and is 0.1
    wide, so it ends at 10.1. *)
Lemma bounds_invariant_counterexample :
  let e := parseTextElement 1920 1080 scenario4 in
  position_x e == 10 /\ width e == 0.1
  /\ position_x e + width e == 10.1
  /\ ~ withinCanvas 0.000001 e.
Proof.
  cbv zeta. repeat split; try (vm_compute; reflexivity).
  unfold withinCanvas. intros (_ & H & _). revert H.
  vm_compute. intros H. apply H. reflexivity.
Qed.

(** ** Region containment *)

Lemma centerInRegion_spec (e : DetectedTextElement) (r : LayoutRegion.t) :
  centerInRegion e r = true <-> centerInside e r.
Proof.
  unfold centerInRegion, centerInside. cbv zeta.
  rewrite !andb_true_iff, !geb_spec, !leb_spec. tauto.
Qed.

Lemma centerInRegion_false (e : DetectedTextElement) (r : LayoutRegion.t) :
  centerInRegion e r = false <-> ~ centerInside e r.
Proof.
  rewrite <- centerInRegion_spec. destruct (centerInRegion e r); split;
    intros; congruence.
Qed.

Lemma findContainingRegion_Some (e : DetectedTextElement)
    (regions : list LayoutRegion.t) (r : LayoutRegion.t) :
  findContainingRegion e regions = Some r <->
  exists pre post, regions = pre ++ r :: post /\ centerInside e r
                   /\ Forall (fun r' => ~ centerInside e r') pre.
Proof.
  induction regions as [|r0 rs IH]; simpl.
  - split; [discriminate|]. intros (pre & post & E & _).
    destruct pre; discriminate.
  - destruct (centerInRegion e r0) eqn:C.
    + apply centerInRegion_spec in C. split.
      * intros [= <-]. exists [], rs.
        split; [reflexivity | split; [exact C | constructor]].
      * intros (pre & post & E & Hin & Hpre). destruct pre as [|p pre].
        -- injection E as -> _. reflexivity.
        -- injection E as -> _. apply Forall_cons in Hpre as [Hp _].
           contradiction.
    + apply centerInRegion_false in C. rewrite IH. split.
      * intros (pre & post & -> & Hin & Hpre). exists (r0 :: pre), post.
        split; [reflexivity | split; [exact Hin | constructor; assumption]].
      * intros (pre & post & E & Hin & Hpre). destruct pre as [|p pre].
        -- injection E as -> _. contradiction.
        -- injection E as -> ->. apply Forall_cons in Hpre as [_ Hpre].
           exists pre, post. split; [reflexivity | split; assumption].
Qed.

Lemma findContainingRegion_None (e : DetectedTextElement)
    (regions : list LayoutRegion.t) :
  findContainingRegion e regions = None <->
  Forall (fun r => ~ centerInside e r) regions.
Proof.
  induction regions as [|r0 rs IH]; simpl.
  - split; [constructor | reflexivity].
  - rewrite Forall_cons, <- IH, <- centerInRegion_false.
    destruct (centerInRegion e r0); split;
      [discriminate | intros [? _]; discriminate | tauto | tauto].
Qed.

Lemma normalizeCoordinates_lookup (es : list DetectedTextElement)
    (regions : list LayoutRegion.t) (i : nat) :
  normalizeCoordinates es regions !! i =
  (fun e => match findContainingRegion e regions with
            | Some r => normalizeWithinRegion e r
            | None => e
            end) <$> es !! i.
Proof. unfold normalizeCoordinates. apply list_lookup_fmap. Qed.

Lemma alignElementsWithinRegions_lookup (es : list DetectedTextElement)
    (regions : list LayoutRegion.t) (i : nat) :
  alignElementsWithinRegions es regions !! i =
  (fun e => alignElement e regions) <$> es !! i.
Proof. unfold alignElementsWithinRegions. apply list_lookup_fmap. Qed.

(** C10.  Containment is decided by the element's center with inclusive
    comparisons; the region assigned is the first one of the list that
    contains the center, so never more than one; and an element whose
    center is in no region comes back unchanged from normalization, from
    alignment and from the two in sequence. *)
Theorem region_assignment (element : DetectedTextElement)
    (regions : list LayoutRegion.t) :
  (forall region,
     centerInRegion element region = true <-> centerInside element region)
  /\ (forall region,
        findContainingRegion element regions = Some region <->
        exists pre post,
          regions = pre ++ region :: post /\ centerInside element region
          /\ Forall (fun r => ~ centerInside element r) pre)
  /\ (findContainingRegion element regions = None <->
      Forall (fun r => ~ centerInside element r) regions)
  /\ (findContainingRegion element regions = None ->
      forall (textElements : list DetectedTextElement) (i : nat),
        textElements !! i = Some element ->
        normalizeCoordinates textElements regions !! i = Some element
        /\ alignElementsWithinRegions textElements regions !! i = Some element
        /\ alignElementsWithinRegions
             (normalizeCoordinates textElements regions) regions !! i
           = Some element).
Proof.
  split; [intros r; apply centerInRegion_spec|].
  split; [intros r; apply findContainingRegion_Some|].
  split; [apply findContainingRegion_None|].
  intros Hnone es i Hi.
  assert (Hn : normalizeCoordinates es regions !! i = Some element).
  { rewrite normalizeCoordinates_lookup, Hi. simpl. rewrite Hnone. reflexivity. }
  split; [exact Hn|]. split.
  - rewrite alignElementsWithinRegions_lookup, Hi. simpl.
    unfold alignElement. rewrite Hnone. reflexivity.
  - rewrite alignElementsWithinRegions_lookup, Hn. simpl.
    unfold alignElement. rewrite Hnone. reflexivity.
Qed.

Lemma region_assignment_witness :
  let left := plainRegion 0 0 960 1080 in
  let right := plainRegion 960 0 960 1080 in
  let onEdge := plainElement "edge" 4.5 1 1 1 None in
  let outside := plainElement "out" 20 1 1 1 None in
  centerInside onEdge left /\ centerInside onEdge right
  /\ findContainingRegion onEdge [left; right] = Some left
  /\ normalizeCoordinates [onEdge; outside] [left; right] !! 1%nat = Some outside.
Proof.
  intros left right onEdge outside.
  destruct (region_assignment onEdge [left; right]) as (Hc & Hfirst & _ & _).
  destruct (region_assignment outside [left; right]) as (_ & _ & _ & Hout).
  assert (Hl : centerInside onEdge left) by (apply Hc; vm_compute; reflexivity).
  split; [exact Hl|].
  split; [apply Hc; vm_compute; reflexivity|].
  split.
  - apply Hfirst. exists [], [right].
    split; [reflexivity | split; [exact Hl | constructor]].
  - apply (Hout eq_refl [onEdge; outside] 1%nat eq_refl).
Defined.

Lemma normalizeWithinRegion_geometry (e : DetectedTextElement)
    (r : LayoutRegion.t) :
  let e' := normalizeWithinRegion e r in
  regionXInches r <= position_x e' /\ regionYInches r <= position_y e'
  /\ 0.1 <= width e' /\ 0.1 <= height e'
  /\ (width e' <= regionWidthInches r - (position_x e' - regionXInches r)
      \/ width e' == 0.1)
  /\ (height e' <= regionHeightInches r - (position_y e' - regionYInches r)
      \/ height e' == 0.1)
  /\ (width e' <= width e \/ width e' == 0.1)
  /\ (height e' <= height e \/ height e' == 0.1).
Proof.
  unfold normalizeWithinRegion. cbv zeta.
  cbn [position_x position_y width height withGeometry].
  generalize (regionXInches r) (regionYInches r) (regionWidthInches r)
    (regionHeightInches r) (position_x e) (position_y e) (width e) (height e).
  intros rx ry rw rh ex ey ew eh.
  set (cx := Qmax rx (Qmin ex (rx + rw - ew))).
  set (cy := Qmax ry (Qmin ey (ry + rh - eh))).
  split; [apply Q.le_max_l|]. split; [apply Q.le_max_l|].
  split; [apply Q.le_max_l|]. split; [apply Q.le_max_l|].
  split; [|split; [|split]].
  - destruct (Q.max_spec 0.1 (Qmin ew (rw - (cx - rx)))) as [[_ ->]|[_ ->]];
      [left; apply Q.le_min_r|right; reflexivity].
  - destruct (Q.max_spec 0.1 (Qmin eh (rh - (cy - ry)))) as [[_ ->]|[_ ->]];
      [left; apply Q.le_min_r|right; reflexivity].
  - destruct (Q.max_spec 0.1 (Qmin ew (rw - (cx - rx)))) as [[_ ->]|[_ ->]];
      [left; apply Q.le_min_l|right; reflexivity].
  - destruct (Q.max_spec 0.1 (Qmin eh (rh - (cy - ry)))) as [[_ ->]|[_ ->]];
      [left; apply Q.le_min_l|right; reflexivity].
Qed.

(** C8 (as the code has it).  An element that is assigned a containing
    region is replaced by its normalization in that region, which starts
    inside the region (at or after its left and top edges) and is at least
    0.1 wide and high, so never of negative size.  Along each axis its
    extent is at most the room the code computes between its start and
    the region's far edge, [regionWidth - (x - regionX)], and at most the
    element's own extent, unless it is the 0.1 minimum. *)
Theorem normalized_within_region (textElements : list DetectedTextElement)
    (regions : list LayoutRegion.t) (i : nat)
    (element : DetectedTextElement) (region : LayoutRegion.t) :
  textElements !! i = Some element ->
  findContainingRegion element regions = Some region ->
  let e' := normalizeWithinRegion element region in
  normalizeCoordinates textElements regions !! i = Some e'
  /\ regionXInches region <= position_x e'
  /\ regionYInches region <= position_y e'
  /\ 0.1 <= width e' /\ 0.1 <= height e'
  /\ (width e'
      <= regionWidthInches region - (position_x e' - regionXInches region)
      \/ width e' == 0.1)
  /\ (height e'
      <= regionHeightInches region - (position_y e' - regionYInches region)
      \/ height e' == 0.1)
  /\ (width e' <= width element \/ width e' == 0.1)
  /\ (height e' <= height element \/ height e' == 0.1).
Proof.
  intros Hi Hfind e'.
  split.
  { rewrite normalizeCoordinates_lookup, Hi. simpl. rewrite Hfind. reflexivity. }
  exact (normalizeWithinRegion_geometry element region).
Qed.

Lemma normalized_within_region_witness :
  let slide := plainRegion 0 0 1920 1080 in
  let wide := plainElement "wide" (-1.5) 1 14 1 None in
  exists e',
    normalizeCoordinates [wide] [slide] !! 0%nat = Some e'
    /\ regionXInches slide <= position_x e'
    /\ position_x e' == 0 /\ width e' == 10.
Proof.
  intros slide wide.
  assert (Hfind : findContainingRegion wide [slide] = Some slide)
    by (vm_compute; reflexivity).
  destruct (normalized_within_region [wide] [slide] 0 wide slide eq_refl Hfind)
    as (Hn & Hx & _).
  exists (normalizeWithinRegion wide slide).
  split; [exact Hn|]. split; [exact Hx|].
  split; vm_compute; reflexivity.
Defined.

(** C8 fails as stated: a 0.02-wide element 0.05 before the right edge of
    its region stays where it is, is widened to the 0.1 minimum and so
    ends past the edge. *)
Lemma containment_counterexample :
  let slide := plainRegion 0 0 1920 1080 in
  let thin := plainElement "thin" 9.95 1 0.02 1 None in
  let e' := normalizeWithinRegion thin slide in
  findContainingRegion thin [slide] = Some slide
  /\ normalizeCoordinates [thin] [slide] = [e']
  /\ position_x e' == 9.95 /\ width e' == 0.1
  /\ regionXInches slide + regionWidthInches slide == 10
  /\ 10 < position_x e' + width e'
  /\ ~ insideRegion e' slide.
Proof.
  cbv zeta. repeat split; try (vm_compute; reflexivity).
  unfold insideRegion. intros (_ & H & _). revert H.
  vm_compute. intros H. apply H. reflexivity.
Qed.

(** ** Cross-source merge *)

Lemma scanCraft_bestSoFar (a : DetectedTextElement) (M : gset nat)
    (thr : number) (rest pre : list DetectedTextElement)
    (best : option BestMatch) :
  bestSoFar a (pre ++ rest) M thr (length pre) best ->
  bestSoFar a (pre ++ rest) M thr (length (pre ++ rest))
            (scanCraft a M thr (length pre) rest best).
Proof.
  revert pre best. induction rest as [|c rest IH]; intros pre best Hbest.
  - simpl. rewrite app_nil_r in *. exact Hbest.
  - simpl scanCraft.
    replace (pre ++ c :: rest) with ((pre ++ [c]) ++ rest) in *
      by (rewrite <- app_assoc; reflexivity).
    replace (S (length pre)) with (length (pre ++ [c]))
      by (rewrite length_app; simpl; lia).
    apply IH. clear IH.
    assert (Hc : ((pre ++ [c]) ++ rest) !! length pre = Some c).
    { rewrite <- app_assoc. apply list_lookup_middle. reflexivity. }
    rewrite length_app. simpl length.
    replace (length pre + 1)%nat with (S (length pre)) by lia.
    set (craft := (pre ++ [c]) ++ rest) in *.
    set (i := length pre) in *.
    set (v := calculateIoU (boxOf a) (boxOf c)).
    assert (Hold : forall j, (j < S i)%nat -> (j < i)%nat \/ j = i) by lia.
    destruct (decide (i ∈ M)) as [Hin|Hnin].
    { destruct best as [bm|]; simpl in *.
      - destruct Hbest as (Hlt & Hbm & Hb & Hthr & Hmax).
        split; [lia|]. split; [exact Hbm|]. split; [exact Hb|].
        split; [exact Hthr|].
        intros j b' Hj Hjb Hjm Hjt. destruct (Hold j Hj) as [Hj'| ->].
        + apply (Hmax j b' Hj' Hjb Hjm Hjt).
        + contradiction.
      - intros j b Hj Hjb Hjm. destruct (Hold j Hj) as [Hj'| ->].
        + apply (Hbest j b Hj' Hjb Hjm).
        + contradiction. }
    cbv zeta. fold v.
    destruct (geb v thr) eqn:Hge.
    2:{ apply geb_false in Hge.
        destruct best as [bm|]; simpl in *.
        - destruct Hbest as (Hlt & Hbm & Hb & Hthr & Hmax).
          split; [lia|]. split; [exact Hbm|]. split; [exact Hb|].
          split; [exact Hthr|].
          intros j b' Hj Hjb Hjm Hjt. destruct (Hold j Hj) as [Hj'| ->].
          + apply (Hmax j b' Hj' Hjb Hjm Hjt).
          + rewrite Hc in Hjb. injection Hjb as <-. fold v in Hjt. lra.
        - intros j b Hj Hjb Hjm. destruct (Hold j Hj) as [Hj'| ->].
          + apply (Hbest j b Hj' Hjb Hjm).
          + rewrite Hc in Hjb. injection Hjb as <-. exact Hge. }
    apply geb_spec in Hge.
    destruct best as [bm|].
    + destruct Hbest as (Hlt & Hbm & Hb & Hthr & Hmax).
      destruct (gtb v (iou bm)) eqn:Hgt.
      * apply gtb_spec in Hgt. simpl.
        split; [lia|]. split; [exact Hnin|].
        split; [exists c; split; [exact Hc | reflexivity]|].
        split; [exact Hge|].
        intros j b' Hj Hjb Hjm Hjt. destruct (Hold j Hj) as [Hj'| ->].
        -- destruct (Hmax j b' Hj' Hjb Hjm Hjt) as [Hle _].
           split; [lra | intros _; lra].
        -- rewrite Hc in Hjb. injection Hjb as <-. fold v.
           split; [lra | lia].
      * apply gtb_false in Hgt. simpl.
        split; [lia|]. split; [exact Hbm|]. split; [exact Hb|].
        split; [exact Hthr|].
        intros j b' Hj Hjb Hjm Hjt. destruct (Hold j Hj) as [Hj'| ->].
        -- apply (Hmax j b' Hj' Hjb Hjm Hjt).
        -- rewrite Hc in Hjb. injection Hjb as <-. fold v.
           split; [exact Hgt | lia].
    + simpl in *.
      split; [lia|]. split; [exact Hnin|].
      split; [exists c; split; [exact Hc | reflexivity]|].
      split; [exact Hge|].
      intros j b' Hj Hjb Hjm Hjt. destruct (Hold j Hj) as [Hj'| ->].
      * pose proof (Hbest j b' Hj' Hjb Hjm). lra.
      * rewrite Hc in Hjb. injection Hjb as <-. fold v.
        split; [lra | lia].
Qed.

(** What [bestMatch] is when the inner loop of [mergeDetections] ends. *)
Lemma scanCraft_spec (a : DetectedTextElement) (M : gset nat) (thr : number)
    (craft : list DetectedTextElement) :
  bestSoFar a craft M thr (length craft) (scanCraft a M thr 0 craft None).
Proof.
  apply (scanCraft_bestSoFar a M thr craft [] None).
  simpl. intros j b Hj. lia.
Qed.

Lemma scanCraft_index (a : DetectedTextElement) (M : gset nat) (thr : number)
    (craft : list DetectedTextElement) (bm : BestMatch) :
  scanCraft a M thr 0 craft None = Some bm ->
  (index bm < length craft)%nat /\ index bm ∉ M.
Proof.
  intros E. pose proof (scanCraft_spec a M thr craft) as H.
  rewrite E in H. simpl in H. tauto.
Qed.

Lemma unmatchedFrom_empty (rest : list DetectedTextElement) (o : nat) :
  unmatchedFrom ∅ o rest = rest.
Proof.
  revert o. induction rest as [|c rest IH]; intros o; simpl; [reflexivity|].
  destruct (decide (o ∈ (∅ : gset nat))) as [H|_]; [set_solver|].
  rewrite IH. reflexivity.
Qed.

Lemma unmatchedFrom_insert_outside (M : gset nat) (i : nat)
    (rest : list DetectedTextElement) (o : nat) :
  (i < o)%nat ->
  unmatchedFrom ({[ i ]} ∪ M) o rest = unmatchedFrom M o rest.
Proof.
  revert o. induction rest as [|c rest IH]; intros o Hi; simpl; [reflexivity|].
  rewrite IH by lia.
  destruct (decide (o ∈ {[ i ]} ∪ M)) as [H|H];
    destruct (decide (o ∈ M)) as [H'|H']; try reflexivity.
  - apply elem_of_union in H as [H|H]; [|contradiction].
    apply elem_of_singleton in H. lia.
  - exfalso. apply H, elem_of_union_r, H'.
Qed.

Lemma unmatchedFrom_insert (M : gset nat) (i : nat)
    (rest : list DetectedTextElement) (o : nat) :
  (o <= i < o + length rest)%nat -> i ∉ M ->
  S (length (unmatchedFrom ({[ i ]} ∪ M) o rest))
  = length (unmatchedFrom M o rest).
Proof.
  revert o. induction rest as [|c rest IH]; intros o Hi Hnot; simpl in *;
    [lia|].
  destruct (decide (o = i)) as [->|Hne].
  - rewrite unmatchedFrom_insert_outside by lia.
    destruct (decide (i ∈ {[ i ]} ∪ M)) as [_|H];
      [|exfalso; apply H, elem_of_union_l, elem_of_singleton; reflexivity].
    destruct (decide (i ∈ M)) as [H|_]; [contradiction|]. reflexivity.
  - assert (Hi' : (S o <= i < S o + length rest)%nat) by lia.
    specialize (IH (S o) Hi' Hnot).
    destruct (decide (o ∈ {[ i ]} ∪ M)) as [H|H];
      destruct (decide (o ∈ M)) as [H'|H']; simpl; try lia.
    + exfalso. apply elem_of_union in H as [H|H]; [|contradiction].
      apply elem_of_singleton in H. lia.
    + exfalso. apply H, elem_of_union_r, H'.
Qed.

Lemma unmatchedFrom_elem (M : gset nat) (rest : list DetectedTextElement)
    (o j : nat) (b : DetectedTextElement) :
  rest !! j = Some b -> (o + j)%nat ∉ M -> b ∈ unmatchedFrom M o rest.
Proof.
  revert o j. induction rest as [|c rest IH]; intros o j Hj Hnot;
    [discriminate|].
  destruct j as [|j]; simpl in *.
  - injection Hj as ->. replace (o + 0)%nat with o in Hnot by lia.
    destruct (decide (o ∈ M)); [contradiction | apply list_elem_of_here].
  - replace (o + S j)%nat with (S o + j)%nat in Hnot by lia.
    specialize (IH (S o) j Hj Hnot).
    destruct (decide (o ∈ M)); [exact IH | apply list_elem_of_further, IH].
Qed.

(** The element one iteration of the outer loop pushes. *)
Lemma mergeStep_merged (craft : list DetectedTextElement) (thr : number)
    (st : MergeState) (a : DetectedTextElement) :
  st_merged (mergeStep craft thr st a)
  = st_merged st
    ++ [match scanCraft a (st_matched st) thr 0 craft None with
        | Some bm => fuse a (craft !!! index bm)
        | None => a
        end].
Proof.
  unfold mergeStep.
  destruct (scanCraft a (st_matched st) thr 0 craft None); reflexivity.
Qed.

Lemma mergeStep_matched (craft : list DetectedTextElement) (thr : number)
    (st : MergeState) (a : DetectedTextElement) :
  st_matched st ⊆ st_matched (mergeStep craft thr st a).
Proof.
  unfold mergeStep.
  destruct (scanCraft a (st_matched st) thr 0 craft None); simpl; set_solver.
Qed.

Lemma mergeLoop_merged (l craft : list DetectedTextElement) (thr : number)
    (st : MergeState) :
  exists suffix, length suffix = length l
    /\ st_merged (mergeLoop l craft thr st) = st_merged st ++ suffix.
Proof.
  revert st. induction l as [|a l IH]; intros st; simpl.
  - exists []. rewrite app_nil_r. split; reflexivity.
  - destruct (IH (mergeStep craft thr st a)) as (suffix & Hlen & E).
    unfold mergeLoop in *. rewrite E, mergeStep_merged, <- app_assoc.
    eexists. split; [|reflexivity]. simpl. lia.
Qed.

Lemma mergeLoop_matched (l craft : list DetectedTextElement) (thr : number)
    (st : MergeState) :
  st_matched st ⊆ st_matched (mergeLoop l craft thr st).
Proof.
  revert st. induction l as [|a l IH]; intros st; simpl; [reflexivity|].
  etransitivity; [apply (mergeStep_matched craft thr st a) | apply IH].
Qed.

Lemma mergeLoop_app (l1 l2 craft : list DetectedTextElement) (thr : number)
    (st : MergeState) :
  mergeLoop (l1 ++ l2) craft thr st
  = mergeLoop l2 craft thr (mergeLoop l1 craft thr st).
Proof. unfold mergeLoop. apply foldl_app. Qed.

Lemma mergeStep_inv (craft : list DetectedTextElement) (thr : number)
    (n : nat) (st : MergeState) (a : DetectedTextElement) :
  mergeInv craft n st -> mergeInv craft (S n) (mergeStep craft thr st a).
Proof.
  intros (Hlen & Hov & Hsize & Hun). unfold mergeInv.
  rewrite mergeStep_merged, length_app. simpl length.
  split; [lia|]. unfold mergeStep.
  destruct (scanCraft a (st_matched st) thr 0 craft None) as [bm|] eqn:E;
    simpl; [|repeat split; lia].
  apply scanCraft_index in E as [Hlt Hnot].
  pose proof (unmatchedFrom_insert (st_matched st) (index bm) craft 0
                ltac:(lia) Hnot).
  split; [lia|]. split; [|lia].
  rewrite size_union, size_singleton, Hsize; [reflexivity|].
  apply disjoint_singleton_l, Hnot.
Qed.

Lemma mergeLoop_inv (l craft : list DetectedTextElement) (thr : number)
    (n : nat) (st : MergeState) :
  mergeInv craft n st ->
  mergeInv craft (n + length l) (mergeLoop l craft thr st).
Proof.
  revert n st. induction l as [|a l IH]; intros n st Hinv; simpl.
  - replace (n + 0)%nat with n by lia. exact Hinv.
  - replace (n + S (length l))%nat with (S n + length l)%nat by lia.
    apply IH, mergeStep_inv, Hinv.
Qed.

Lemma mergeMatched_inv (claude craft : list DetectedTextElement)
    (thr : number) :
  mergeInv craft (length claude) (mergeMatched claude craft thr).
Proof.
  apply (mergeLoop_inv claude craft thr 0 initialMergeState).
  unfold mergeInv, initialMergeState. cbn [st_merged st_matched st_overlap].
  rewrite unmatchedFrom_empty, size_empty. simpl. lia.
Qed.

(** C3.  The merge conserves elements: the output has as many elements as
    the A-only, B-only and matched counts add up to, where A-only is
    |A| - matched and B-only is |B| - matched; matched is at most
    min(|A|, |B|); and every B element that no A element matched is in the
    output.  This holds for every pair of lists and every threshold. *)
Theorem merge_conservation (claudeElements craftElements : list DetectedTextElement)
    (overlapThreshold : number) :
  let r := mergeDetections claudeElements craftElements overlapThreshold in
  let matched :=
    st_matched (mergeMatched claudeElements craftElements overlapThreshold) in
  mergedCount r = Z.of_nat (length (mergedElements r))
  /\ overlapCount r = Z.of_nat (size matched)
  /\ claudeOnlyCount r = (Z.of_nat (length claudeElements) - overlapCount r)%Z
  /\ craftOnlyCount r = (Z.of_nat (length craftElements) - overlapCount r)%Z
  /\ mergedCount r
     = (claudeOnlyCount r + craftOnlyCount r + overlapCount r)%Z
  /\ (0 <= overlapCount r
        <= Z.of_nat (Nat.min (length claudeElements) (length craftElements)))%Z
  /\ (forall j b, craftElements !! j = Some b -> j ∉ matched ->
                  b ∈ mergedElements r).
Proof.
  intros r matched.
  destruct (mergeMatched_inv claudeElements craftElements overlapThreshold)
    as (Hlen & Hov & Hsize & Hun).
  fold matched in Hsize, Hun.
  unfold r, mergeDetections. cbv zeta.
  cbn [mergedElements claudeOnlyCount craftOnlyCount overlapCount mergedCount].
  fold matched. rewrite length_app, Hlen.
  repeat split; try lia.
  intros j b Hj Hnot. apply elem_of_app. right.
  apply (unmatchedFrom_elem matched craftElements 0 j b Hj Hnot).
Qed.

Lemma merge_conservation_witness :
  let a := plainElement "X" 0 0 50 50 (Some 90) in
  let b := plainElement "" 500 500 50 50 (Some 95) in
  mergedElements (mergeDetections [a] [b] 0.5) = [a; b]
  /\ mergedCount (mergeDetections [a] [b] 0.5) = 2%Z
  /\ b ∈ mergedElements (mergeDetections [a] [b] 0.5).
Proof.
  intros a b.
  destruct (merge_conservation [a] [b] 0.5) as (Hc & _ & _ & _ & _ & _ & Hin).
  split; [vm_compute; reflexivity|]. split; [vm_compute; reflexivity|].
  apply (Hin 0%nat b eq_refl).
  apply (bool_decide_unpack _). vm_compute. exact I.
Defined.

Lemma mergeMatched_take_S (claude craft : list DetectedTextElement)
    (thr : number) (k : nat) (a : DetectedTextElement) :
  claude !! k = Some a ->
  mergeMatched (take (S k) claude) craft thr
  = mergeStep craft thr (mergeMatched (take k claude) craft thr) a.
Proof.
  intros Hk. unfold mergeMatched.
  rewrite (take_S_r claude k a Hk), mergeLoop_app. reflexivity.
Qed.

Lemma mergeMatched_take_le (claude craft : list DetectedTextElement)
    (thr : number) (k k' : nat) :
  (k <= k')%nat ->
  mergeMatched (take k' claude) craft thr
  = mergeLoop (take (k' - k) (drop k claude)) craft thr
              (mergeMatched (take k claude) craft thr).
Proof.
  intros Hle. unfold mergeMatched. rewrite <- mergeLoop_app.
  rewrite take_take_drop. replace (k + (k' - k))%nat with k' by lia.
  reflexivity.
Qed.

Lemma mergeMatched_drop (claude craft : list DetectedTextElement)
    (thr : number) (k : nat) :
  mergeMatched claude craft thr
  = mergeLoop (drop k claude) craft thr
              (mergeMatched (take k claude) craft thr).
Proof.
  unfold mergeMatched. rewrite <- mergeLoop_app, take_drop. reflexivity.
Qed.

(** The [k]-th output element is the one pushed for the [k]-th claude
    element. *)
Lemma mergeDetections_lookup (claude craft : list DetectedTextElement)
    (thr : number) (k : nat) (a : DetectedTextElement) :
  claude !! k = Some a ->
  mergedElements (mergeDetections claude craft thr) !! k
  = Some (match scanCraft a
                  (st_matched (mergeMatched (take k claude) craft thr))
                  thr 0 craft None with
          | Some bm => fuse a (craft !!! index bm)
          | None => a
          end).
Proof.
  intros Hk.
  assert (Hlt : (k < length claude)%nat) by (apply lookup_lt_Some in Hk; lia).
  unfold mergeDetections. cbv zeta. cbn [mergedElements].
  rewrite (mergeMatched_drop claude craft thr (S k)).
  destruct (mergeLoop_merged (drop (S k) claude) craft thr
              (mergeMatched (take (S k) claude) craft thr))
    as (suffix & _ & ->).
  rewrite (mergeMatched_take_S claude craft thr k a Hk), mergeStep_merged.
  destruct (mergeMatched_inv (take k claude) craft thr) as (Hlen & _).
  rewrite length_take in Hlen.
  rewrite <- !app_assoc. rewrite lookup_app_r by lia.
  replace (k - length (st_merged (mergeMatched (take k claude) craft thr)))%nat
    with 0%nat by lia.
  reflexivity.
Qed.

(** C2.  When the scan for the [k]-th A element [a] ends with a best match,
    that match is an unmatched B element [b] whose IoU with [a] reaches the
    threshold and is the highest among the unmatched B elements that reach
    it; the [k]-th output element has the mean of the two rectangles as
    geometry, the text and style of [a], and the larger of the two
    confidences (an absent one counting as 0); and [b] is consumed: its
    index is matched from then on and no later A element is given it. *)
Theorem merge_fusion_rule (claudeElements craftElements : list DetectedTextElement)
    (overlapThreshold : number) (k : nat) (a : DetectedTextElement)
    (bm : BestMatch) :
  claudeElements !! k = Some a ->
  scanCraft a
    (st_matched (mergeMatched (take k claudeElements) craftElements
                              overlapThreshold))
    overlapThreshold 0 craftElements None = Some bm ->
  exists b m,
    craftElements !! index bm = Some b
    /\ (index bm ∉ st_matched (mergeMatched (take k claudeElements)
                                 craftElements overlapThreshold))
    /\ iou bm = calculateIoU (boxOf a) (boxOf b)
    /\ overlapThreshold <= iou bm
    /\ (forall j b',
          craftElements !! j = Some b' ->
          j ∉ st_matched (mergeMatched (take k claudeElements)
                            craftElements overlapThreshold) ->
          overlapThreshold <= calculateIoU (boxOf a) (boxOf b') ->
          calculateIoU (boxOf a) (boxOf b') <= iou bm)
    /\ mergedElements
         (mergeDetections claudeElements craftElements overlapThreshold) !! k
       = Some m
    /\ position_x m = (position_x a + position_x b) / 2
    /\ position_y m = (position_y a + position_y b) / 2
    /\ width m = (width a + width b) / 2
    /\ height m = (height a + height b) / 2
    /\ content m = content a
    /\ (font_family m, font_size m, font_color m)
       = (font_family a, font_size a, font_color a)
    /\ (is_bold m, is_italic m, is_underline m)
       = (is_bold a, is_italic a, is_underline a)
    /\ (align m, vertical_align m) = (align a, vertical_align a)
    /\ confidence_score m
       = Some (Qmax (orZero (confidence_score a)) (orZero (confidence_score b)))
    /\ (forall k' a' bm',
          (k < k')%nat -> claudeElements !! k' = Some a' ->
          let later :=
            st_matched (mergeMatched (take k' claudeElements) craftElements
                                     overlapThreshold) in
          index bm ∈ later
          /\ (scanCraft a' later overlapThreshold 0 craftElements None
              = Some bm' -> index bm' <> index bm)).
Proof.
  intros Hk Hscan.
  set (M := st_matched (mergeMatched (take k claudeElements) craftElements
                                     overlapThreshold)) in *.
  pose proof (scanCraft_spec a M overlapThreshold craftElements) as Hbest.
  rewrite Hscan in Hbest. simpl in Hbest.
  destruct Hbest as (Hlt & Hnot & (b & Hb & Hiou) & Hthr & Hmax).
  exists b, (fuse a b).
  split; [exact Hb|]. split; [exact Hnot|]. split; [exact Hiou|].
  split; [exact Hthr|]. split.
  { intros j b' Hj Hjm Hjt.
    apply (Hmax j b' (lookup_lt_Some _ _ _ Hj) Hj Hjm Hjt). }
  split.
  { rewrite (mergeDetections_lookup _ _ _ _ _ Hk). fold M. rewrite Hscan.
    rewrite (list_lookup_total_correct _ _ _ Hb). reflexivity. }
  do 9 (split; [reflexivity|]).
  intros k' a' bm' Hkk' Hk' later.
  assert (Hin : index bm ∈ later).
  { unfold later.
    rewrite (mergeMatched_take_le claudeElements craftElements
               overlapThreshold (S k) k') by lia.
    apply mergeLoop_matched.
    rewrite (mergeMatched_take_S _ _ _ _ _ Hk). unfold mergeStep.
    fold M. rewrite Hscan. simpl.
    apply elem_of_union_l, elem_of_singleton. reflexivity. }
  split; [exact Hin|].
  intros Hscan' Heq.
  apply scanCraft_index in Hscan' as [_ Hnot'].
  apply Hnot'. rewrite Heq. exact Hin.
Qed.

Lemma merge_fusion_rule_witness :
  let a := plainElement "Hello" 100 100 200 40 (Some 90) in
  let b := plainElement "[Text 1]" 105 102 190 38 (Some 95) in
  exists m,
    mergedElements (mergeDetections [a] [b] 0.5) !! 0%nat = Some m
    /\ position_x m == 102.5 /\ position_y m == 101
    /\ width m == 195 /\ height m == 39
    /\ content m = "Hello" /\ confidence_score m = Some 95.
Proof.
  intros a b.
  assert (E : scanCraft a (st_matched (mergeMatched (take 0 [a]) [b] 0.5))
                0.5 0 [b] None
              = Some {| index := 0;
                        iou := calculateIoU (boxOf a) (boxOf b) |})
    by (vm_compute; reflexivity).
  destruct (merge_fusion_rule [a] [b] 0.5 0 a _ eq_refl E)
    as (b' & m & Hb & _ & _ & _ & _ & Hm & Hx & Hy & Hw & Hh & Hc & _ & _ & _
        & Hconf & _).
  cbn [index] in Hb. injection Hb as <-.
  exists m. split; [exact Hm|].
  rewrite Hx, Hy, Hw, Hh, Hc, Hconf.
  repeat split; vm_compute; reflexivity.
Defined.

(** ** Intra-source deduplication *)

Lemma filterInner_mono (thr : number) (i : nat) (ei : DetectedTextElement)
    (rest : list DetectedTextElement) (j : nat) (T : gset nat) :
  T ⊆ filterInner thr i ei j rest T.
Proof.
  revert j T. induction rest as [|ej rest IH]; intros j T; simpl;
    [reflexivity|].
  etransitivity; [|apply IH].
  destruct (decide (j ∈ T)); [reflexivity|].
  destruct (geb _ thr); [apply union_subseteq_r | reflexivity].
Qed.

Lemma filterOuter_mono (thr : number) (rest : list DetectedTextElement)
    (i : nat) (T : gset nat) :
  T ⊆ filterOuter thr i rest T.
Proof.
  revert i T. induction rest as [|ei rest IH]; intros i T; simpl;
    [reflexivity|].
  etransitivity; [|apply IH].
  destruct (decide (i ∈ T)); [reflexivity | apply filterInner_mono].
Qed.

(** If neither [i] nor a later index is marked when the inner loop for [i]
    ends, their IoU was tested and found below the threshold. *)
Lemma filterInner_pair (thr : number) (i : nat) (ei : DetectedTextElement)
    (rest : list DetectedTextElement) (j : nat) (T : gset nat)
    (q : nat) (b : DetectedTextElement) :
  rest !! q = Some b ->
  i ∉ filterInner thr i ei j rest T ->
  (j + q)%nat ∉ filterInner thr i ei j rest T ->
  calculateIoU (boxOf ei) (boxOf b) < thr.
Proof.
  revert j T q. induction rest as [|ej rest IH]; intros j T q Hq Hi Hj;
    [discriminate|].
  simpl in Hi, Hj. destruct q as [|q]; simpl in Hq.
  - injection Hq as ->. replace (j + 0)%nat with j in Hj by lia.
    match type of Hi with
    | _ ∉ filterInner _ _ _ _ _ ?T' =>
        assert (Hi' : i ∉ T') by (intros C; apply Hi, filterInner_mono, C);
        assert (Hj' : j ∉ T') by (intros C; apply Hj, filterInner_mono, C)
    end.
    destruct (decide (j ∈ T)) as [Hin|_]; [contradiction|].
    destruct (geb (calculateIoU (boxOf ei) (boxOf b)) thr) eqn:G;
      [|apply geb_false, G].
    exfalso. cbv zeta in Hi', Hj'.
    destruct (geb (orZero (confidence_score ei)) (orZero (confidence_score b))).
    + rewrite Nat.eqb_refl in Hj'.
      apply Hj', elem_of_union_l, elem_of_singleton. reflexivity.
    + destruct (Nat.eqb j i) eqn:E.
      * apply Nat.eqb_eq in E. subst j.
        apply Hi', elem_of_union_l, elem_of_singleton. reflexivity.
      * apply Hi', elem_of_union_l, elem_of_singleton. reflexivity.
  - replace (j + S q)%nat with (S j + q)%nat in Hj by lia.
    apply (IH (S j) _ q Hq Hi Hj).
Qed.

Lemma filterOuter_pairs (thr : number) (rest : list DetectedTextElement)
    (i : nat) (T : gset nat) (p q : nat) (a b : DetectedTextElement) :
  (p < q)%nat -> rest !! p = Some a -> rest !! q = Some b ->
  (i + p)%nat ∉ filterOuter thr i rest T ->
  (i + q)%nat ∉ filterOuter thr i rest T ->
  calculateIoU (boxOf a) (boxOf b) < thr.
Proof.
  revert i T p q.
  induction rest as [|ei rest IH]; intros i T p q Hpq Hp Hq Hip Hiq;
    [discriminate|].
  simpl in Hip, Hiq. destruct q as [|q]; [lia|]. simpl in Hq.
  replace (i + S q)%nat with (S i + q)%nat in Hiq by lia.
  destruct p as [|p]; simpl in Hp.
  - injection Hp as ->. replace (i + 0)%nat with i in Hip by lia.
    match type of Hip with
    | _ ∉ filterOuter _ _ _ ?T' =>
        assert (Hi' : i ∉ T') by (intros C; apply Hip, filterOuter_mono, C);
        assert (Hq' : (S i + q)%nat ∉ T')
          by (intros C; apply Hiq, filterOuter_mono, C)
    end.
    destruct (decide (i ∈ T)) as [Hin|_]; [contradiction|].
    apply (filterInner_pair thr i a rest (S i) T q b Hq Hi' Hq').
  - replace (i + S p)%nat with (S i + p)%nat in Hip by lia.
    apply (IH (S i) _ p q ltac:(lia) Hp Hq Hip Hiq).
Qed.

Lemma keepFrom_Forall {A : Type} (P : A -> Prop) (R : gset nat)
    (rest : list A) (o : nat) :
  (forall q b, rest !! q = Some b -> (o + q)%nat ∉ R -> P b) ->
  Forall P (keepFrom R o rest).
Proof.
  revert o. induction rest as [|x rest IH]; intros o H; simpl;
    [constructor|].
  assert (Hrest : Forall P (keepFrom R (S o) rest)).
  { apply IH. intros q b Hq Hn. apply (H (S q) b Hq).
    replace (o + S q)%nat with (S o + q)%nat by lia. exact Hn. }
  destruct (decide (o ∈ R)) as [|Hn]; [exact Hrest|].
  constructor; [|exact Hrest].
  apply (H 0%nat x eq_refl). replace (o + 0)%nat with o by lia. exact Hn.
Qed.

Lemma keepFrom_pairs {A : Type} (P : A -> A -> Prop) (R : gset nat)
    (rest : list A) (o : nat) :
  (forall p q a b, (p < q)%nat -> rest !! p = Some a -> rest !! q = Some b ->
                   (o + p)%nat ∉ R -> (o + q)%nat ∉ R -> P a b) ->
  ForallOrdPairs P (keepFrom R o rest).
Proof.
  revert o. induction rest as [|x rest IH]; intros o H; simpl;
    [constructor|].
  assert (Hrest : ForallOrdPairs P (keepFrom R (S o) rest)).
  { apply IH. intros p q a b Hpq Hp Hq Hnp Hnq.
    apply (H (S p) (S q) a b ltac:(lia) Hp Hq).
    - replace (o + S p)%nat with (S o + p)%nat by lia. exact Hnp.
    - replace (o + S q)%nat with (S o + q)%nat by lia. exact Hnq. }
  destruct (decide (o ∈ R)) as [|Hn]; [exact Hrest|].
  constructor; [|exact Hrest].
  apply keepFrom_Forall. intros q b Hq Hnq.
  apply (H 0%nat (S q) x b ltac:(lia) eq_refl Hq).
  - replace (o + 0)%nat with o by lia. exact Hn.
  - replace (o + S q)%nat with (S o + q)%nat by lia. exact Hnq.
Qed.

Lemma keepFrom_sublist {A : Type} (R : gset nat) (rest : list A) (o : nat) :
  keepFrom R o rest `sublist_of` rest.
Proof.
  revert o. induction rest as [|x rest IH]; intros o; simpl; [constructor|].
  destruct (decide (o ∈ R)); [apply sublist_cons | apply sublist_skip];
    apply IH.
Qed.

(** C4.  After deduplication at threshold [t] no two survivors have an IoU
    of [t] or more (in either order of the pair), and the survivors are
    the input with some elements left out, in the input's order.  This
    holds for every input list and every threshold. *)
Theorem dedup_postcondition (elements : list DetectedTextElement) (t : number) :
  ForallOrdPairs
    (fun a b => calculateIoU (boxOf a) (boxOf b) < t
                /\ calculateIoU (boxOf b) (boxOf a) < t)
    (filterOverlappingDetections elements t)
  /\ filterOverlappingDetections elements t `sublist_of` elements.
Proof.
  split; [|apply keepFrom_sublist].
  apply keepFrom_pairs. intros p q a b Hpq Hp Hq Hnp Hnq.
  assert (H : calculateIoU (boxOf a) (boxOf b) < t)
    by apply (filterOuter_pairs t elements 0 ∅ p q a b Hpq Hp Hq Hnp Hnq).
  split; [exact H|]. rewrite (calculateIoU_sym (boxOf b) (boxOf a)). exact H.
Qed.

Lemma filterInner_justified (elements : list DetectedTextElement)
    (t : number) (i : nat) (ei : DetectedTextElement)
    (rest pre : list DetectedTextElement) (T : gset nat) :
  elements = pre ++ rest -> elements !! i = Some ei ->
  (i < length pre)%nat ->
  (forall r, r ∈ T -> removalJustified elements t r) ->
  forall r, r ∈ filterInner t i ei (length pre) rest T ->
            removalJustified elements t r.
Proof.
  revert pre T. induction rest as [|ej rest IH]; intros pre T E Hi Hlt HT;
    simpl; [exact HT|].
  assert (Hj : elements !! length pre = Some ej)
    by (rewrite E; apply list_lookup_middle; reflexivity).
  replace (S (length pre)) with (length (pre ++ [ej]))
    by (rewrite length_app; simpl; lia).
  apply IH.
  - rewrite <- app_assoc. exact E.
  - exact Hi.
  - rewrite length_app. simpl. lia.
  - destruct (decide (length pre ∈ T)); [exact HT|].
    destruct (geb (calculateIoU (boxOf ei) (boxOf ej)) t) eqn:G; [|exact HT].
    apply geb_spec in G. cbv zeta.
    intros r Hr. apply elem_of_union in Hr as [Hr|Hr]; [|apply HT, Hr].
    apply elem_of_singleton in Hr.
    exists i, (length pre), ei, ej.
    split; [exact Hlt|]. split; [exact Hi|]. split; [exact Hj|].
    split; [exact G|].
    destruct (geb (orZero (confidence_score ei))
                  (orZero (confidence_score ej))) eqn:C.
    + rewrite Nat.eqb_refl in Hr. apply geb_spec in C. left. split; assumption.
    + apply geb_false in C.
      destruct (Nat.eqb (length pre) i) eqn:N;
        [apply Nat.eqb_eq in N; lia|].
      right. split; assumption.
Qed.

Lemma filterOuter_justified (elements : list DetectedTextElement)
    (t : number) (rest pre : list DetectedTextElement) (T : gset nat) :
  elements = pre ++ rest ->
  (forall r, r ∈ T -> removalJustified elements t r) ->
  forall r, r ∈ filterOuter t (length pre) rest T ->
            removalJustified elements t r.
Proof.
  revert pre T. induction rest as [|ei rest IH]; intros pre T E HT;
    simpl; [exact HT|].
  assert (Hi : elements !! length pre = Some ei)
    by (rewrite E; apply list_lookup_middle; reflexivity).
  assert (E' : elements = (pre ++ [ei]) ++ rest)
    by (rewrite <- app_assoc; exact E).
  assert (L : length (pre ++ [ei]) = S (length pre))
    by (rewrite length_app; simpl; lia).
  rewrite <- L. apply IH; [exact E'|].
  destruct (decide (length pre ∈ T)); [exact HT|].
  apply (filterInner_justified elements t (length pre) ei rest (pre ++ [ei]) T
           E' Hi ltac:(lia) HT).
Qed.

Lemma dedupInner_justified (regions : list LayoutRegion.t)
    (i : nat) (ri : LayoutRegion.t)
    (rest pre : list LayoutRegion.t) (T : gset nat) :
  regions = pre ++ rest -> regions !! i = Some ri ->
  (i < length pre)%nat ->
  (forall r, r ∈ T -> regionRemovalJustified regions r) ->
  forall r, r ∈ dedupInner i ri (length pre) rest T ->
            regionRemovalJustified regions r.
Proof.
  revert pre T. induction rest as [|rj rest IH]; intros pre T E Hi Hlt HT;
    simpl; [exact HT|].
  assert (Hj : regions !! length pre = Some rj)
    by (rewrite E; apply list_lookup_middle; reflexivity).
  replace (S (length pre)) with (length (pre ++ [rj]))
    by (rewrite length_app; simpl; lia).
  apply IH.
  - rewrite <- app_assoc. exact E.
  - exact Hi.
  - rewrite length_app. simpl. lia.
  - destruct (decide (length pre ∈ T)); [exact HT|].
    destruct (gtb (calculateRegionIoU ri rj) 0.7) eqn:G; [|exact HT].
    apply gtb_spec in G. cbv zeta.
    intros r Hr. apply elem_of_union in Hr as [Hr|Hr]; [|apply HT, Hr].
    apply elem_of_singleton in Hr.
    exists i, (length pre), ri, rj.
    split; [exact Hlt|]. split; [exact Hi|]. split; [exact Hj|].
    split; [exact G|]. unfold regionArea.
    destruct (geb (LayoutRegion.width ri * LayoutRegion.height ri)
                  (LayoutRegion.width rj * LayoutRegion.height rj)) eqn:C.
    + rewrite Nat.eqb_refl in Hr. apply geb_spec in C. left. split; assumption.
    + apply geb_false in C.
      destruct (Nat.eqb (length pre) i) eqn:N;
        [apply Nat.eqb_eq in N; lia|].
      right. split; assumption.
Qed.

Lemma dedupOuter_justified (regions : list LayoutRegion.t)
    (rest pre : list LayoutRegion.t) (T : gset nat) :
  regions = pre ++ rest ->
  (forall r, r ∈ T -> regionRemovalJustified regions r) ->
  forall r, r ∈ dedupOuter (length pre) rest T ->
            regionRemovalJustified regions r.
Proof.
  revert pre T. induction rest as [|ri rest IH]; intros pre T E HT;
    simpl; [exact HT|].
  assert (Hi : regions !! length pre = Some ri)
    by (rewrite E; apply list_lookup_middle; reflexivity).
  assert (E' : regions = (pre ++ [ri]) ++ rest)
    by (rewrite <- app_assoc; exact E).
  assert (L : length (pre ++ [ri]) = S (length pre))
    by (rewrite length_app; simpl; lia).
  rewrite <- L. apply IH; [exact E'|].
  destruct (decide (length pre ∈ T)); [exact HT|].
  apply (dedupInner_justified regions (length pre) ri rest (pre ++ [ri]) T
           E' Hi ltac:(lia) HT).
Qed.

Lemma filterOverlappingDetections_two (a b : DetectedTextElement) (t : number) :
  filterOverlappingDetections [a; b] t
  = if geb (calculateIoU (boxOf a) (boxOf b)) t
    then if geb (orZero (confidence_score a)) (orZero (confidence_score b))
         then [a] else [b]
    else [a; b].
Proof.
  unfold filterOverlappingDetections, filterRemoved.
  cbn [filterOuter filterInner].
  destruct (geb (calculateIoU (boxOf a) (boxOf b)) t);
    [destruct (geb (orZero (confidence_score a))
                   (orZero (confidence_score b)))|];
    reflexivity.
Qed.

Lemma deduplicateRegions_two (r1 r2 : LayoutRegion.t) :
  deduplicateRegions [r1; r2]
  = if gtb (calculateRegionIoU r1 r2) 0.7
    then if geb (regionArea r1) (regionArea r2) then [r1] else [r2]
    else [r1; r2].
Proof.
  unfold deduplicateRegions, dedupRemoved, regionArea.
  cbn [dedupOuter dedupInner].
  destruct (gtb (calculateRegionIoU r1 r2) 0.7);
    [destruct (geb (LayoutRegion.width r1 * LayoutRegion.height r1)
                   (LayoutRegion.width r2 * LayoutRegion.height r2))|];
    reflexivity.
Qed.

(** C5 (as the code has it).  The two deduplicators use different rules.
    [filterOverlappingDetections], on text elements, marks the element of
    lower confidence (an absent one counting as 0) of a compared pair
    whose IoU reaches the threshold, and the later one on a tie; area is
    not consulted.  [deduplicateRegions], on layout regions, marks the
    region of smaller area of a compared pair whose IoU exceeds 0.7, and
    the later one on a tie; confidence is not consulted.  On the two boxes
    of scenario 3, whose IoU is 0.9025, the first at threshold 0.7 leaves
    exactly the second, higher-confidence box. *)
Theorem dedup_removal_rule :
  (forall (a b : DetectedTextElement) (t : number),
     filterOverlappingDetections [a; b] t
     = if geb (calculateIoU (boxOf a) (boxOf b)) t
       then if geb (orZero (confidence_score a)) (orZero (confidence_score b))
            then [a] else [b]
       else [a; b])
  /\ (forall (elements : list DetectedTextElement) (t : number) (r : nat),
        r ∈ filterRemoved elements t -> removalJustified elements t r)
  /\ (forall r1 r2 : LayoutRegion.t,
        deduplicateRegions [r1; r2]
        = if gtb (calculateRegionIoU r1 r2) 0.7
          then if geb (regionArea r1) (regionArea r2) then [r1] else [r2]
          else [r1; r2])
  /\ (forall (regions : list LayoutRegion.t) (r : nat),
        r ∈ dedupRemoved regions -> regionRemovalJustified regions r)
  /\ calculateIoU (boxOf scenario3_first) (boxOf scenario3_second) == 0.9025
  /\ filterOverlappingDetections [scenario3_first; scenario3_second] 0.7
     = [scenario3_second].
Proof.
  split; [exact filterOverlappingDetections_two|].
  split.
  { intros elements t r.
    apply (filterOuter_justified elements t elements [] ∅ eq_refl).
    intros r' Hr'. apply elem_of_empty in Hr'. contradiction. }
  split; [exact deduplicateRegions_two|].
  split.
  { intros regions r.
    apply (dedupOuter_justified regions regions [] ∅ eq_refl).
    intros r' Hr'. apply elem_of_empty in Hr'. contradiction. }
  split; vm_compute; reflexivity.
Qed.

Lemma dedup_removal_rule_witness :
  removalJustified [scenario3_first; scenario3_second] 0.7 0
  /\ regionRemovalJustified
       [plainRegion 0 0 100 100; plainRegion 5 5 95 95] 1.
Proof.
  destruct dedup_removal_rule as (_ & Hel & _ & Hreg & _).
  split.
  - apply Hel. apply (bool_decide_unpack _). vm_compute. exact I.
  - apply Hreg. apply (bool_decide_unpack _). vm_compute. exact I.
Defined.

(** C5 fails as stated: on the two boxes of scenario 3 the survivor of
    [filterOverlappingDetections] is the second box, which is the one of
    smaller area, so the rectangle marked for removal is the larger one;
    and [deduplicateRegions], which does remove the smaller rectangle,
    leaves the first one, of lower confidence. *)
Lemma dedup_removal_counterexample :
  width scenario3_second * height scenario3_second
    < width scenario3_first * height scenario3_first
  /\ 0.7 <= calculateIoU (boxOf scenario3_first) (boxOf scenario3_second)
  /\ filterOverlappingDetections [scenario3_first; scenario3_second] 0.7
     = [scenario3_second]
  /\ deduplicateRegions
       [LayoutRegion.mk text_box 0 0 100 100 80 true None None None;
        LayoutRegion.mk text_box 5 5 95 95 90 true None None None]
     = [LayoutRegion.mk text_box 0 0 100 100 80 true None None None].
Proof.
  split; [vm_compute; reflexivity|].
  split; [vm_compute; discriminate|].
  split; vm_compute; reflexivity.
Qed.

(** ** Strategy orchestrator *)

Section OrchestratorProperties.
Context {Blob : Type} {services : Services Blob}.

Lemma performCraftPrimaryDetection_empty (imageBlob : Blob)
    (imageWidth imageHeight : number) :
  CraftDetectionResult.boxes
    (detectTextWithCRAFT imageBlob imageWidth imageHeight) = []
  \/ truthy (CraftDetectionResult.error
               (detectTextWithCRAFT imageBlob imageWidth imageHeight)) = true ->
  pr_boxCount (performCraftPrimaryDetection imageBlob imageWidth imageHeight)
  = 0%Z.
Proof.
  intros Hfail. unfold performCraftPrimaryDetection. cbv zeta.
  destruct Hfail as [-> | ->]; [rewrite orb_true_r|]; reflexivity.
Qed.

Lemma performDBNetPrimaryDetection_empty (imageBlob : Blob)
    (imageWidth imageHeight a b c : number) :
  DBNetDetectionResult.boxes
    (detectTextWithDBNet imageBlob imageWidth imageHeight a b c) = []
  \/ truthy (DBNetDetectionResult.error
               (detectTextWithDBNet imageBlob imageWidth imageHeight a b c))
     = true ->
  pr_boxCount
    (performDBNetPrimaryDetection imageBlob imageWidth imageHeight a b c)
  = 0%Z.
Proof.
  intros Hfail. unfold performDBNetPrimaryDetection. cbv zeta.
  destruct Hfail as [-> | ->]; [rewrite orb_true_r|]; reflexivity.
Qed.

(** C9.  In primary-detector mode, with either backend, when the
    geometry-only detector returns no boxes or reports an error, the
    orchestrator returns what the content-aware pipeline returns: the
    regions it detects and, when there are regions, the region OCR
    elements normalized and aligned in them (the direct text detection
    otherwise), with statistics that count them all as content-aware. *)
Theorem primary_mode_fallback (imageBlob : Blob)
    (imageWidth imageHeight : number) :
  let fallback :=
    analyzeSlideImageWithLayoutDetection imageBlob imageWidth imageHeight in
  let layout := detectLayoutRegions imageBlob imageWidth imageHeight in
  (CraftDetectionResult.boxes
     (detectTextWithCRAFT imageBlob imageWidth imageHeight) = []
   \/ truthy (CraftDetectionResult.error
                (detectTextWithCRAFT imageBlob imageWidth imageHeight)) = true ->
   performCraftPrimaryHybridDetection imageBlob imageWidth imageHeight
   = fallbackToClaude fallback
   /\ performHybridDetection imageBlob imageWidth imageHeight true true false
      = fallbackToClaude fallback)
  /\ (DBNetDetectionResult.boxes
        (detectTextWithDBNet imageBlob imageWidth imageHeight 0.3 0.5 1.8) = []
      \/ truthy (DBNetDetectionResult.error
                   (detectTextWithDBNet imageBlob imageWidth imageHeight
                                        0.3 0.5 1.8)) = true ->
      performDBNetPrimaryHybridDetection imageBlob imageWidth imageHeight
      = fallbackToClaude fallback
      /\ performHybridDetection imageBlob imageWidth imageHeight true true true
         = fallbackToClaude fallback)
  /\ analysis (fallbackToClaude fallback) = fst fallback
  /\ regions (fallbackToClaude fallback) = ld_regions layout
  /\ textElements (fst fallback)
     = if Nat.ltb 0 (length (ld_regions layout))
       then alignElementsWithinRegions
              (normalizeCoordinates
                 (performRegionBasedOCR imageBlob (ld_regions layout)
                                        imageWidth imageHeight)
                 (ld_regions layout))
              (ld_regions layout)
       else textElements (analyzeSlideImage imageBlob imageWidth imageHeight).
Proof.
  intros fallback layout.
  split.
  { intros Hfail.
    assert (E : performCraftPrimaryHybridDetection imageBlob imageWidth
                  imageHeight = fallbackToClaude fallback).
    { unfold performCraftPrimaryHybridDetection. cbv zeta.
      rewrite (performCraftPrimaryDetection_empty _ _ _ Hfail). reflexivity. }
    split; [exact E|]. unfold performHybridDetection. simpl. exact E. }
  split.
  { intros Hfail.
    assert (E : performDBNetPrimaryHybridDetection imageBlob imageWidth
                  imageHeight = fallbackToClaude fallback).
    { unfold performDBNetPrimaryHybridDetection. cbv zeta.
      rewrite (performDBNetPrimaryDetection_empty _ _ _ _ _ _ Hfail).
      reflexivity. }
    split; [exact E|]. unfold performHybridDetection. simpl. exact E. }
  split; [reflexivity|]. split; [reflexivity|].
  unfold fallback, analyzeSlideImageWithLayoutDetection. cbv zeta.
  fold layout. cbn [fst textElements].
  destruct (Nat.ltb 0 (length (ld_regions layout))); reflexivity.
Qed.

End OrchestratorProperties.

Lemma primary_mode_fallback_witness :
  textElements
    (analysis (@performHybridDetection unit scenario5 tt 1920 1080
                                       true true false))
  = [plainElement "Hello" 1 1 2 0.5 (Some 90)]
  /\ textElements
       (analysis (@performHybridDetection unit scenario5 tt 1920 1080
                                          true true true))
     = [plainElement "Hello" 1 1 2 0.5 (Some 90)].
Proof.
  destruct (@primary_mode_fallback unit scenario5 tt 1920 1080)
    as (Hcraft & Hdbnet & _).
  destruct (Hcraft (or_introl eq_refl)) as [_ ->].
  destruct (Hdbnet (or_introl eq_refl)) as [_ ->].
  split; vm_compute; reflexivity.
Defined.

(** * Further properties *)

(** ** Coordinate conversion and validation *)

Lemma eqb_false (a b : number) : eqb a b = false <-> ~ a == b.
Proof.
  unfold eqb. rewrite <- not_true_iff_false, Qeq_bool_iff. reflexivity.
Qed.

(** Scaling by [S / W], as [pixelsToInches] and [inchesToPixels] do it, is
    monotone. *)
Lemma scale_mono (p q W S : Q) :
  0 < W -> 0 <= S -> p <= q -> p / W * S <= q / W * S.
Proof.
  intros HW HS Hpq. apply Qmult_le_compat_r; [|exact HS].
  unfold Qdiv. apply Qmult_le_compat_r; [exact Hpq|].
  apply Qlt_le_weak, Qinv_lt_0_compat, HW.
Qed.

Lemma scale_zero (W S : Q) : 0 / W * S == 0.
Proof. unfold Qdiv. rewrite !Qmult_0_l. reflexivity. Qed.

Lemma scale_full (W S : Q) : 0 < W -> W / W * S == S.
Proof. intros HW. field. lra. Qed.

(** A value in [[0, W]] is scaled into [[0, S]]. *)
Lemma scale_range (p W S : Q) :
  0 < W -> 0 <= S -> 0 <= p <= W -> 0 <= p / W * S <= S.
Proof.
  intros HW HS [H0 H1]. split.
  - rewrite <- (scale_zero W S). apply scale_mono; assumption.
  - rewrite <- (scale_full W S HW) at 2. apply scale_mono; assumption.
Qed.

Lemma pixelsToInches_scale (p W S : number) :
  0 < W -> pixelsToInches p W S == p / W * S.
Proof.
  intros HW. unfold pixelsToInches.
  destruct (eqb W 0) eqn:E; [apply eqb_spec in E; lra | reflexivity].
Qed.

Lemma inchesToPixels_scale (p W S : number) :
  0 < W -> inchesToPixels p W S == p / W * S.
Proof.
  intros HW. unfold inchesToPixels.
  destruct (eqb W 0) eqn:E; [apply eqb_spec in E; lra | reflexivity].
Qed.

Lemma pixelsToInches_mono (p q W S : number) :
  0 < W -> 0 <= S -> p <= q -> pixelsToInches p W S <= pixelsToInches q W S.
Proof.
  intros HW HS Hpq. rewrite !pixelsToInches_scale by assumption.
  apply scale_mono; assumption.
Qed.

Lemma pixelsToInches_range (p W S : number) :
  0 < W -> 0 <= S -> 0 <= p <= W -> 0 <= pixelsToInches p W S <= S.
Proof.
  intros HW HS Hp. rewrite pixelsToInches_scale by assumption.
  apply scale_range; assumption.
Qed.

(** X1.  Both conversions are monotone and map the whole source range
    onto the target range: for sizes above 0, [pixelsToInches] sends 0 to
    0, the image size to the slide size, a larger pixel value to an inch
    value that is not smaller, and so every pixel value of the image to an
    inch value of the slide; [inchesToPixels] does the same from the slide
    to the image.  With a size of 0 to divide by, each returns 0. *)
Theorem conversion_within_range (v v' imageSize slideSize : number) :
  (0 < imageSize -> 0 < slideSize ->
   pixelsToInches 0 imageSize slideSize == 0
   /\ pixelsToInches imageSize imageSize slideSize == slideSize
   /\ (v <= v' ->
       pixelsToInches v imageSize slideSize
       <= pixelsToInches v' imageSize slideSize)
   /\ (0 <= v <= imageSize ->
       0 <= pixelsToInches v imageSize slideSize <= slideSize)
   /\ inchesToPixels 0 slideSize imageSize == 0
   /\ inchesToPixels slideSize slideSize imageSize == imageSize
   /\ (v <= v' ->
       inchesToPixels v slideSize imageSize
       <= inchesToPixels v' slideSize imageSize)
   /\ (0 <= v <= slideSize ->
       0 <= inchesToPixels v slideSize imageSize <= imageSize))
  /\ pixelsToInches v 0 slideSize = 0
  /\ inchesToPixels v 0 imageSize = 0.
Proof.
  split; [|split; reflexivity].
  intros Hi Hs.
  split; [rewrite pixelsToInches_scale by assumption; apply scale_zero|].
  split; [rewrite pixelsToInches_scale by assumption;
          apply scale_full; assumption|].
  split; [intros H; apply pixelsToInches_mono; lra|].
  split; [intros H; apply pixelsToInches_range; lra|].
  split; [rewrite inchesToPixels_scale by assumption; apply scale_zero|].
  split; [rewrite inchesToPixels_scale by assumption;
          apply scale_full; assumption|].
  split.
  - intros H. rewrite !inchesToPixels_scale by assumption.
    apply scale_mono; lra.
  - intros H. rewrite inchesToPixels_scale by assumption.
    apply scale_range; lra.
Qed.

Lemma conversion_within_range_witness :
  pixelsToInches 1920 1920 10 == 10
  /\ pixelsToInches 960 1920 10 <= pixelsToInches 1919 1920 10
  /\ (0 <= pixelsToInches 1919 1920 10 <= 10).
Proof.
  destruct (conversion_within_range 960 1919 1920 10) as [H _].
  destruct H as (_ & Hfull & Hmono & _); [vm_compute; reflexivity..|].
  destruct (conversion_within_range 1919 1919 1920 10) as [H _].
  destruct H as (_ & _ & _ & Hrange & _); [vm_compute; reflexivity..|].
  split; [exact Hfull|]. split.
  - apply Hmono. vm_compute. discriminate.
  - apply Hrange. split; vm_compute; discriminate.
Defined.

(** X2.  [clampCoordinates] with its default canvas is
    [clampToSlideBounds]; for every canvas it is idempotent; and for a
    canvas of non-negative size its result starts on the canvas and is at
    least 0.1 wide and high, each extent being at most the room the code
    computes after the origin, [maxWidth - x] and [maxHeight - y], unless
    it is the 0.1 minimum. *)
Theorem clampCoordinates_spec (x y width height maxWidth maxHeight : number) :
  clampCoordinates x y width height 10 5.625
  = clampToSlideBounds x y width height
  /\ (let r := clampCoordinates x y width height maxWidth maxHeight in
      clampCoordinates (BoundingBox.x r) (BoundingBox.y r)
                       (BoundingBox.width r) (BoundingBox.height r)
                       maxWidth maxHeight = r)
  /\ (0 <= maxWidth -> 0 <= maxHeight ->
      let r := clampCoordinates x y width height maxWidth maxHeight in
      (0 <= BoundingBox.x r <= maxWidth) /\ (0 <= BoundingBox.y r <= maxHeight)
      /\ 0.1 <= BoundingBox.width r /\ 0.1 <= BoundingBox.height r
      /\ (BoundingBox.width r <= maxWidth - BoundingBox.x r
          \/ BoundingBox.width r == 0.1)
      /\ (BoundingBox.height r <= maxHeight - BoundingBox.y r
          \/ BoundingBox.height r == 0.1)).
Proof.
  split; [reflexivity|]. split.
  - unfold clampCoordinates. slide_consts. rewrite !clamp_again. reflexivity.
  - intros Hw Hh. unfold clampCoordinates. slide_consts.
    cbn [BoundingBox.x BoundingBox.y BoundingBox.width BoundingBox.height].
    set (cx := Qmax 0 (Qmin x maxWidth)). set (cy := Qmax 0 (Qmin y maxHeight)).
    split; [split; [apply Q.le_max_l|]|].
    { unfold cx. apply Q.max_lub; [exact Hw|apply Q.le_min_r]. }
    split; [split; [apply Q.le_max_l|]|].
    { unfold cy. apply Q.max_lub; [exact Hh|apply Q.le_min_r]. }
    split; [apply Q.le_max_l|]. split; [apply Q.le_max_l|]. split.
    + destruct (Q.max_spec 0.1 (Qmin width (maxWidth - cx))) as [[_ ->]|[_ ->]];
        [left; apply Q.le_min_r|right; reflexivity].
    + destruct (Q.max_spec 0.1 (Qmin height (maxHeight - cy)))
        as [[_ ->]|[_ ->]];
        [left; apply Q.le_min_r|right; reflexivity].
Qed.

Lemma clampCoordinates_spec_witness :
  let r := clampCoordinates 25 (-3) 4 1 20 11.25 in
  BoundingBox.x r == 20 /\ BoundingBox.y r == 0
  /\ BoundingBox.width r == 0.1 /\ BoundingBox.height r == 1
  /\ (0 <= BoundingBox.x r <= 20).
Proof.
  intros r.
  destruct (clampCoordinates_spec 25 (-3) 4 1 20 11.25) as (_ & _ & H).
  destruct H as (Hx & _); [vm_compute; discriminate..|].
  repeat split; try (vm_compute; reflexivity); apply Hx.
Defined.

Lemma flag_warnings (c : bool) (w : InchWarning) (v : InchValidation) :
  (isValid v = true <-> warnings v = []) ->
  (isValid (flag c w v) = true <-> warnings (flag c w v) = []).
Proof.
  intros H. destruct c; [|exact H]. simpl. split; [discriminate|].
  intros E. apply app_eq_nil in E as [_ E]. discriminate.
Qed.

Lemma validateInchCoordinates_iff (x y w h : number) :
  isValid (validateInchCoordinates x y w h) = true <-> inchBounds x y w h.
Proof.
  unfold validateInchCoordinates, inchBounds. slide_consts. cbv zeta.
  rewrite !flag_isValid. cbn [isValid].
  rewrite !andb_true_iff, !negb_true_iff, !orb_false_iff,
    !ltb_false, !gtb_false, !leb_false.
  tauto.
Qed.

(** X3.  [validateInchCoordinates] accepts a rectangle exactly when it has
    no warning for it, and exactly when the origin is on the slide, the
    extents are positive and at most the slide's, and the rectangle ends
    on the slide. *)
Theorem validateInchCoordinates_spec (x y w h : number) :
  (isValid (validateInchCoordinates x y w h) = true <-> inchBounds x y w h)
  /\ (isValid (validateInchCoordinates x y w h) = true
      <-> warnings (validateInchCoordinates x y w h) = []).
Proof.
  split; [apply validateInchCoordinates_iff|].
  unfold validateInchCoordinates. cbv zeta.
  repeat apply flag_warnings. simpl. tauto.
Qed.

Lemma validateInchCoordinates_spec_witness :
  isValid (validateInchCoordinates 1 1 2 0.5) = true
  /\ warnings (validateInchCoordinates 1 1 2 0.5) = []
  /\ ~ inchBounds 9.5 1 1 1.
Proof.
  destruct (validateInchCoordinates_spec 1 1 2 0.5) as [Hb Hw].
  destruct (validateInchCoordinates_spec 9.5 1 1 1) as [Hb' _].
  assert (E : isValid (validateInchCoordinates 1 1 2 0.5) = true).
  { apply Hb. unfold inchBounds. lra. }
  split; [exact E|]. split; [apply Hw, E|].
  intros C. apply Hb' in C. vm_compute in C. discriminate.
Defined.

(** X4.  [clampToSlideBounds] agrees with [validateInchCoordinates]: a
    rectangle that the validator accepts and whose extents are at least
    0.1 keeps its origin, and its extents are not enlarged and stay at
    least 0.1; and a clamped rectangle is accepted whenever its origin
    leaves room for the 0.1 minimum (x at most 9.9 and y at most 5.525). *)
Theorem clamp_and_validate (x y w h : number) :
  (isValid (validateInchCoordinates x y w h) = true ->
   0.1 <= w -> 0.1 <= h ->
   let r := clampToSlideBounds x y w h in
   BoundingBox.x r == x /\ BoundingBox.y r == y
   /\ (0.1 <= BoundingBox.width r <= w) /\ (0.1 <= BoundingBox.height r <= h))
  /\ (let r := clampToSlideBounds x y w h in
      BoundingBox.x r <= 9.9 -> BoundingBox.y r <= 5.525 ->
      isValid (validateInchCoordinates (BoundingBox.x r) (BoundingBox.y r)
                 (BoundingBox.width r) (BoundingBox.height r)) = true).
Proof.
  split.
  - intros Hv Hw Hh. apply validateInchCoordinates_iff in Hv.
    unfold inchBounds in Hv. unfold clampToSlideBounds. slide_consts.
    cbv zeta.
    cbn [BoundingBox.x BoundingBox.y BoundingBox.width BoundingBox.height].
    repeat split; minmax_lra.
  - intros r Hx Hy. apply validateInchCoordinates_iff.
    pose proof (clampToSlideBounds_bounds x y w h) as B. cbv zeta in B.
    fold r in B. unfold inchBounds. lra.
Qed.

Lemma clamp_and_validate_witness :
  BoundingBox.x (clampToSlideBounds 1 1 2 0.5) == 1
  /\ BoundingBox.width (clampToSlideBounds 1 1 2 0.5) <= 2
  /\ isValid (validateInchCoordinates 9.9 0 0.1 1) = true.
Proof.
  destruct (clamp_and_validate 1 1 2 0.5) as [Hfix _].
  destruct (clamp_and_validate 9.9 (-4) 5 1) as [_ Hval].
  destruct Hfix as (Hx & _ & [_ Hw] & _);
    [vm_compute; try reflexivity; discriminate..|].
  split; [exact Hx|]. split; [exact Hw|].
  apply Hval; vm_compute; discriminate.
Defined.

Lemma pixelErrors_nil (x y w h : number) (d : ImageDimensions.t) :
  pixelErrors x y w h d = [] <->
  (0 <= x <= ImageDimensions.width d) /\ (0 <= y <= ImageDimensions.height d)
  /\ (0 < w <= ImageDimensions.width d) /\ (0 < h <= ImageDimensions.height d)
  /\ x + w <= ImageDimensions.width d /\ y + h <= ImageDimensions.height d.
Proof.
  unfold pixelErrors.
  assert (Hif : forall (c : bool) (e : PixelWarning),
             (if c then [e] else []) = [] <-> c = false)
    by (intros [] e; split; intros; congruence).
  rewrite !app_nil, !Hif, !orb_false_iff, !ltb_false, !gtb_false, !leb_false.
  tauto.
Qed.

(** X5.  [validatePixelCoordinates] accepts a pixel rectangle exactly when
    its origin is in the image, its extents are positive and at most the
    image's, and it ends in the image; the two size hints (very small,
    very large) are then its only warnings and never make a rectangle
    invalid.  Of the inch coordinates it returns for an accepted
    rectangle, the origin lies on the slide and each extent is between 0
    and the slide's. *)
Theorem validatePixelCoordinates_spec (x y w h : number)
    (imageDims : ImageDimensions.t) :
  let v := validatePixelCoordinates x y w h imageDims in
  (CoordinateValidation.isValid v = true <->
   (0 <= x <= ImageDimensions.width imageDims)
   /\ (0 <= y <= ImageDimensions.height imageDims)
   /\ (0 < w <= ImageDimensions.width imageDims)
   /\ (0 < h <= ImageDimensions.height imageDims)
   /\ x + w <= ImageDimensions.width imageDims
   /\ y + h <= ImageDimensions.height imageDims)
  /\ (CoordinateValidation.isValid v = true ->
      CoordinateValidation.warnings v = pixelHints w h imageDims
      /\ (0 <= BoundingBox.x (CoordinateValidation.inchCoords v) <= 10)
      /\ (0 <= BoundingBox.y (CoordinateValidation.inchCoords v) <= 5.625)
      /\ (0 <= BoundingBox.width (CoordinateValidation.inchCoords v) <= 10)
      /\ (0 <= BoundingBox.height (CoordinateValidation.inchCoords v)
          <= 5.625)).
Proof.
  intros v.
  assert (Hiff : CoordinateValidation.isValid v = true <->
                 pixelErrors x y w h imageDims = []).
  { unfold v, validatePixelCoordinates. cbv zeta.
    cbn [CoordinateValidation.isValid].
    rewrite Nat.eqb_eq, length_zero_iff_nil. reflexivity. }
  split; [rewrite Hiff; apply pixelErrors_nil|].
  intros Hv. apply Hiff in Hv as He. split.
  { unfold v, validatePixelCoordinates. cbv zeta.
    cbn [CoordinateValidation.warnings]. rewrite He. reflexivity. }
  apply pixelErrors_nil in He.
  destruct He as (Hx & Hy & Hw & Hh & Hxw & Hyh).
  unfold v, validatePixelCoordinates. cbv zeta.
  cbn [CoordinateValidation.inchCoords BoundingBox.x BoundingBox.y
       BoundingBox.width BoundingBox.height]. slide_consts.
  set (W := ImageDimensions.width imageDims) in *.
  set (H := ImageDimensions.height imageDims) in *.
  split; [apply scale_range; lra|]. split; [apply scale_range; lra|].
  split; apply scale_range; lra.
Qed.

Lemma validatePixelCoordinates_spec_witness :
  let v := validatePixelCoordinates 100 100 3 40 (ImageDimensions.mk 1920 1080) in
  CoordinateValidation.isValid v = true
  /\ CoordinateValidation.warnings v = [VerySmall 3 40].
Proof.
  intros v.
  destruct (validatePixelCoordinates_spec 100 100 3 40
              (ImageDimensions.mk 1920 1080)) as [Hiff Hval].
  fold v in Hiff, Hval.
  assert (E : CoordinateValidation.isValid v = true)
    by (apply Hiff; cbn; lra).
  split; [exact E|]. destruct (Hval E) as [-> _]. reflexivity.
Defined.



(** ** Parsing detections *)





(** X8.  An element that the region OCR builds never starts before its
    region and is never smaller than 10 pixels: on an image of positive
    size its origin is at or after the region's origin, scaled to the
    slide, and, for a region of non-negative size, at or before the
    region's far corner scaled in the same way; its extents are at least
    those of 10 pixels.  On a 1920 x 1080 image the element so starts at
    or after the left and top edges that [findContainingRegion] uses for
    the region. *)
Theorem parseRegionTextElement_start (region : LayoutRegion.t)
    (imageWidth imageHeight : number) (text : RawText) :
  0 < imageWidth -> 0 < imageHeight ->
  let e := parseRegionTextElement region imageWidth imageHeight text in
  pixelsToInches (LayoutRegion.x region) imageWidth 10 <= position_x e
  /\ pixelsToInches (LayoutRegion.y region) imageHeight 5.625 <= position_y e
  /\ pixelsToInches 10 imageWidth 10 <= width e
  /\ pixelsToInches 10 imageHeight 5.625 <= height e
  /\ (0 <= LayoutRegion.width region ->
      position_x e
      <= pixelsToInches (LayoutRegion.x region + LayoutRegion.width region)
                        imageWidth 10)
  /\ (0 <= LayoutRegion.height region ->
      position_y e
      <= pixelsToInches (LayoutRegion.y region + LayoutRegion.height region)
                        imageHeight 5.625)
  /\ (imageWidth = 1920 -> regionXInches region <= position_x e)
  /\ (imageHeight = 1080 -> regionYInches region <= position_y e).
Proof.
  intros HW HH e. unfold e, parseRegionTextElement. cbv zeta.
  cbn [position_x position_y width height].
  assert (S10 : (0 : Q) <= 10) by lra.
  assert (S5 : (0 : Q) <= 5.625) by lra.
  split; [apply pixelsToInches_mono; [assumption..|apply Q.le_max_l]|].
  split; [apply pixelsToInches_mono; [assumption..|apply Q.le_max_l]|].
  split; [apply pixelsToInches_mono; [assumption..|apply Q.le_max_l]|].
  split; [apply pixelsToInches_mono; [assumption..|apply Q.le_max_l]|].
  split.
  { intros Hrw. apply pixelsToInches_mono; [assumption..|].
    apply Q.max_lub; [lra|apply Q.le_min_r]. }
  split.
  { intros Hrh. apply pixelsToInches_mono; [assumption..|].
    apply Q.max_lub; [lra|apply Q.le_min_r]. }
  split.
  - intros ->. unfold regionXInches, SLIDE_WIDTH.
    rewrite <- (pixelsToInches_scale (LayoutRegion.x region) 1920 10)
      by reflexivity.
    apply pixelsToInches_mono; [reflexivity|assumption|apply Q.le_max_l].
  - intros ->. unfold regionYInches, SLIDE_HEIGHT.
    rewrite <- (pixelsToInches_scale (LayoutRegion.y region) 1080 5.625)
      by reflexivity.
    apply pixelsToInches_mono; [reflexivity|assumption|apply Q.le_max_l].
Qed.

Lemma parseRegionTextElement_start_witness :
  let region := plainRegion 100 100 400 200 in
  let text :=
    {| raw_content := Some "Body"; raw_x := Some 480; raw_y := None;
       raw_width := Some 300; raw_height := None;
       raw_fontFamily := None; raw_fontSize := None; raw_fontColor := None;
       raw_isBold := None; raw_isItalic := None; raw_isUnderline := None;
       raw_confidence := None |} in
  regionXInches region
  <= position_x (parseRegionTextElement region 1920 1080 text)
  /\ regionYInches region
     <= position_y (parseRegionTextElement region 1920 1080 text).
Proof.
  intros region text.
  destruct (parseRegionTextElement_start region 1920 1080 text)
    as (_ & _ & _ & _ & _ & _ & Hx & Hy); try reflexivity.
  split; [apply Hx|apply Hy]; reflexivity.
Defined.

(** ** Placement in regions *)

Ltac bool_facts :=
  repeat match goal with
  | H : _ && _ = true |- _ => apply andb_true_iff in H; destruct H
  | H : _ || _ = false |- _ => apply orb_false_iff in H; destruct H
  | H : geb _ _ = true |- _ => apply geb_spec in H
  | H : geb _ _ = false |- _ => apply geb_false in H
  | H : gtb _ _ = true |- _ => apply gtb_spec in H
  | H : gtb _ _ = false |- _ => apply gtb_false in H
  | H : leb _ _ = true |- _ => apply leb_spec in H
  | H : leb _ _ = false |- _ => apply leb_false in H
  | H : ltb _ _ = true |- _ => apply ltb_spec in H
  | H : ltb _ _ = false |- _ => apply ltb_false in H
  end.

Lemma normalizeWithinRegion_sameContent (e : DetectedTextElement)
    (r : LayoutRegion.t) : sameContent (normalizeWithinRegion e r) e.
Proof. reflexivity. Qed.

(** X10.  Normalizing twice is the same as normalizing once for an
    element that is at least 0.1 wide and high, in every region: along an
    axis on which the element's extent is at least 0.1, the second
    normalization returns the position and the extent of the first.
    Content and style are the element's own both times. *)
Theorem normalizeWithinRegion_idempotent (e : DetectedTextElement)
    (r : LayoutRegion.t) :
  let e1 := normalizeWithinRegion e r in
  let e2 := normalizeWithinRegion e1 r in
  (0.1 <= width e -> position_x e2 == position_x e1 /\ width e2 == width e1)
  /\ (0.1 <= height e ->
      position_y e2 == position_y e1 /\ height e2 == height e1)
  /\ (0.1 <= width e -> 0.1 <= height e -> sameBox (boxOf e2) (boxOf e1))
  /\ sameContent e2 e.
Proof.
  intros e1 e2.
  assert (Hx : 0.1 <= width e ->
               position_x e2 == position_x e1 /\ width e2 == width e1).
  { intros Hw. unfold e2, e1, normalizeWithinRegion. cbv zeta.
    cbn [position_x position_y width height withGeometry]. revert Hw.
    generalize (regionXInches r) (regionWidthInches r) (position_x e)
      (width e).
    intros rx rw ex ew Hw. split; minmax_lra. }
  assert (Hy : 0.1 <= height e ->
               position_y e2 == position_y e1 /\ height e2 == height e1).
  { intros Hh. unfold e2, e1, normalizeWithinRegion. cbv zeta.
    cbn [position_x position_y width height withGeometry]. revert Hh.
    generalize (regionYInches r) (regionHeightInches r) (position_y e)
      (height e).
    intros ry rh ey eh Hh. split; minmax_lra. }
  split; [exact Hx|]. split; [exact Hy|]. split; [|reflexivity].
  intros Hw Hh. destruct (Hx Hw) as [X1 X2]. destruct (Hy Hh) as [Y1 Y2].
  unfold sameBox, boxOf.
  cbn [BoundingBox.x BoundingBox.y BoundingBox.width BoundingBox.height].
  auto.
Qed.

Lemma normalizeWithinRegion_idempotent_witness :
  let region := plainRegion 187 418 1074 513 in
  let e := plainElement "wide" 4.81 2.9 2.47 0.42 None in
  sameBox (boxOf (normalizeWithinRegion (normalizeWithinRegion e region) region))
          (boxOf (normalizeWithinRegion e region)).
Proof.
  intros region e.
  destruct (normalizeWithinRegion_idempotent e region) as (_ & _ & H & _).
  apply H; vm_compute; discriminate.
Defined.

Lemma alignElement_sameContent (e : DetectedTextElement)
    (regions : list LayoutRegion.t) : sameContent (alignElement e regions) e.
Proof.
  unfold alignElement. destruct (findContainingRegion e regions); [|reflexivity].
  cbv zeta.
  repeat match goal with
  | |- context [if ?c then _ else _] => destruct c
  end; reflexivity.
Qed.

Lemma sameContent_trans (a b c : DetectedTextElement) :
  sameContent a b -> sameContent b c -> sameContent a c.
Proof. unfold sameContent. congruence. Qed.

(** X11.  Normalization followed by alignment returns one element per
    input element, in the same order, and changes nothing of an element
    but its position and size: content, style, confidence and source tags
    are carried over, and no element is dropped. *)
Theorem placement_preserves_content (textElements : list DetectedTextElement)
    (regions : list LayoutRegion.t) :
  let placed :=
    alignElementsWithinRegions (normalizeCoordinates textElements regions)
                               regions in
  length placed = length textElements
  /\ Forall2 sameContent placed textElements.
Proof.
  cbv zeta. unfold alignElementsWithinRegions, normalizeCoordinates.
  rewrite !length_map. split; [reflexivity|].
  induction textElements as [|e es IH]; simpl; constructor; [|exact IH].
  eapply sameContent_trans; [apply alignElement_sameContent|].
  destruct (findContainingRegion e regions);
    [apply normalizeWithinRegion_sameContent | reflexivity].
Qed.

Lemma assessPlacementQuality_spec (e : DetectedTextElement)
    (r : LayoutRegion.t) :
  let q := assessPlacementQuality e r in
  (q = excellent \/ q = good ->
   insideRegion e r /\ 75 < LayoutRegion.confidence r)
  /\ (q = excellent ->
      90 < LayoutRegion.confidence r
      /\ regionXInches r + 0.05 < position_x e
      /\ regionYInches r + 0.05 < position_y e
      /\ position_x e + width e
         < regionXInches r + regionWidthInches r - 0.05
      /\ position_y e + height e
         < regionYInches r + regionHeightInches r - 0.05)
  /\ (insideRegion e r -> 75 < LayoutRegion.confidence r ->
      q = excellent \/ q = good)
  /\ (q = poor ->
      ~ (regionXInches r <= position_x e
         /\ position_x e + width e <= regionXInches r + regionWidthInches r)
      /\ ~ (regionYInches r <= position_y e
            /\ position_y e + height e
               <= regionYInches r + regionHeightInches r)).
Proof.
  unfold assessPlacementQuality, insideRegion. cbv zeta.
  set (rx := regionXInches r). set (ry := regionYInches r).
  set (rw := regionWidthInches r). set (rh := regionHeightInches r).
  destruct (geb (position_x e) rx) eqn:B1;
    destruct (leb (position_x e + width e) (rx + rw)) eqn:B2;
    destruct (geb (position_y e) ry) eqn:B3;
    destruct (leb (position_y e + height e) (ry + rh)) eqn:B4;
    destruct (gtb (LayoutRegion.confidence r) 75) eqn:B5;
    destruct (gtb (LayoutRegion.confidence r) 90) eqn:B6;
    destruct (gtb (position_x e) (rx + 0.05)) eqn:B7;
    destruct (gtb (position_y e) (ry + 0.05)) eqn:B8;
    destruct (ltb (position_x e + width e) (rx + rw - 0.05)) eqn:B9;
    destruct (ltb (position_y e + height e) (ry + rh - 0.05)) eqn:B10;
    cbn [andb orb]; bool_facts;
    (split; [intros [C|C]; try discriminate C; repeat split; lra|]);
    (split; [intros C; try discriminate C; repeat split; lra|]);
    (split; [intros C1 C2; first [left; reflexivity | right; reflexivity
                                 | exfalso; lra]|]);
    (intros C; try discriminate C; split; intros [? ?]; lra).
Qed.

(** X12.  Placement scoring returns one record per element, in order, and
    never drops one.  An element in no region is rated poor against the
    whole-slide placeholder region.  An element with a region is rated
    excellent or good exactly when it lies fully in the region and the
    region's confidence exceeds 75; excellent needs a confidence above 90
    and margins of more than 0.05 on all four sides; it is rated poor only
    if it overflows the region both horizontally and vertically. *)
Theorem computePlacementQuality_spec (textElements : list DetectedTextElement)
    (regions : list LayoutRegion.t) :
  length (computePlacementQuality textElements regions) = length textElements
  /\ forall i e, textElements !! i = Some e ->
       exists p,
         computePlacementQuality textElements regions !! i = Some p
         /\ lap_element p = e
         /\ (findContainingRegion e regions = None ->
             lap_region p = wholeSlideRegion /\ placementQuality p = poor)
         /\ (forall r, findContainingRegion e regions = Some r ->
               lap_region p = r
               /\ (placementQuality p = excellent \/ placementQuality p = good
                   <-> insideRegion e r /\ 75 < LayoutRegion.confidence r)
               /\ (placementQuality p = excellent ->
                   90 < LayoutRegion.confidence r
                   /\ regionXInches r + 0.05 < position_x e
                   /\ regionYInches r + 0.05 < position_y e
                   /\ position_x e + width e
                      < regionXInches r + regionWidthInches r - 0.05
                   /\ position_y e + height e
                      < regionYInches r + regionHeightInches r - 0.05)
               /\ (placementQuality p = poor ->
                   ~ (regionXInches r <= position_x e
                      /\ position_x e + width e
                         <= regionXInches r + regionWidthInches r)
                   /\ ~ (regionYInches r <= position_y e
                         /\ position_y e + height e
                            <= regionYInches r + regionHeightInches r))).
Proof.
  unfold computePlacementQuality. split; [apply length_map|].
  intros i e Hi. rewrite list_lookup_fmap, Hi. simpl.
  eexists. split; [reflexivity|].
  destruct (findContainingRegion e regions) as [r0|] eqn:F; simpl.
  - split; [reflexivity|]. split; [discriminate|].
    intros r [= <-].
    pose proof (assessPlacementQuality_spec e r0) as Q. cbv zeta in Q.
    destruct Q as (Q1 & Q2 & Q3 & Q4).
    split; [reflexivity|]. split; [|split; assumption].
    split; [exact Q1 | intros [? ?]; apply Q3; assumption].
  - split; [reflexivity|]. split; [intros _; split; reflexivity|].
    intros r C. discriminate C.
Qed.

Lemma computePlacementQuality_spec_witness :
  let slide := LayoutRegion.mk title 0 0 1920 1080 95 true None None None in
  let e := plainElement "Title" 1 1 2 0.5 (Some 90) in
  exists p, computePlacementQuality [e] [slide] !! 0%nat = Some p
            /\ placementQuality p = excellent /\ insideRegion e slide.
Proof.
  intros slide e.
  destruct (computePlacementQuality_spec [e] [slide]) as [_ H].
  destruct (H 0%nat e eq_refl) as (p & Hp & _ & _ & Hr).
  destruct (Hr slide ltac:(vm_compute; reflexivity)) as (_ & Hq & _).
  exists p. split; [exact Hp|].
  assert (Q : placementQuality p = excellent).
  { vm_compute in Hp. injection Hp as <-. reflexivity. }
  split; [exact Q|]. apply Hq. left. exact Q.
Defined.

(** ** Enrichment *)

Lemma enrichOne_spec (c : DetectedTextElement)
    (claude : list DetectedTextElement) (thr : number) :
  (Forall (fun a => calculateIoU (boxOf c) (boxOf a) < thr) claude
   /\ enrichOne c claude thr = c)
  \/ exists pre a post,
       claude = pre ++ a :: post
       /\ Forall (fun a' => calculateIoU (boxOf c) (boxOf a') < thr) pre
       /\ thr <= calculateIoU (boxOf c) (boxOf a)
       /\ enrichOne c claude thr = withContentOf c a.
Proof.
  induction claude as [|a0 claude IH]; simpl.
  - left. split; [constructor | reflexivity].
  - destruct (geb (calculateIoU (boxOf c) (boxOf a0)) thr) eqn:G.
    + apply geb_spec in G. right. exists [], a0, claude.
      split; [reflexivity|]. split; [constructor|]. split; [exact G|reflexivity].
    + apply geb_false in G. destruct IH as [[Hall E]|(pre & a & post & E & Hpre & Ha & Hr)].
      * left. split; [constructor; assumption | exact E].
      * right. exists (a0 :: pre), a, post.
        split; [rewrite E; reflexivity|].
        split; [constructor; assumption|]. split; assumption.
Qed.

Lemma enrichOne_sameGeometry (c : DetectedTextElement)
    (claude : list DetectedTextElement) (thr : number) :
  sameGeometry (enrichOne c claude thr) c.
Proof.
  destruct (enrichOne_spec c claude thr)
    as [[_ ->]|(pre & a & post & _ & _ & _ & ->)]; split; reflexivity.
Qed.

(** X13.  Enrichment returns one element per B element, in order, each
    with the rectangle, confidence and source tag of its B element.  Its
    text and style are those of the first A element whose IoU with the B
    element reaches the threshold; when no A element does, the B element
    is returned as it is.  A elements are not consumed. *)
Theorem enrich_spec (craftElements claudeElements : list DetectedTextElement)
    (overlapThreshold : number) :
  length (enrichCraftElementsWithClaudeOCR craftElements claudeElements
                                           overlapThreshold)
  = length craftElements
  /\ forall i c, craftElements !! i = Some c ->
       exists e,
         enrichCraftElementsWithClaudeOCR craftElements claudeElements
                                          overlapThreshold !! i = Some e
         /\ boxOf e = boxOf c
         /\ confidence_score e = confidence_score c
         /\ detection_source e = detection_source c
         /\ ((Forall (fun a => calculateIoU (boxOf c) (boxOf a)
                               < overlapThreshold) claudeElements
              /\ e = c)
             \/ exists pre a post,
                  claudeElements = pre ++ a :: post
                  /\ Forall (fun a' => calculateIoU (boxOf c) (boxOf a')
                                       < overlapThreshold) pre
                  /\ overlapThreshold <= calculateIoU (boxOf c) (boxOf a)
                  /\ content e = content a
                  /\ (font_family e, font_size e, font_color e)
                     = (font_family a, font_size a, font_color a)
                  /\ (is_bold e, is_italic e, is_underline e)
                     = (is_bold a, is_italic a, is_underline a)
                  /\ align e = align a).
Proof.
  unfold enrichCraftElementsWithClaudeOCR. split; [apply length_map|].
  intros i c Hi. rewrite list_lookup_fmap, Hi. simpl.
  eexists. split; [reflexivity|].
  destruct (enrichOne_spec c claudeElements overlapThreshold)
    as [[Hall E]|(pre & a & post & E & Hpre & Ha & Hr)].
  - rewrite E. repeat (split; [reflexivity|]). left. split; [exact Hall|reflexivity].
  - rewrite Hr. repeat (split; [reflexivity|]). right.
    exists pre, a, post. repeat (split; [assumption || reflexivity|]).
    reflexivity.
Qed.

Lemma enrich_spec_witness :
  let a := plainElement "Hello" 100 100 200 40 (Some 90) in
  let b := plainElement "[Text 1]" 105 102 190 38 (Some 95) in
  exists e, enrichCraftElementsWithClaudeOCR [b] [a] 0.3 !! 0%nat = Some e
            /\ boxOf e = boxOf b /\ content e = "Hello".
Proof.
  intros a b.
  destruct (enrich_spec [b] [a] 0.3) as [_ H].
  destruct (H 0%nat b eq_refl) as (e & He & Hbox & _ & _ & _).
  exists e. split; [exact He|]. split; [exact Hbox|].
  vm_compute in He. injection He as <-. reflexivity.
Defined.

Lemma scanCraft_sameGeometry (a : DetectedTextElement) (M : gset nat)
    (thr : number) (rest rest' : list DetectedTextElement) (i : nat)
    (best : option BestMatch) :
  Forall2 sameGeometry rest' rest ->
  scanCraft a M thr i rest' best = scanCraft a M thr i rest best.
Proof.
  intros H. revert i best.
  induction H as [|c' c rest' rest [Hbox _] _ IH]; intros i best; simpl;
    [reflexivity|].
  rewrite Hbox. apply IH.
Qed.

Lemma unmatchedFrom_length (M : gset nat)
    (rest rest' : list DetectedTextElement) (o : nat) :
  length rest' = length rest ->
  length (unmatchedFrom M o rest') = length (unmatchedFrom M o rest).
Proof.
  revert rest' o. induction rest as [|c rest IH]; intros [|c' rest'] o Hlen;
    simpl in *; try discriminate; [reflexivity|].
  injection Hlen as Hlen.
  destruct (decide (o ∈ M)); simpl; rewrite (IH rest' (S o) Hlen); reflexivity.
Qed.

Lemma fuse_sameGeometry (a c c' : DetectedTextElement) :
  sameGeometry c' c -> fuse a c' = fuse a c.
Proof.
  intros [Hbox Hconf]. unfold boxOf in Hbox. injection Hbox as Hx Hy Hw Hh.
  unfold fuse. cbv zeta. rewrite Hx, Hy, Hw, Hh, Hconf. reflexivity.
Qed.

Lemma mergeLoop_sameGeometry (claude craft craft' : list DetectedTextElement)
    (thr : number) (st : MergeState) :
  Forall2 sameGeometry craft' craft ->
  mergeLoop claude craft' thr st = mergeLoop claude craft thr st.
Proof.
  intros H. revert st. induction claude as [|a claude IH]; intros st; simpl;
    [reflexivity|].
  unfold mergeLoop in *. simpl.
  replace (mergeStep craft' thr st a) with (mergeStep craft thr st a);
    [apply IH|].
  unfold mergeStep. rewrite (scanCraft_sameGeometry a _ thr craft craft' 0 None H).
  destruct (scanCraft a (st_matched st) thr 0 craft None) as [bm|] eqn:E;
    [|reflexivity].
  apply scanCraft_index in E as [Hlt _].
  destruct (lookup_lt_is_Some_2 craft (index bm) Hlt) as [c Hc].
  destruct (Forall2_lookup_r _ _ _ _ _ H Hc) as (c' & Hc' & Hg).
  rewrite (list_lookup_total_correct _ _ _ Hc),
    (list_lookup_total_correct _ _ _ Hc'),
    (fuse_sameGeometry a c c' Hg).
  reflexivity.
Qed.

(** X14.  The enrichment pass that the hybrid pipeline runs before the
    merge has no effect on the matching: merging against the enriched B
    list gives the same matched, A-only and B-only counts, the same total,
    and the same element for every A element as merging against the B list
    itself; only B-only elements can carry copied text. *)
Theorem enrich_then_merge (claudeElements craftElements : list DetectedTextElement)
    (enrichThreshold overlapThreshold : number) :
  let enriched :=
    enrichCraftElementsWithClaudeOCR craftElements claudeElements
                                     enrichThreshold in
  let r' := mergeDetections claudeElements enriched overlapThreshold in
  let r := mergeDetections claudeElements craftElements overlapThreshold in
  overlapCount r' = overlapCount r
  /\ claudeOnlyCount r' = claudeOnlyCount r
  /\ craftOnlyCount r' = craftOnlyCount r
  /\ mergedCount r' = mergedCount r
  /\ take (length claudeElements) (mergedElements r')
     = take (length claudeElements) (mergedElements r).
Proof.
  intros enriched r' r.
  assert (H : Forall2 sameGeometry enriched craftElements).
  { unfold enriched, enrichCraftElementsWithClaudeOCR.
    induction craftElements as [|c cs IH]; simpl; constructor;
      [apply enrichOne_sameGeometry | exact IH]. }
  assert (Hlen : length enriched = length craftElements)
    by apply (Forall2_length _ _ _ H).
  assert (E : mergeMatched claudeElements enriched overlapThreshold
              = mergeMatched claudeElements craftElements overlapThreshold)
    by apply (mergeLoop_sameGeometry _ _ _ _ _ H).
  destruct (mergeMatched_inv claudeElements craftElements overlapThreshold)
    as (Hm & _).
  unfold r', r, mergeDetections. cbv zeta.
  cbn [mergedElements claudeOnlyCount craftOnlyCount overlapCount mergedCount].
  rewrite E, Hlen. repeat (split; [reflexivity|]). split.
  - rewrite !length_app, (unmatchedFrom_length _ craftElements enriched 0 Hlen).
    reflexivity.
  - rewrite !take_app_le by lia. reflexivity.
Qed.

(** ** Detection statistics *)

Lemma firstOverlap_Some (a : DetectedTextElement) (M : gset nat)
    (thr : number) (rest : list DetectedTextElement) (i j : nat) :
  firstOverlap a M thr i rest = Some j ->
  (i <= j < i + length rest)%nat /\ (j ∉ M)
  /\ exists b, rest !! (j - i)%nat = Some b
               /\ thr <= calculateIoU (boxOf a) (boxOf b).
Proof.
  revert i. induction rest as [|c rest IH]; intros i; simpl; [discriminate|].
  destruct (decide (i ∈ M)) as [Hin|Hnin].
  - intros H. destruct (IH (S i) H) as (Hr & Hn & b & Hb & Ht).
    split; [lia|]. split; [exact Hn|]. exists b.
    replace (j - i)%nat with (S (j - S i)) by lia. split; assumption.
  - destruct (geb (calculateIoU (boxOf a) (boxOf c)) thr) eqn:G.
    + intros [= <-]. apply geb_spec in G. split; [lia|]. split; [exact Hnin|].
      exists c. rewrite Nat.sub_diag. split; [reflexivity | exact G].
    + intros H. destruct (IH (S i) H) as (Hr & Hn & b & Hb & Ht).
      split; [lia|]. split; [exact Hn|]. exists b.
      replace (j - i)%nat with (S (j - S i)) by lia. split; assumption.
Qed.

Lemma firstOverlap_None_empty (a : DetectedTextElement) (thr : number)
    (rest : list DetectedTextElement) (i : nat) :
  firstOverlap a ∅ thr i rest = None <->
  Forall (fun b => calculateIoU (boxOf a) (boxOf b) < thr) rest.
Proof.
  revert i. induction rest as [|c rest IH]; intros i; simpl.
  - split; [constructor | reflexivity].
  - destruct (decide (i ∈ (∅ : gset nat))) as [Hin|_];
      [apply elem_of_empty in Hin; contradiction|].
    rewrite Forall_cons, <- (IH (S i)), <- geb_false.
    destruct (geb (calculateIoU (boxOf a) (boxOf c)) thr); split;
      [discriminate | intros [C _]; discriminate C | tauto | tauto].
Qed.

Lemma bounded_set_size (M : gset nat) (n : nat) :
  (forall j, j ∈ M -> (j < n)%nat) -> (size M <= n)%nat.
Proof.
  intros H.
  assert (Hsub : M ⊆ set_seq 0 n).
  { intros j Hj. apply elem_of_set_seq. specialize (H j Hj). lia. }
  apply subseteq_size in Hsub. rewrite size_set_seq in Hsub. exact Hsub.
Qed.

Lemma statsLoop_inv (craft : list DetectedTextElement) (thr : number)
    (claude : list DetectedTextElement) (count n : nat) (M : gset nat) :
  (count <= n)%nat -> size M = count ->
  (forall j, j ∈ M -> (j < length craft)%nat) ->
  let '(count', M') := statsLoop craft thr (count, M) claude in
  (count <= count' <= n + length claude)%nat /\ size M' = count'
  /\ (forall j, j ∈ M' -> (j < length craft)%nat).
Proof.
  revert count n M. induction claude as [|a claude IH];
    intros count n M Hc Hs Hb; simpl.
  - split; [lia|]. split; assumption.
  - unfold statsLoop in *. simpl.
    destruct (firstOverlap a M thr 0 craft) as [i|] eqn:F.
    + apply firstOverlap_Some in F as (Hr & Hn & _).
      specialize (IH (S count) (S n) ({[ i ]} ∪ M) ltac:(lia)).
      destruct (foldl _ (S count, {[ i ]} ∪ M) claude) as [count' M'].
      destruct IH as (H1 & H2 & H3).
      * rewrite size_union, size_singleton, Hs; [reflexivity|].
        apply disjoint_singleton_l, Hn.
      * intros j Hj. apply elem_of_union in Hj as [Hj|Hj];
          [apply elem_of_singleton in Hj; lia | apply Hb, Hj].
      * split; [lia|]. split; assumption.
    + specialize (IH count n M Hc Hs Hb).
      destruct (foldl _ (count, M) claude) as [count' M'].
      destruct IH as (H1 & H2 & H3). split; [lia|]. split; assumption.
Qed.

Lemma statsLoop_zero (craft : list DetectedTextElement) (thr : number)
    (claude : list DetectedTextElement) :
  fst (statsLoop craft thr (0%nat, ∅) claude) = 0%nat <->
  noPairReaches claude craft thr.
Proof.
  unfold noPairReaches. induction claude as [|a claude IH].
  - simpl. split; [|reflexivity]. intros _ a b Ha.
    apply elem_of_nil in Ha. contradiction.
  - unfold statsLoop in *. simpl.
    destruct (firstOverlap a ∅ thr 0 craft) as [i|] eqn:F.
    + pose proof (statsLoop_inv craft thr claude 1 1 ({[ i ]} ∪ ∅)
                    ltac:(lia)) as Inv.
      unfold statsLoop in Inv.
      pose proof (firstOverlap_Some _ _ _ _ _ _ F) as (Hr & _ & b & Hb & Ht).
      destruct (foldl _ (1%nat, {[ i ]} ∪ ∅) claude) as [count' M'].
      destruct Inv as ((H1 & _) & _).
      * rewrite size_union, size_singleton, size_empty; [reflexivity|].
        apply disjoint_singleton_l, not_elem_of_empty.
      * intros j Hj. apply elem_of_union in Hj as [Hj|Hj];
          [apply elem_of_singleton in Hj; lia
          | apply elem_of_empty in Hj; contradiction].
      * simpl. split; [lia|]. intros Hno. exfalso.
        assert (calculateIoU (boxOf a) (boxOf b) < thr).
        { apply Hno; [apply list_elem_of_here|].
          apply (list_elem_of_lookup_2 _ _ _ Hb). }
        lra.
    + rewrite IH. apply firstOverlap_None_empty in F.
      rewrite Forall_forall in F. split.
      * intros Hno a0 b Ha Hb. apply elem_of_cons in Ha as [->|Ha];
          [apply F, Hb | apply (Hno a0 b Ha Hb)].
      * intros Hno a0 b Ha Hb. apply Hno; [apply list_elem_of_further, Ha | exact Hb].
Qed.

Lemma calculateDetectionStats_overlap
    (claude craft merged : list DetectedTextElement) (thr : number) :
  ds_overlapCount (calculateDetectionStats claude craft merged thr)
  = Z.of_nat (fst (statsLoop craft thr (0%nat, ∅) claude))
  /\ ds_claudeOnlyCount (calculateDetectionStats claude craft merged thr)
     = (Z.of_nat (length claude)
        - Z.of_nat (fst (statsLoop craft thr (0%nat, ∅) claude)))%Z
  /\ ds_craftOnlyCount (calculateDetectionStats claude craft merged thr)
     = (Z.of_nat (length craft)
        - Z.of_nat (fst (statsLoop craft thr (0%nat, ∅) claude)))%Z
  /\ ds_claudeCount (calculateDetectionStats claude craft merged thr)
     = Z.of_nat (length claude)
  /\ ds_craftCount (calculateDetectionStats claude craft merged thr)
     = Z.of_nat (length craft)
  /\ ds_mergedCount (calculateDetectionStats claude craft merged thr)
     = Z.of_nat (length merged).
Proof.
  unfold calculateDetectionStats, statsLoop.
  destruct (foldl _ (0%nat, ∅) claude) as [count M]. simpl.
  repeat split; reflexivity.
Qed.

Lemma scanCraft_None_empty (a : DetectedTextElement) (thr : number)
    (craft : list DetectedTextElement) :
  scanCraft a ∅ thr 0 craft None = None <->
  Forall (fun b => calculateIoU (boxOf a) (boxOf b) < thr) craft.
Proof.
  pose proof (scanCraft_spec a ∅ thr craft) as H.
  destruct (scanCraft a ∅ thr 0 craft None) as [bm|]; simpl in H.
  - destruct H as (_ & _ & (b & Hb & Hiou) & Hthr & _).
    split; [discriminate|]. intros Hall. exfalso.
    rewrite Forall_forall in Hall.
    specialize (Hall b (list_elem_of_lookup_2 _ _ _ Hb)).
    rewrite Hiou in Hthr. lra.
  - split; [|reflexivity]. intros _. apply Forall_forall. intros b Hb.
    apply list_elem_of_lookup_1 in Hb as [j Hj].
    apply (H j b (lookup_lt_Some _ _ _ Hj) Hj (not_elem_of_empty j)).
Qed.

Lemma mergeLoop_overlap_mono (l craft : list DetectedTextElement)
    (thr : number) (st : MergeState) :
  (st_overlap st <= st_overlap (mergeLoop l craft thr st))%nat.
Proof.
  revert st. induction l as [|a l IH]; intros st; simpl; [lia|].
  etransitivity; [|apply IH]. unfold mergeStep.
  destruct (scanCraft a (st_matched st) thr 0 craft None); simpl; lia.
Qed.

Lemma mergeLoop_noPair (claude craft : list DetectedTextElement)
    (thr : number) (m : list DetectedTextElement) :
  noPairReaches claude craft thr ->
  mergeLoop claude craft thr
            {| st_merged := m; st_matched := ∅; st_overlap := 0 |}
  = {| st_merged := m ++ claude; st_matched := ∅; st_overlap := 0 |}.
Proof.
  revert m. induction claude as [|a claude IH]; intros m Hno; simpl.
  - rewrite app_nil_r. reflexivity.
  - assert (Ha : scanCraft a ∅ thr 0 craft None = None).
    { apply scanCraft_None_empty, Forall_forall. intros b Hb.
      apply Hno; [apply list_elem_of_here | exact Hb]. }
    unfold mergeLoop in *. simpl. unfold mergeStep at 2. simpl. rewrite Ha.
    simpl. rewrite IH.
    + rewrite <- app_assoc. reflexivity.
    + intros a0 b Ha0 Hb. apply Hno; [apply list_elem_of_further, Ha0 | exact Hb].
Qed.

Lemma mergeMatched_zero (claude craft : list DetectedTextElement)
    (thr : number) :
  st_overlap (mergeMatched claude craft thr) = 0%nat <->
  noPairReaches claude craft thr.
Proof.
  split.
  - unfold mergeMatched, initialMergeState.
    generalize (@nil DetectedTextElement) as m.
    induction claude as [|a claude IH]; intros m H0.
    + intros a b Ha. apply elem_of_nil in Ha. contradiction.
    + unfold mergeLoop in *. simpl in H0. unfold mergeStep at 2 in H0.
      simpl in H0.
      destruct (scanCraft a ∅ thr 0 craft None) as [bm|] eqn:E.
      * exfalso.
        match type of H0 with
        | st_overlap (foldl _ ?st _) = _ =>
            pose proof (mergeLoop_overlap_mono claude craft thr st) as Hm
        end.
        unfold mergeLoop in Hm. simpl in Hm. lia.
      * apply scanCraft_None_empty in E. rewrite Forall_forall in E.
        specialize (IH _ H0).
        intros a0 b Ha0 Hb. apply elem_of_cons in Ha0 as [->|Ha0];
          [apply E, Hb | apply (IH a0 b Ha0 Hb)].
  - intros Hno. unfold mergeMatched, initialMergeState.
    rewrite (mergeLoop_noPair claude craft thr [] Hno). reflexivity.
Qed.

(** X15.  The statistics of [calculateDetectionStats] are consistent: the
    overlap count is between 0 and min(|A|, |B|), so the A-only and B-only
    counts |A| - overlap and |B| - overlap are never negative.  The
    overlap count is 0 exactly when no A element and B element reach the
    threshold, which is also exactly when [mergeDetections] matches
    nothing. *)
Theorem calculateDetectionStats_spec
    (claudeElements craftElements mergedElements : list DetectedTextElement)
    (overlapThreshold : number) :
  let s := calculateDetectionStats claudeElements craftElements
                                   mergedElements overlapThreshold in
  ds_claudeCount s = Z.of_nat (length claudeElements)
  /\ ds_craftCount s = Z.of_nat (length craftElements)
  /\ ds_mergedCount s = Z.of_nat (length mergedElements)
  /\ (0 <= ds_overlapCount s
        <= Z.of_nat (Nat.min (length claudeElements) (length craftElements)))%Z
  /\ ds_claudeOnlyCount s = (ds_claudeCount s - ds_overlapCount s)%Z
  /\ ds_craftOnlyCount s = (ds_craftCount s - ds_overlapCount s)%Z
  /\ (0 <= ds_claudeOnlyCount s)%Z /\ (0 <= ds_craftOnlyCount s)%Z
  /\ (ds_overlapCount s = 0%Z
      <-> noPairReaches claudeElements craftElements overlapThreshold)
  /\ (ds_overlapCount s = 0%Z
      <-> overlapCount (mergeDetections claudeElements craftElements
                                        overlapThreshold) = 0%Z).
Proof.
  intros s.
  destruct (calculateDetectionStats_overlap claudeElements craftElements
              mergedElements overlapThreshold) as (Eo & Ec & Er & E1 & E2 & E3).
  fold s in Eo, Ec, Er, E1, E2, E3.
  pose proof (statsLoop_inv craftElements overlapThreshold claudeElements
                0 0 ∅ ltac:(lia) (size_empty (C := gset nat))) as Inv.
  pose proof (statsLoop_zero craftElements overlapThreshold claudeElements)
    as Hz.
  destruct (statsLoop craftElements overlapThreshold (0%nat, ∅) claudeElements)
    as [count M]. simpl in Eo, Ec, Er, Hz.
  destruct Inv as ((_ & Hle) & Hsize & Hb).
  { intros j Hj. apply elem_of_empty in Hj. contradiction. }
  pose proof (bounded_set_size M (length craftElements) Hb) as Hcraft.
  assert (Hzero : ds_overlapCount s = 0%Z
                  <-> noPairReaches claudeElements craftElements
                                    overlapThreshold).
  { rewrite <- Hz, Eo. lia. }
  split; [exact E1|]. split; [exact E2|]. split; [exact E3|].
  split; [rewrite Eo; lia|].
  split; [rewrite Ec, Eo, E1; reflexivity|].
  split; [rewrite Er, Eo, E2; reflexivity|].
  split; [rewrite Ec; lia|]. split; [rewrite Er; lia|].
  split; [exact Hzero|].
  rewrite Hzero, <- mergeMatched_zero.
  unfold mergeDetections. cbv zeta. cbn [overlapCount]. lia.
Qed.

(** X16.  When no A element and B element reach the threshold, the merge
    is the concatenation: all of A, then all of B, with nothing matched.
    This is the case for an empty A, for an empty B and, at every
    threshold above 0, when no A element overlaps a B element. *)
Theorem merge_without_overlap (claudeElements craftElements : list DetectedTextElement)
    (overlapThreshold : number) :
  (noPairReaches claudeElements craftElements overlapThreshold ->
   let r := mergeDetections claudeElements craftElements overlapThreshold in
   mergedElements r = claudeElements ++ craftElements
   /\ overlapCount r = 0%Z
   /\ claudeOnlyCount r = Z.of_nat (length claudeElements)
   /\ craftOnlyCount r = Z.of_nat (length craftElements))
  /\ (0 < overlapThreshold ->
      (forall a b, a ∈ claudeElements -> b ∈ craftElements ->
                   noOverlap (boxOf a) (boxOf b)) ->
      noPairReaches claudeElements craftElements overlapThreshold)
  /\ noPairReaches [] craftElements overlapThreshold
  /\ noPairReaches claudeElements [] overlapThreshold.
Proof.
  split.
  { intros Hno r. unfold r, mergeDetections, mergeMatched, initialMergeState.
    rewrite (mergeLoop_noPair claudeElements craftElements overlapThreshold
               [] Hno).
    cbv zeta. cbn [mergedElements overlapCount claudeOnlyCount craftOnlyCount
                   st_merged st_matched st_overlap].
    rewrite unmatchedFrom_empty. simpl. repeat split; lia. }
  split.
  { intros Ht Hdis a b Ha Hb.
    rewrite (calculateIoU_noOverlap _ _ (Hdis a b Ha Hb)). exact Ht. }
  split; intros a b Ha Hb; [apply elem_of_nil in Ha | apply elem_of_nil in Hb];
    contradiction.
Qed.

Lemma merge_without_overlap_witness :
  let a := plainElement "X" 0 0 50 50 (Some 90) in
  let b := plainElement "" 500 500 50 50 (Some 95) in
  mergedElements (mergeDetections [a] [b] 0.5) = [a; b]
  /\ mergedElements (mergeDetections [a] [] 0.5) = [a].
Proof.
  intros a b.
  destruct (merge_without_overlap [a] [b] 0.5) as (H & Hdis & _).
  destruct (merge_without_overlap [a] [] 0.5) as (H' & _ & _ & Hempty).
  split.
  - apply H, Hdis; [vm_compute; reflexivity|].
    intros x y Hx Hy.
    apply list_elem_of_singleton in Hx as ->.
    apply list_elem_of_singleton in Hy as ->.
    left. vm_compute. discriminate.
  - apply (H' Hempty).
Defined.

Lemma unmatchedFrom_sublist (M : gset nat) (rest : list DetectedTextElement)
    (o : nat) : unmatchedFrom M o rest `sublist_of` rest.
Proof.
  revert o. induction rest as [|c rest IH]; intros o; simpl; [constructor|].
  destruct (decide (o ∈ M)); [apply sublist_cons | apply sublist_skip];
    apply IH.
Qed.

(** X17.  The merge output has one element per A element, in A's order,
    followed by the unmatched B elements in B's order.  An A element for
    which no unmatched B element reaches the threshold is emitted
    unchanged at its own position. *)
Theorem merge_output_order (claudeElements craftElements : list DetectedTextElement)
    (overlapThreshold : number) :
  let r := mergeDetections claudeElements craftElements overlapThreshold in
  (length claudeElements <= length (mergedElements r))%nat
  /\ drop (length claudeElements) (mergedElements r) `sublist_of` craftElements
  /\ forall k a, claudeElements !! k = Some a ->
       let matched :=
         st_matched (mergeMatched (take k claudeElements) craftElements
                                  overlapThreshold) in
       scanCraft a matched overlapThreshold 0 craftElements None = None ->
       mergedElements r !! k = Some a
       /\ forall j b, craftElements !! j = Some b -> j ∉ matched ->
                      calculateIoU (boxOf a) (boxOf b) < overlapThreshold.
Proof.
  intros r.
  destruct (mergeMatched_inv claudeElements craftElements overlapThreshold)
    as (Hlen & _).
  assert (Hr : mergedElements r
               = st_merged (mergeMatched claudeElements craftElements
                                         overlapThreshold)
                 ++ unmatchedFrom
                      (st_matched (mergeMatched claudeElements craftElements
                                                overlapThreshold))
                      0 craftElements) by reflexivity.
  split; [rewrite Hr, length_app; lia|]. split.
  { rewrite Hr, drop_app_length'; [apply unmatchedFrom_sublist | lia]. }
  intros k a Hk matched Hscan. split.
  - unfold r. rewrite (mergeDetections_lookup _ _ _ _ _ Hk).
    fold matched. rewrite Hscan. reflexivity.
  - intros j b Hj Hnot.
    pose proof (scanCraft_spec a matched overlapThreshold craftElements) as S.
    rewrite Hscan in S. simpl in S.
    apply (S j b (lookup_lt_Some _ _ _ Hj) Hj Hnot).
Qed.

Lemma merge_output_order_witness :
  let a := plainElement "X" 0 0 50 50 (Some 90) in
  let b := plainElement "" 500 500 50 50 (Some 95) in
  mergedElements (mergeDetections [a] [b] 0.5) !! 0%nat = Some a.
Proof.
  intros a b.
  destruct (merge_output_order [a] [b] 0.5) as (_ & _ & H).
  destruct (H 0%nat a eq_refl) as [Hk _]; [vm_compute; reflexivity | exact Hk].
Defined.

Lemma calculateDetectionStats_spec_witness :
  let a := plainElement "X" 0 0 50 50 (Some 90) in
  let b := plainElement "" 500 500 50 50 (Some 95) in
  ds_overlapCount (calculateDetectionStats [a] [b] [a; b] 0.5) = 0%Z
  /\ overlapCount (mergeDetections [a] [b] 0.5) = 0%Z.
Proof.
  intros a b.
  destruct (calculateDetectionStats_spec [a] [b] [a; b] 0.5)
    as (_ & _ & _ & _ & _ & _ & _ & _ & Hz & Hm).
  assert (E : ds_overlapCount (calculateDetectionStats [a] [b] [a; b] 0.5)
              = 0%Z).
  { apply Hz. intros a0 b0 Ha Hb.
    apply list_elem_of_singleton in Ha. apply list_elem_of_singleton in Hb.
    subst a0 b0. vm_compute. reflexivity. }
  split; [exact E | apply Hm, E].
Defined.

(** ** More on deduplication *)

Lemma keepFrom_elem {A : Type} (R : gset nat) (rest : list A) (o q : nat)
    (b : A) :
  rest !! q = Some b -> (o + q)%nat ∉ R -> b ∈ keepFrom R o rest.
Proof.
  revert o q. induction rest as [|x rest IH]; intros o q Hq Hn;
    [discriminate|].
  destruct q as [|q]; simpl in *.
  - injection Hq as ->. replace (o + 0)%nat with o in Hn by lia.
    destruct (decide (o ∈ R)); [contradiction | apply list_elem_of_here].
  - replace (o + S q)%nat with (S o + q)%nat in Hn by lia.
    specialize (IH (S o) q Hq Hn).
    destruct (decide (o ∈ R)); [exact IH | apply list_elem_of_further, IH].
Qed.

Lemma keepFrom_empty {A : Type} (rest : list A) (o : nat) :
  keepFrom ∅ o rest = rest.
Proof.
  revert o. induction rest as [|x rest IH]; intros o; simpl; [reflexivity|].
  destruct (decide (o ∈ (∅ : gset nat))) as [H|_];
    [apply elem_of_empty in H; contradiction|].
  rewrite IH. reflexivity.
Qed.

(** The first element of highest value in a non-empty list. *)
Lemma first_maximum {A : Type} (f : A -> Q) (l : list A) :
  l <> [] ->
  exists m e, l !! m = Some e
    /\ forall j x, l !! j = Some x ->
                   f x <= f e /\ ((j < m)%nat -> f x < f e).
Proof.
  induction l as [|x l IH]; [congruence|]. intros _.
  destruct l as [|y l].
  - exists 0%nat, x. split; [reflexivity|].
    intros [|j] z Hz; simpl in Hz; [|discriminate].
    injection Hz as <-. split; [lra | lia].
  - destruct (IH ltac:(discriminate)) as (m & e & Hm & Hmax).
    destruct (Qlt_le_dec (f x) (f e)) as [Hlt|Hle].
    + exists (S m), e. split; [exact Hm|].
      intros [|j] z Hz; simpl in Hz.
      * injection Hz as <-. split; [lra | intros _; exact Hlt].
      * destruct (Hmax j z Hz) as [H1 H2]. split; [exact H1|].
        intros Hj. apply H2. lia.
    + exists 0%nat, x. split; [reflexivity|].
      intros [|j] z Hz; simpl in Hz.
      * injection Hz as <-. split; [lra | lia].
      * destruct (Hmax j z Hz) as [H1 _]. split; [lra | lia].
Qed.

(** X18.  Deduplication never removes the first element of highest
    confidence (an absent confidence counting as 0); so a non-empty list
    never becomes empty. *)
Theorem dedup_keeps_best (elements : list DetectedTextElement) (t : number) :
  (forall m e,
     elements !! m = Some e ->
     (forall j x, elements !! j = Some x ->
        orZero (confidence_score x) <= orZero (confidence_score e)
        /\ ((j < m)%nat ->
            orZero (confidence_score x) < orZero (confidence_score e))) ->
     (m ∉ filterRemoved elements t)
     /\ e ∈ filterOverlappingDetections elements t)
  /\ (elements <> [] -> filterOverlappingDetections elements t <> []).
Proof.
  assert (Hbest : forall m e,
     elements !! m = Some e ->
     (forall j x, elements !! j = Some x ->
        orZero (confidence_score x) <= orZero (confidence_score e)
        /\ ((j < m)%nat ->
            orZero (confidence_score x) < orZero (confidence_score e))) ->
     (m ∉ filterRemoved elements t)
     /\ e ∈ filterOverlappingDetections elements t).
  { intros m e Hm Hmax.
    assert (Hn : m ∉ filterRemoved elements t).
    { intros Hin.
      apply (filterOuter_justified elements t elements [] ∅ eq_refl) in Hin.
      - destruct Hin as (i & j & ei & ej & Hij & Hi & Hj & _ & [[-> C]|[-> C]]).
        + rewrite Hm in Hj. injection Hj as <-.
          destruct (Hmax i ei Hi) as [_ H]. specialize (H Hij). lra.
        + rewrite Hm in Hi. injection Hi as <-.
          destruct (Hmax j ej Hj) as [H _]. lra.
      - intros r Hr. apply elem_of_empty in Hr. contradiction. }
    split; [exact Hn|].
    apply (keepFrom_elem _ elements 0 m e Hm Hn). }
  split; [exact Hbest|].
  intros Hne.
  destruct (first_maximum (fun x => orZero (confidence_score x)) elements Hne)
    as (m & e & Hm & Hmax).
  destruct (Hbest m e Hm Hmax) as [_ Hin].
  intros E. rewrite E in Hin. apply elem_of_nil in Hin. contradiction.
Qed.

Lemma dedup_keeps_best_witness :
  scenario3_second
    ∈ filterOverlappingDetections [scenario3_first; scenario3_second] 0.7.
Proof.
  destruct (dedup_keeps_best [scenario3_first; scenario3_second] 0.7)
    as [H _].
  apply (H 1%nat scenario3_second eq_refl).
  intros [|[|j]] x Hx; simpl in Hx; try discriminate; injection Hx as <-;
    (split; [vm_compute; discriminate | intros Hj; try lia]).
  vm_compute. reflexivity.
Defined.

Lemma filterInner_noop (t : number) (i : nat) (ei : DetectedTextElement)
    (rest : list DetectedTextElement) (j : nat) (T : gset nat) :
  Forall (fun ej => calculateIoU (boxOf ei) (boxOf ej) < t) rest ->
  filterInner t i ei j rest T = T.
Proof.
  intros H. revert j. induction H as [|ej rest Hej _ IH]; intros j; simpl;
    [reflexivity|].
  apply geb_false in Hej. rewrite Hej.
  destruct (decide (j ∈ T)); apply IH.
Qed.

Lemma filterOuter_noop (t : number) (rest : list DetectedTextElement)
    (i : nat) (T : gset nat) :
  ForallOrdPairs (fun a b => calculateIoU (boxOf a) (boxOf b) < t) rest ->
  filterOuter t i rest T = T.
Proof.
  intros H. revert i. induction H as [|ei rest Hei _ IH]; intros i; simpl;
    [reflexivity|].
  rewrite (filterInner_noop t i ei rest (S i) T Hei).
  destruct (decide (i ∈ T)); apply IH.
Qed.

Lemma filterOverlappingDetections_pairs (elements : list DetectedTextElement)
    (t : number) :
  ForallOrdPairs (fun a b => calculateIoU (boxOf a) (boxOf b) < t)
                 (filterOverlappingDetections elements t).
Proof.
  apply keepFrom_pairs. intros p q a b Hpq Hp Hq Hnp Hnq.
  apply (filterOuter_pairs t elements 0 ∅ p q a b Hpq Hp Hq Hnp Hnq).
Qed.

Lemma filterOverlappingDetections_noop (elements : list DetectedTextElement)
    (t : number) :
  ForallOrdPairs (fun a b => calculateIoU (boxOf a) (boxOf b) < t) elements ->
  filterOverlappingDetections elements t = elements.
Proof.
  intros H. unfold filterOverlappingDetections, filterRemoved.
  rewrite (filterOuter_noop t elements 0 ∅ H). apply keepFrom_empty.
Qed.

Lemma ForallOrdPairs_mono {A : Type} (P Q : A -> A -> Prop) (l : list A) :
  (forall a b, P a b -> Q a b) -> ForallOrdPairs P l -> ForallOrdPairs Q l.
Proof.
  intros H. induction 1 as [|x l Hx _ IH]; constructor; [|exact IH].
  eapply Forall_impl; [exact Hx|]. intros y. apply H.
Qed.

Lemma ForallOrdPairs_all {A : Type} (P : A -> A -> Prop) (l : list A) :
  (forall a b, P a b) -> ForallOrdPairs P l.
Proof.
  intros H. induction l as [|x l IH]; constructor; [|exact IH].
  apply Forall_forall. intros y _. apply H.
Qed.

(** X19.  Deduplication leaves a list in which no earlier and later
    element reach the threshold as it is; so deduplicating twice at the
    same threshold is the same as once, and at every threshold above 0 a
    list of elements that do not overlap one another is returned
    unchanged. *)
Theorem dedup_idempotent (elements : list DetectedTextElement) (t : number) :
  (ForallOrdPairs (fun a b => calculateIoU (boxOf a) (boxOf b) < t) elements ->
   filterOverlappingDetections elements t = elements)
  /\ filterOverlappingDetections (filterOverlappingDetections elements t) t
     = filterOverlappingDetections elements t
  /\ (0 < t ->
      ForallOrdPairs (fun a b => noOverlap (boxOf a) (boxOf b)) elements ->
      filterOverlappingDetections elements t = elements).
Proof.
  split; [apply filterOverlappingDetections_noop|]. split.
  - apply filterOverlappingDetections_noop,
      filterOverlappingDetections_pairs.
  - intros Ht Hdis. apply filterOverlappingDetections_noop.
    eapply ForallOrdPairs_mono; [|exact Hdis].
    intros a b H. cbv beta in H.
    rewrite (calculateIoU_noOverlap _ _ H). exact Ht.
Qed.

Lemma dedup_idempotent_witness :
  let a := plainElement "X" 0 0 50 50 (Some 90) in
  let b := plainElement "Y" 500 500 50 50 (Some 95) in
  filterOverlappingDetections [a; b] 0.8 = [a; b].
Proof.
  intros a b.
  destruct (dedup_idempotent [a; b] 0.8) as (_ & _ & H).
  apply H; [vm_compute; reflexivity|].
  constructor; [|constructor; [constructor|constructor]].
  constructor; [|constructor]. left. vm_compute. discriminate.
Defined.

Lemma calculateRegionIoU_boxes (r1 r2 : LayoutRegion.t) :
  calculateRegionIoU r1 r2 = calculateIoU (regionBox r1) (regionBox r2).
Proof. reflexivity. Qed.

Lemma dedupInner_mono (i : nat) (ri : LayoutRegion.t)
    (rest : list LayoutRegion.t) (j : nat) (T : gset nat) :
  T ⊆ dedupInner i ri j rest T.
Proof.
  revert j T. induction rest as [|rj rest IH]; intros j T; simpl;
    [reflexivity|].
  etransitivity; [|apply IH].
  destruct (decide (j ∈ T)); [reflexivity|].
  destruct (gtb _ 0.7); [apply union_subseteq_r | reflexivity].
Qed.

Lemma dedupOuter_mono (rest : list LayoutRegion.t) (i : nat) (T : gset nat) :
  T ⊆ dedupOuter i rest T.
Proof.
  revert i T. induction rest as [|ri rest IH]; intros i T; simpl;
    [reflexivity|].
  etransitivity; [|apply IH].
  destruct (decide (i ∈ T)); [reflexivity | apply dedupInner_mono].
Qed.

Lemma dedupInner_pair (i : nat) (ri : LayoutRegion.t)
    (rest : list LayoutRegion.t) (j : nat) (T : gset nat)
    (q : nat) (b : LayoutRegion.t) :
  rest !! q = Some b ->
  i ∉ dedupInner i ri j rest T ->
  (j + q)%nat ∉ dedupInner i ri j rest T ->
  calculateRegionIoU ri b <= 0.7.
Proof.
  revert j T q. induction rest as [|rj rest IH]; intros j T q Hq Hi Hj;
    [discriminate|].
  simpl in Hi, Hj. destruct q as [|q]; simpl in Hq.
  - injection Hq as ->. replace (j + 0)%nat with j in Hj by lia.
    match type of Hi with
    | _ ∉ dedupInner _ _ _ _ ?T' =>
        assert (Hi' : i ∉ T') by (intros C; apply Hi, dedupInner_mono, C);
        assert (Hj' : j ∉ T') by (intros C; apply Hj, dedupInner_mono, C)
    end.
    destruct (decide (j ∈ T)) as [Hin|_]; [contradiction|].
    destruct (gtb (calculateRegionIoU ri b) 0.7) eqn:G;
      [|apply gtb_false, G].
    exfalso. cbv zeta in Hi', Hj'.
    destruct (geb (LayoutRegion.width ri * LayoutRegion.height ri)
                  (LayoutRegion.width b * LayoutRegion.height b)).
    + rewrite Nat.eqb_refl in Hj'.
      apply Hj', elem_of_union_l, elem_of_singleton. reflexivity.
    + destruct (Nat.eqb j i) eqn:E.
      * apply Nat.eqb_eq in E. subst j.
        apply Hi', elem_of_union_l, elem_of_singleton. reflexivity.
      * apply Hi', elem_of_union_l, elem_of_singleton. reflexivity.
  - replace (j + S q)%nat with (S j + q)%nat in Hj by lia.
    apply (IH (S j) _ q Hq Hi Hj).
Qed.

Lemma dedupOuter_pairs (rest : list LayoutRegion.t)
    (i : nat) (T : gset nat) (p q : nat) (a b : LayoutRegion.t) :
  (p < q)%nat -> rest !! p = Some a -> rest !! q = Some b ->
  (i + p)%nat ∉ dedupOuter i rest T ->
  (i + q)%nat ∉ dedupOuter i rest T ->
  calculateRegionIoU a b <= 0.7.
Proof.
  revert i T p q.
  induction rest as [|ri rest IH]; intros i T p q Hpq Hp Hq Hip Hiq;
    [discriminate|].
  simpl in Hip, Hiq. destruct q as [|q]; [lia|]. simpl in Hq.
  replace (i + S q)%nat with (S i + q)%nat in Hiq by lia.
  destruct p as [|p]; simpl in Hp.
  - injection Hp as ->. replace (i + 0)%nat with i in Hip by lia.
    match type of Hip with
    | _ ∉ dedupOuter _ _ ?T' =>
        assert (Hi' : i ∉ T') by (intros C; apply Hip, dedupOuter_mono, C);
        assert (Hq' : (S i + q)%nat ∉ T')
          by (intros C; apply Hiq, dedupOuter_mono, C)
    end.
    destruct (decide (i ∈ T)) as [Hin|_]; [contradiction|].
    apply (dedupInner_pair i a rest (S i) T q b Hq Hi' Hq').
  - replace (i + S p)%nat with (S i + p)%nat in Hip by lia.
    apply (IH (S i) _ p q ltac:(lia) Hp Hq Hip Hiq).
Qed.

Lemma deduplicateRegions_keepFrom (regions : list LayoutRegion.t) :
  deduplicateRegions regions = keepFrom (dedupRemoved regions) 0 regions.
Proof. destruct regions; reflexivity. Qed.

(** X20.  After [deduplicateRegions] no two surviving regions have an IoU
    above 0.7 (in either order of the pair), and the survivors are the
    input with some regions left out, in the input's order.  The first
    region of largest area is never removed, so a non-empty list never
    becomes empty. *)
Theorem deduplicateRegions_postcondition (regions : list LayoutRegion.t) :
  ForallOrdPairs
    (fun a b => calculateRegionIoU a b <= 0.7 /\ calculateRegionIoU b a <= 0.7)
    (deduplicateRegions regions)
  /\ deduplicateRegions regions `sublist_of` regions
  /\ (forall m r,
        regions !! m = Some r ->
        (forall j x, regions !! j = Some x ->
           regionArea x <= regionArea r
           /\ ((j < m)%nat -> regionArea x < regionArea r)) ->
        r ∈ deduplicateRegions regions)
  /\ (regions <> [] -> deduplicateRegions regions <> []).
Proof.
  rewrite deduplicateRegions_keepFrom.
  assert (Hbest : forall m r,
        regions !! m = Some r ->
        (forall j x, regions !! j = Some x ->
           regionArea x <= regionArea r
           /\ ((j < m)%nat -> regionArea x < regionArea r)) ->
        r ∈ keepFrom (dedupRemoved regions) 0 regions).
  { intros m r Hm Hmax.
    assert (Hn : m ∉ dedupRemoved regions).
    { intros Hin.
      apply (dedupOuter_justified regions regions [] ∅ eq_refl) in Hin.
      - destruct Hin as (i & j & ri & rj & Hij & Hi & Hj & _ & [[-> C]|[-> C]]).
        + rewrite Hm in Hj. injection Hj as <-.
          destruct (Hmax i ri Hi) as [_ H]. specialize (H Hij). lra.
        + rewrite Hm in Hi. injection Hi as <-.
          destruct (Hmax j rj Hj) as [H _]. lra.
      - intros x Hx. apply elem_of_empty in Hx. contradiction. }
    apply (keepFrom_elem _ regions 0 m r Hm Hn). }
  split.
  { apply keepFrom_pairs. intros p q a b Hpq Hp Hq Hnp Hnq.
    assert (H : calculateRegionIoU a b <= 0.7)
      by apply (dedupOuter_pairs regions 0 ∅ p q a b Hpq Hp Hq Hnp Hnq).
    split; [exact H|].
    rewrite calculateRegionIoU_boxes in *.
    rewrite (calculateIoU_sym (regionBox b) (regionBox a)). exact H. }
  split; [apply keepFrom_sublist|].
  split; [exact Hbest|].
  intros Hne.
  destruct (first_maximum regionArea regions Hne) as (m & r & Hm & Hmax).
  specialize (Hbest m r Hm Hmax).
  intros E. rewrite E in Hbest. apply elem_of_nil in Hbest. contradiction.
Qed.

Lemma deduplicateRegions_postcondition_witness :
  plainRegion 0 0 100 100
    ∈ deduplicateRegions [plainRegion 0 0 100 100; plainRegion 5 5 95 95].
Proof.
  destruct (deduplicateRegions_postcondition
              [plainRegion 0 0 100 100; plainRegion 5 5 95 95])
    as (_ & _ & H & _).
  apply (H 0%nat (plainRegion 0 0 100 100) eq_refl).
  intros [|[|j]] x Hx; simpl in Hx; try discriminate; injection Hx as <-;
    (split; [vm_compute; discriminate | intros Hj; lia]).
Defined.

(** ** Dual-source mode of the orchestrator *)


Section DualSourceProperties.
Context {Blob : Type} {services : Services Blob}.

(** The content-aware elements of the standard pipeline: region OCR,
    normalized and aligned, or nothing when no region is detected. *)
Lemma detectorElements_None (useDBNet : bool) (imageBlob : Blob)
    (imageWidth imageHeight : number) :
  detectorElements useDBNet imageBlob imageWidth imageHeight = None <->
  if useDBNet
  then DBNetDetectionResult.boxes
         (detectTextWithDBNet imageBlob imageWidth imageHeight 0.3 0.5 1.8) = []
       \/ truthy (DBNetDetectionResult.error
                    (detectTextWithDBNet imageBlob imageWidth imageHeight
                                         0.3 0.5 1.8)) = true
  else CraftDetectionResult.boxes
         (detectTextWithCRAFT imageBlob imageWidth imageHeight) = []
       \/ truthy (CraftDetectionResult.error
                    (detectTextWithCRAFT imageBlob imageWidth imageHeight))
          = true.
Proof.
  unfold detectorElements. destruct useDBNet; cbv zeta.
  - destruct (DBNetDetectionResult.boxes _) as [|b bs];
      destruct (truthy (DBNetDetectionResult.error _)); simpl;
      split; intros H; try reflexivity; try discriminate; auto;
      destruct H as [H|H]; discriminate.
  - destruct (CraftDetectionResult.boxes _) as [|b bs];
      destruct (truthy (CraftDetectionResult.error _)); simpl;
      split; intros H; try reflexivity; try discriminate; auto;
      destruct H as [H|H]; discriminate.
Qed.

(** X21.  Outside primary mode, when the geometry-only detector returns no
    boxes or reports an error, dual-source detection returns exactly what
    content-aware-only detection returns; that result does not depend on
    the other two flags, counts no geometry-only box, and is empty when no
    layout region is detected (this path has no direct text detection to
    fall back on). *)
Theorem dual_source_failure (imageBlob : Blob) (imageWidth imageHeight : number)
    (useDBNet : bool) :
  let claudeOnly :=
    performClaudeOnlyDetection imageBlob imageWidth imageHeight in
  ((if useDBNet
    then DBNetDetectionResult.boxes
           (detectTextWithDBNet imageBlob imageWidth imageHeight 0.3 0.5 1.8)
         = []
         \/ truthy (DBNetDetectionResult.error
                      (detectTextWithDBNet imageBlob imageWidth imageHeight
                                           0.3 0.5 1.8)) = true
    else CraftDetectionResult.boxes
           (detectTextWithCRAFT imageBlob imageWidth imageHeight) = []
         \/ truthy (CraftDetectionResult.error
                      (detectTextWithCRAFT imageBlob imageWidth imageHeight))
            = true) ->
   performHybridDetection imageBlob imageWidth imageHeight true false useDBNet
   = claudeOnly)
  /\ (forall useCraftPrimary useDBNet',
        performHybridDetection imageBlob imageWidth imageHeight
                               false useCraftPrimary useDBNet' = claudeOnly)
  /\ ds_craftCount (detectionStats claudeOnly) = 0%Z
  /\ ds_overlapCount (detectionStats claudeOnly) = 0%Z
  /\ ds_claudeOnlyCount (detectionStats claudeOnly)
     = Z.of_nat (length (textElements (analysis claudeOnly)))
  /\ regions claudeOnly
     = ld_regions (detectLayoutRegions imageBlob imageWidth imageHeight)
  /\ (ld_regions (detectLayoutRegions imageBlob imageWidth imageHeight) = [] ->
      textElements (analysis claudeOnly) = []).
Proof.
  intros claudeOnly. split.
  { intros Hfail. apply detectorElements_None in Hfail.
    unfold claudeOnly, performClaudeOnlyDetection, performHybridDetection.
    cbn [andb negb]. rewrite andb_false_r. cbv zeta. rewrite Hfail.
    reflexivity. }
  split.
  { intros cp db.
    unfold claudeOnly, performClaudeOnlyDetection, performHybridDetection.
    destruct cp, db; reflexivity. }
  repeat (split; [reflexivity|]).
  intros Hnone.
  unfold claudeOnly, performClaudeOnlyDetection, performHybridDetection. simpl.
  rewrite Hnone. reflexivity.
Qed.

(** X22.  Outside primary mode, when the geometry-only detector delivers
    elements, the result of dual-source detection is the merge at 0.5 of
    the content-aware elements with the enriched detector elements,
    deduplicated at 0.8: it is a part of the merge output, in order, in
    which no two elements have an IoU of 0.8 or more; the regions are the
    detected layout regions and the reported total is the number of
    elements returned. *)
Theorem dual_source_success (imageBlob : Blob) (imageWidth imageHeight : number)
    (useDBNet : bool) (detected : list DetectedTextElement) :
  detectorElements useDBNet imageBlob imageWidth imageHeight = Some detected ->
  let r :=
    performHybridDetection imageBlob imageWidth imageHeight true false useDBNet in
  let claudeElements :=
    textElements
      (analysis (performClaudeOnlyDetection imageBlob imageWidth imageHeight)) in
  let merged :=
    mergedElements
      (mergeDetections claudeElements
         (enrichCraftElementsWithClaudeOCR detected claudeElements 0.3) 0.5) in
  textElements (analysis r) = filterOverlappingDetections merged 0.8
  /\ textElements (analysis r) `sublist_of` merged
  /\ ForallOrdPairs
       (fun a b => calculateIoU (boxOf a) (boxOf b) < 0.8
                   /\ calculateIoU (boxOf b) (boxOf a) < 0.8)
       (textElements (analysis r))
  /\ regions r
     = ld_regions (detectLayoutRegions imageBlob imageWidth imageHeight)
  /\ ds_mergedCount (detectionStats r)
     = Z.of_nat (length (textElements (analysis r)))
  /\ ds_claudeCount (detectionStats r) = Z.of_nat (length claudeElements)
  /\ ds_craftCount (detectionStats r) = Z.of_nat (length detected).
Proof.
  intros Hdet r claudeElements merged.
  assert (Er : r = {| analysis :=
                        {| textElements := filterOverlappingDetections merged 0.8;
                           tables := [] |};
                      regions :=
                        ld_regions (detectLayoutRegions imageBlob imageWidth
                                                        imageHeight);
                      detectionStats :=
                        calculateDetectionStats claudeElements
                          (enrichCraftElementsWithClaudeOCR detected
                                                            claudeElements 0.3)
                          (filterOverlappingDetections merged 0.8) 0.5 |}).
  { unfold r, performHybridDetection. cbn [andb negb].
    rewrite andb_false_r. cbv zeta. rewrite Hdet. reflexivity. }
  rewrite Er. cbn [analysis textElements regions detectionStats].
  destruct (calculateDetectionStats_overlap claudeElements
              (enrichCraftElementsWithClaudeOCR detected claudeElements 0.3)
              (filterOverlappingDetections merged 0.8) 0.5)
    as (_ & _ & _ & E1 & E2 & E3).
  split; [reflexivity|]. split; [apply keepFrom_sublist|]. split.
  { eapply ForallOrdPairs_mono;
      [|apply (filterOverlappingDetections_pairs merged 0.8)].
    intros a b H. split; [exact H|].
    rewrite (calculateIoU_sym (boxOf b) (boxOf a)). exact H. }
  split; [reflexivity|]. split; [exact E3|]. split; [exact E1|].
  rewrite E2. unfold enrichCraftElementsWithClaudeOCR. rewrite length_map.
  reflexivity.
Qed.

End DualSourceProperties.

Lemma dual_source_failure_witness :
  @performHybridDetection unit scenario5 tt 1920 1080 true false false
  = @performClaudeOnlyDetection unit scenario5 tt 1920 1080.
Proof.
  apply (proj1 (@dual_source_failure unit scenario5 tt 1920 1080 false)).
  right. reflexivity.
Defined.

Lemma dual_source_success_witness :
  length
    (textElements
       (analysis (@performHybridDetection unit dualSourceScenario tt 1920 1080
                                          true false false))) = 1%nat.
Proof.
  destruct (@dual_source_success unit dualSourceScenario tt 1920 1080 false
              [plainElement "[Text 1]" 1 1 2 0.5 (Some 95)] eq_refl)
    as (-> & _).
  vm_compute. reflexivity.
Defined.

(** ** Grouping of character boxes into words *)











(** ** Primary mode of the orchestrator *)

Section PrimaryModeProperties.
Context {Blob : Type} {services : Services Blob}.

Lemma length_eqb_0 {A : Type} (l : list A) :
  l <> [] -> Nat.eqb (length l) 0 = false.
Proof. destruct l; [contradiction|reflexivity]. Qed.

Lemma length_Z_eqb_0 {A : Type} (l : list A) :
  l <> [] -> Z.eqb (Z.of_nat (length l)) 0 = false.
Proof. destruct l; [contradiction|reflexivity]. Qed.

Lemma ocrSuccesses_le (textElements : list DetectedTextElement) :
  (ocrSuccesses textElements <= length textElements)%nat.
Proof. unfold ocrSuccesses. apply length_filter. Qed.

(** X24.  In primary mode the content-aware pipeline is not consulted when
    the detector succeeds: if the selected detector returns boxes without
    an error and grouping them leaves at least one box, the result holds
    exactly the OCR elements of the grouped boxes and no region; no element
    is counted as content-aware, the detector count is the number of
    grouped boxes, the overlap count is the number of elements with
    non-blank text, at most the number of elements, and overlap and
    detector-only counts add up to the detector count. *)
Theorem primary_mode_success (imageBlob : Blob)
    (imageWidth imageHeight : number) :
  (let craft := detectTextWithCRAFT imageBlob imageWidth imageHeight in
   let wordBoxes :=
     mergeCharacterBoxesToWords (CraftDetectionResult.boxes craft) in
   let r :=
     performHybridDetection imageBlob imageWidth imageHeight true true false in
   CraftDetectionResult.boxes craft <> [] ->
   truthy (CraftDetectionResult.error craft) = false ->
   wordBoxes <> [] ->
   textElements (analysis r)
   = performOCROnCraftRegions imageBlob wordBoxes imageWidth imageHeight
   /\ regions r = []
   /\ ds_claudeCount (detectionStats r) = 0%Z
   /\ ds_claudeOnlyCount (detectionStats r) = 0%Z
   /\ ds_craftCount (detectionStats r) = Z.of_nat (length wordBoxes)
   /\ ds_mergedCount (detectionStats r)
      = Z.of_nat (length (textElements (analysis r)))
   /\ ds_overlapCount (detectionStats r)
      = Z.of_nat (ocrSuccesses (textElements (analysis r)))
   /\ (ds_overlapCount (detectionStats r)
       <= ds_mergedCount (detectionStats r))%Z
   /\ (ds_overlapCount (detectionStats r)
       + ds_craftOnlyCount (detectionStats r)
       = ds_craftCount (detectionStats r))%Z)
  /\ (let dbnet :=
        detectTextWithDBNet imageBlob imageWidth imageHeight 0.3 0.5 1.8 in
      let lineBoxes := mergeBoxesToLines (DBNetDetectionResult.boxes dbnet) in
      let r :=
        performHybridDetection imageBlob imageWidth imageHeight true true true in
      DBNetDetectionResult.boxes dbnet <> [] ->
      truthy (DBNetDetectionResult.error dbnet) = false ->
      lineBoxes <> [] ->
      textElements (analysis r)
      = performOCROnDBNetRegions imageBlob lineBoxes imageWidth imageHeight
      /\ regions r = []
      /\ ds_claudeCount (detectionStats r) = 0%Z
      /\ ds_claudeOnlyCount (detectionStats r) = 0%Z
      /\ ds_craftCount (detectionStats r) = Z.of_nat (length lineBoxes)
      /\ ds_mergedCount (detectionStats r)
         = Z.of_nat (length (textElements (analysis r)))
      /\ ds_overlapCount (detectionStats r)
         = Z.of_nat (ocrSuccesses (textElements (analysis r)))
      /\ (ds_overlapCount (detectionStats r)
          <= ds_mergedCount (detectionStats r))%Z
      /\ (ds_overlapCount (detectionStats r)
          + ds_craftOnlyCount (detectionStats r)
          = ds_craftCount (detectionStats r))%Z).
Proof.
  split.
  - intros craft wordBoxes r Hboxes Herr Hwords.
    assert (Er : r = primaryToHybrid
                       {| pr_analysis :=
                            {| textElements :=
                                 performOCROnCraftRegions imageBlob wordBoxes
                                   imageWidth imageHeight;
                               tables := [] |};
                          pr_boxCount := Z.of_nat (length wordBoxes);
                          pr_ocrSuccessCount :=
                            Z.of_nat
                              (ocrSuccesses
                                 (performOCROnCraftRegions imageBlob wordBoxes
                                    imageWidth imageHeight)) |}).
    { unfold r, performHybridDetection. cbn [andb negb].
      unfold performCraftPrimaryHybridDetection, performCraftPrimaryDetection.
      cbv zeta.
      change (detectTextWithCRAFT imageBlob imageWidth imageHeight) with craft.
      rewrite Herr, (length_eqb_0 _ Hboxes). cbn [orb pr_boxCount].
      change (mergeCharacterBoxesToWords (CraftDetectionResult.boxes craft))
        with wordBoxes.
      rewrite (length_Z_eqb_0 _ Hwords). reflexivity. }
    rewrite Er. cbn.
    pose proof (ocrSuccesses_le
                  (performOCROnCraftRegions imageBlob wordBoxes
                     imageWidth imageHeight)).
    repeat split; lia.
  - intros dbnet lineBoxes r Hboxes Herr Hlines.
    assert (Er : r = primaryToHybrid
                       {| pr_analysis :=
                            {| textElements :=
                                 performOCROnDBNetRegions imageBlob lineBoxes
                                   imageWidth imageHeight;
                               tables := [] |};
                          pr_boxCount := Z.of_nat (length lineBoxes);
                          pr_ocrSuccessCount :=
                            Z.of_nat
                              (ocrSuccesses
                                 (performOCROnDBNetRegions imageBlob lineBoxes
                                    imageWidth imageHeight)) |}).
    { unfold r, performHybridDetection. cbn [andb negb].
      unfold performDBNetPrimaryHybridDetection, performDBNetPrimaryDetection.
      cbv zeta.
      change (detectTextWithDBNet imageBlob imageWidth imageHeight 0.3 0.5 1.8)
        with dbnet.
      rewrite Herr, (length_eqb_0 _ Hboxes). cbn [orb pr_boxCount].
      change (mergeBoxesToLines (DBNetDetectionResult.boxes dbnet))
        with lineBoxes.
      rewrite (length_Z_eqb_0 _ Hlines). reflexivity. }
    rewrite Er. cbn.
    pose proof (ocrSuccesses_le
                  (performOCROnDBNetRegions imageBlob lineBoxes
                     imageWidth imageHeight)).
    repeat split; lia.
Qed.

End PrimaryModeProperties.

Lemma primary_mode_success_witness :
  textElements
    (analysis (@performHybridDetection unit dualSourceScenario tt 1920 1080
                                       true true false))
  = [plainElement "Hello" 1 1 2 0.5 (Some 95)].
Proof.
  destruct (proj1 (@primary_mode_success unit dualSourceScenario tt 1920 1080))
    as (-> & _).
  - discriminate.
  - reflexivity.
  - discriminate.
  - reflexivity.
Defined.
